(** * change8-action: the manifest differ, the resolver and the comment formatter

    A shallow embedding of [parsers.ts], [api.ts] and [index.ts].

    - A JavaScript string is the list of its UTF-16 code units ([jsstring]);
      [length], [substring], [startsWith] ... count code units, as the
      language does.
    - A plain object used as a dictionary ([Record<string, string>]) is the
      list of its own properties in creation order; reading a key that is not
      an own property goes on to [Object.prototype], as [o[k]] does.
    - What the host provides and the repository does not define
      ([JSON.parse], [encodeURIComponent], [fetch], the Unicode case tables
      behind [toLowerCase]) is a parameter of the section that uses it.
    - [async] code that can throw runs in a small state-and-exception monad
      whose state is the number of requests issued so far. *)

From Stdlib Require Import String Ascii.
From Stdlib Require Import List NArith Arith Bool Lia Permutation.
Import ListNotations.

Set Implicit Arguments.

(* ================================================================== *)
(** * The host language *)
(* ================================================================== *)

Module JS.

(** ** Strings *)

Definition jsstring := list N.

(** [lit "abc"] is the string whose code units are the characters of an
    ASCII literal. *)
Definition lit (s : string) : jsstring := map N_of_ascii (list_ascii_of_string s).

(** A literal in which ['] stands for the double quote (code unit 34). *)
Definition quoted (s : string) : jsstring :=
  map (fun c => if N.eqb c 39 then 34%N else c) (lit s).

(** The line feed, [\n] in the source's literals. *)
Definition LF : jsstring := [10%N].

Definition str_eq_dec : forall a b : jsstring, {a = b} + {a <> b} :=
  list_eq_dec N.eq_dec.

Definition eqb (a b : jsstring) : bool := if str_eq_dec a b then true else false.

Fixpoint startsWith (s p : jsstring) : bool :=
  match p, s with
  | [], _ => true
  | c :: p', d :: s' => N.eqb c d && startsWith s' p'
  | _ :: _, [] => false
  end.

Definition endsWith (s p : jsstring) : bool := startsWith (rev s) (rev p).

Fixpoint includes (s p : jsstring) : bool :=
  startsWith s p || match s with [] => false | _ :: s' => includes s' p end.

(** [s.substring(0, n)] *)
Definition substring0 (n : nat) (s : jsstring) : jsstring := firstn n s.

(** [s.split(sep)] for a non-empty separator: the pieces between the
    leftmost, non-overlapping occurrences of [sep]. [skip] counts the code
    units of an occurrence still to be passed over. *)
Fixpoint split_go (sep : jsstring) (skip : nat) (cur : jsstring) (s : jsstring)
  : list jsstring :=
  match s with
  | [] => [cur]
  | c :: s' =>
      match skip with
      | S k => split_go sep k cur s'
      | O => if startsWith s sep
             then cur :: split_go sep (length sep - 1) [] s'
             else split_go sep 0 (cur ++ [c]) s'
      end
  end.

Definition split (sep s : jsstring) : list jsstring := split_go sep 0 [] s.

(** White space and line terminators: what [trim] removes and [\s] matches. *)
Definition is_space (c : N) : bool :=
  ((9 <=? c) && (c <=? 13) || (c =? 32) || (c =? 160) || (c =? 5760)
   || (8192 <=? c) && (c <=? 8202) || (c =? 8232) || (c =? 8233)
   || (c =? 8239) || (c =? 8287) || (c =? 12288) || (c =? 65279))%N.

Fixpoint trimStart (s : jsstring) : jsstring :=
  match s with
  | c :: s' => if is_space c then trimStart s' else s
  | [] => []
  end.

Definition trim (s : jsstring) : jsstring := rev (trimStart (rev (trimStart s))).

Definition between (lo hi c : N) : bool := ((lo <=? c) && (c <=? hi))%N.
Definition is_upper : N -> bool := between 65 90.
Definition is_lower : N -> bool := between 97 122.
Definition is_digit : N -> bool := between 48 57.

(** [s.toLowerCase()] where [s] is a string of ASCII code units, as the
    captures of the name patterns are: [A-Z] are lowered and nothing else
    changes. *)
Definition lower (c : N) : N := if is_upper c then (c + 32)%N else c.
Definition toLowerCase (s : jsstring) : jsstring := map lower s.

Definition is_ascii (c : N) : bool := (c <? 128)%N.

(** [s.toLowerCase()] for any string [s]. The language fixes the result for
    a string of ASCII code units, as above. For a string that holds any other
    code unit the result follows the Unicode tables of the host, [unicode]
    here, of which nothing is assumed. *)
Definition toLowerCase_in (unicode : jsstring -> jsstring) (s : jsstring) : jsstring :=
  if forallb is_ascii s then toLowerCase s else unicode s.

(** [s.replace(/^X/, '')] for a one-character class [X]. *)
Definition strip_leading (cls : N -> bool) (s : jsstring) : jsstring :=
  match s with
  | c :: s' => if cls c then s' else s
  | [] => []
  end.

(** Decimal rendering of a length. *)
Fixpoint decimal_go (fuel : nat) (n : N) (acc : jsstring) : jsstring :=
  match fuel with
  | O => acc
  | S f => let acc' := (48 + n mod 10)%N :: acc in
           if (n <? 10)%N then acc' else decimal_go f (n / 10)%N acc'
  end.

Definition decimal (n : nat) : jsstring := decimal_go (S n) (N.of_nat n) [].

(** ** Values that a property read can produce *)

Inductive jsval :=
| VUndefined
| VString (s : jsstring)
| VBuiltin (member : jsstring).   (* a member inherited from Object.prototype *)

Definition truthy (v : jsval) : bool :=
  match v with
  | VUndefined => false
  | VString [] => false
  | VString (_ :: _) => true
  | VBuiltin _ => true
  end.

(** [a === b] *)
Definition strict_eq (a b : jsval) : bool :=
  match a, b with
  | VUndefined, VUndefined => true
  | VString s, VString t => eqb s t
  | VBuiltin m, VBuiltin n => eqb m n
  | _, _ => false
  end.

(** [String(v)] and template interpolation. *)
Definition ToString (v : jsval) : jsstring :=
  match v with
  | VUndefined => lit "undefined"
  | VString s => s
  | VBuiltin m =>
      if eqb m (lit "__proto__") then lit "[object Object]"
      else lit "function "
             ++ (if eqb m (lit "constructor") then lit "Object" else m)
             ++ lit "() { [native code] }"
  end.

(** ** Plain objects *)

Definition object := list (jsstring * jsstring).

(** The properties every plain object inherits. *)
Definition Object_prototype : list jsstring :=
  map lit ["constructor"; "__defineGetter__"; "__defineSetter__";
           "hasOwnProperty"; "__lookupGetter__"; "__lookupSetter__";
           "isPrototypeOf"; "propertyIsEnumerable"; "toString"; "valueOf";
           "__proto__"; "toLocaleString"]%string.

Definition inherited (k : jsstring) : bool := existsb (eqb k) Object_prototype.

Fixpoint own (o : object) (k : jsstring) : option jsstring :=
  match o with
  | [] => None
  | (k', v) :: o' => if eqb k' k then Some v else own o' k
  end.

(** [o[k]] *)
Definition get (o : object) (k : jsstring) : jsval :=
  match own o k with
  | Some v => VString v
  | None => if inherited k then VBuiltin k else VUndefined
  end.

(** Creating or overwriting an own property; an overwritten property keeps
    its place in the creation order. *)
Fixpoint define (o : object) (k v : jsstring) : object :=
  match o with
  | [] => [(k, v)]
  | (k', v') :: o' => if eqb k' k then (k', v) :: o' else (k', v') :: define o' k v
  end.

(** [o[k] = v] with a string [v]. [__proto__] is an accessor of
    [Object.prototype] whose setter ignores a value that is not an object, so
    assigning to it creates nothing unless the object has its own
    [__proto__]. *)
Definition set (o : object) (k v : jsstring) : object :=
  match own o k with
  | Some _ => define o k v
  | None => if eqb k (lit "__proto__") then o else define o k v
  end.

(** A key is an array index when it is the canonical decimal form of an
    integer below 2^32 - 1. *)
Definition digits_value (k : jsstring) : option N :=
  fold_left (fun acc c =>
               match acc with
               | Some a => if is_digit c then Some (10 * a + (c - 48))%N else None
               | None => None
               end) k (Some 0%N).

Definition array_index (k : jsstring) : option N :=
  match k with
  | [] => None
  | c :: r =>
      if (c =? 48)%N && negb (match r with [] => true | _ => false end) then None
      else match digits_value k with
           | Some n => if (n <? 4294967295)%N then Some n else None
           | None => None
           end
  end.

Definition is_index (p : jsstring * jsstring) : bool :=
  match array_index (fst p) with Some _ => true | None => false end.

Definition index_of (p : jsstring * jsstring) : N :=
  match array_index (fst p) with Some n => n | None => 0%N end.

Fixpoint insert_by_index (p : jsstring * jsstring) (l : object) : object :=
  match l with
  | [] => [p]
  | q :: l' => if (index_of p <? index_of q)%N then p :: l
               else q :: insert_by_index p l'
  end.

Definition sort_by_index (l : object) : object :=
  fold_right insert_by_index [] l.

(** [Object.entries(o)]: array-index keys in ascending order, then the other
    keys in creation order. *)
Definition Object_entries (o : object) : object :=
  sort_by_index (filter is_index o) ++ filter (fun p => negb (is_index p)) o.

(** [{ ...a, ...b }]; an absent operand ([undefined]) contributes nothing. *)
Definition spread_into (target : object) (src : option object) : object :=
  match src with
  | Some s => fold_left (fun t p => define t (fst p) (snd p)) (Object_entries s) target
  | None => target
  end.

(** ** Regular expressions

    The patterns of the repository are sequences of character classes, each
    taken once or under a greedy [*] or [+]. [greedy] takes the longest run
    first and gives code units back one at a time while the rest of the
    pattern fails, as the backtracking matcher does. *)

Inductive quant := Once | Star | Plus.

Record atom := Atom { cls : N -> bool; rep : quant; capture : bool }.

Definition regex := list atom.

Fixpoint greedy {R : Type} (c : N -> bool) (k : jsstring -> jsstring -> option R)
         (need : nat) (taken : jsstring) (s : jsstring) {struct s} : option R :=
  let stop := match need with O => k taken s | S _ => None end in
  match s with
  | x :: s' =>
      if c x then
        match greedy c k (pred need) (taken ++ [x]) s' with
        | Some r => Some r
        | None => stop
        end
      else stop
  | [] => stop
  end.

(** Match [re] at the start of [s]: the captured groups and what follows the
    match. *)
Fixpoint match_here (re : regex) (s : jsstring) : option (list jsstring * jsstring) :=
  match re with
  | [] => Some ([], s)
  | a :: re' =>
      let k taken rest :=
        match match_here re' rest with
        | Some (caps, r) => Some (if capture a then taken :: caps else caps, r)
        | None => None
        end in
      match rep a with
      | Once => match s with
                | x :: s' => if cls a x then k [x] s' else None
                | [] => None
                end
      | Star => greedy (cls a) k 0 [] s
      | Plus => greedy (cls a) k 1 [] s
      end
  end.

(** [s.match(/^re/)]: the groups of the match, if any. *)
Definition match_anchored (re : regex) (s : jsstring) : option (list jsstring) :=
  option_map fst (match_here re s).

(** The loop [while ((m = re.exec(s)) !== null)] of a global pattern: the
    matches from left to right, each search starting where the previous match
    ended. [skip] is the distance from the position under examination to
    [re.lastIndex]. *)
Fixpoint exec_all (re : regex) (skip : nat) (s : jsstring) : list (list jsstring) :=
  match s with
  | [] => []
  | _ :: s' =>
      match skip with
      | S k => exec_all re k s'
      | O => match match_here re s with
             | Some (caps, rest) =>
                 caps :: exec_all re (length s - length rest - 1) s'
             | None => exec_all re 0 s'
             end
      end
  end.

Definition one_of (chars : string) (c : N) : bool :=
  existsb (N.eqb c) (lit chars).

End JS.

Import JS.

(** ** Exceptions *)

Definition exn := jsstring.   (* the message of the error thrown *)

Inductive result (A : Type) :=
| Ok (a : A)
| Throw (e : exn).

Arguments Ok {A} a.
Arguments Throw {A} e.

Definition try_catch {A} (body : result A) (handler : exn -> result A) : result A :=
  match body with
  | Ok a => Ok a
  | Throw e => handler e
  end.

Definition bind {A B} (m : result A) (f : A -> result B) : result B :=
  match m with
  | Ok a => f a
  | Throw e => Throw e
  end.

Declare Scope result_scope.
Delimit Scope result_scope with result.
Notation "x <- m ;; k" := (bind m (fun x => k))
  (at level 61, m at next level, right associativity) : result_scope.

(* ================================================================== *)
(** * parsers.ts: the manifest differ *)
(* ================================================================== *)

Module Parsers.

Inductive Ecosystem := npm | pypi.

(** [fromVersion] is declared a string; the differ stores there whatever the
    read [oldDeps[pkg]] produced, hence a [jsval]. *)
Record DependencyChange := {
  package : jsstring;
  fromVersion : jsval;
  toVersion : jsstring;
  ecosystem : Ecosystem
}.

(** What [JSON.parse] returns for a manifest, as far as [parsePackageJson]
    looks at it: [null], or a value with its [dependencies] and
    [devDependencies] members when it has them. The manifest format types
    both as objects from package names to version strings, and so does the
    model. *)
Inductive json :=
| JNull
| JDocument (dependencies devDependencies : option object).

Definition name_char (c : N) : bool :=
  is_lower c || is_upper c || is_digit c || one_of "_-" c.
Definition op_char : N -> bool := one_of "=~<>!".
Definition version_char (c : N) : bool := is_digit c || one_of "." c.
Definition quote_char (c : N) : bool := ((c =? 34) || (c =? 39))%N.

(** [/^([a-zA-Z0-9_-]+)\s*([=~<>!]+)\s*([0-9.]+)/] *)
Definition requirement_re : regex :=
  [ Atom name_char Plus true; Atom is_space Star false;
    Atom op_char Plus true; Atom is_space Star false;
    Atom version_char Plus true ].

(** The global pattern of [parsePyprojectDeps]: a double or single quote,
    then [([a-zA-Z0-9_-]+)\s*([><=~!]+)\s*([0-9.]+)]. *)
Definition pyproject_re : regex :=
  Atom quote_char Once false :: requirement_re.

(** The body of the loop of [parseReqLines] up to the assignment: [match[1]]
    and [match[3]] of a line that is neither skipped nor unmatched. *)
Definition req_line_match (line : jsstring) : option (jsstring * jsstring) :=
  let trimmed := trim line in
  if match trimmed with [] => true | _ => false end
     || startsWith trimmed (lit "#") || startsWith trimmed (lit "-")
  then None
  else match match_anchored requirement_re trimmed with
       | Some [m1; _; m3] => Some (m1, m3)
       | _ => None
       end.

Definition parseReqLines (content : jsstring) : object :=
  fold_left (fun deps line =>
               match req_line_match line with
               | Some (m1, m3) => set deps (toLowerCase m1) m3
               | None => deps
               end)
            (split LF content) [].

Definition parseRequirementsTxt (oldContent newContent : jsstring)
  : list DependencyChange :=
  let oldDeps := parseReqLines oldContent in
  let newDeps := parseReqLines newContent in
  flat_map (fun '(pkg, newVersion) =>
              let oldVersion := get oldDeps pkg in
              if truthy oldVersion && negb (strict_eq oldVersion (VString newVersion))
              then [ {| package := pkg; fromVersion := oldVersion;
                        toVersion := newVersion; ecosystem := pypi |} ]
              else [])
           (Object_entries newDeps).

Definition parsePyprojectDeps (content : jsstring) : object :=
  fold_left (fun deps m =>
               match m with
               | [m1; _; m3] => set deps (toLowerCase m1) m3
               | _ => deps
               end)
            (exec_all pyproject_re 0 content) [].

Definition parsePyprojectToml (oldContent newContent : jsstring)
  : list DependencyChange :=
  let oldDeps := parsePyprojectDeps oldContent in
  let newDeps := parsePyprojectDeps newContent in
  flat_map (fun '(pkg, newVersion) =>
              let oldVersion := get oldDeps pkg in
              if truthy oldVersion && negb (strict_eq oldVersion (VString newVersion))
              then [ {| package := pkg; fromVersion := oldVersion;
                        toVersion := newVersion; ecosystem := pypi |} ]
              else [])
           (Object_entries newDeps).

Definition range_qualifier : N -> bool := one_of "^~".

(** [doc.dependencies] and [doc.devDependencies]; reading a member of [null]
    throws. *)
Definition dependencies_of (doc : json) : result (option object) :=
  match doc with
  | JNull => Throw (lit "Cannot read properties of null")
  | JDocument d _ => Ok d
  end.

Definition devDependencies_of (doc : json) : result (option object) :=
  match doc with
  | JNull => Throw (lit "Cannot read properties of null")
  | JDocument _ dd => Ok dd
  end.

Section WithJSON.

Variable JSON_parse : jsstring -> result json.

Definition parse_or_empty (content : jsstring) : result json :=
  match content with
  | [] => Ok (JDocument None None)
  | _ :: _ => JSON_parse content
  end.

(** The merged maps [{ ...pkg.dependencies, ...pkg.devDependencies }]. *)
Definition merged_deps (d dd : option object) : object :=
  spread_into (spread_into [] d) dd.

(** The loop of [parsePackageJson] over the two merged maps. *)
Definition package_changes (oldDeps newDeps : object) : list DependencyChange :=
  flat_map (fun '(pkg, newVersionRaw) =>
              let oldVersionRaw := get oldDeps pkg in
              if truthy oldVersionRaw
                 && negb (strict_eq oldVersionRaw (VString newVersionRaw))
              then
                let oldVersion := strip_leading range_qualifier (ToString oldVersionRaw) in
                let newVersion := strip_leading range_qualifier newVersionRaw in
                if negb (eqb oldVersion newVersion)
                then [ {| package := pkg; fromVersion := VString oldVersion;
                          toVersion := newVersion; ecosystem := npm |} ]
                else []
              else [])
           (Object_entries newDeps).

Definition parsePackageJson (oldContent newContent : jsstring)
  : result (list DependencyChange) :=
  let changes := [] in
  try_catch
    (oldPkg <- parse_or_empty oldContent ;;
     newPkg <- parse_or_empty newContent ;;
     od <- dependencies_of oldPkg ;;
     odd <- devDependencies_of oldPkg ;;
     nd <- dependencies_of newPkg ;;
     ndd <- devDependencies_of newPkg ;;
     Ok (package_changes (merged_deps od odd) (merged_deps nd ndd)))%result
    (fun _ => Ok changes).

Definition parseDependencyChanges (filename oldContent newContent : jsstring)
  : result (list DependencyChange) :=
  if endsWith filename (lit "requirements.txt") then
    Ok (parseRequirementsTxt oldContent newContent)
  else if endsWith filename (lit "package.json") then
    parsePackageJson oldContent newContent
  else if endsWith filename (lit "pyproject.toml") then
    Ok (parsePyprojectToml oldContent newContent)
  else Ok [].

End WithJSON.

End Parsers.

(* ================================================================== *)
(** * api.ts: the resolver *)
(* ================================================================== *)

Module Api.

Definition CHANGE8_API : jsstring := lit "https://api.change8.dev/api/v1".

Record BreakingChange := {
  change : jsstring;
  fix_ : option jsstring   (* [fix] *)
}.

Record BreakingResult := {
  package : jsstring;
  fromVersion : jsval;
  toVersion : jsstring;
  breakingChanges : list BreakingChange;
  migrationUrl : jsstring
}.

(** An element of a release's [breaking_changes], typed [unknown]: a string,
    an object (with the text [JSON.stringify] gives for it), or a value that
    is neither. *)
Inductive entry :=
| EString (s : jsstring)
| EObject (change description fix_ : option jsstring) (stringified : jsstring)
| EOther.

Record release := {
  tag : jsstring;
  breaking_changes : option (list entry)
}.

(** What [response.json()] resolves to: the body of [/diff] or the array of
    [/releases]. The call sites cast without checking. *)
Inductive payload :=
| DiffData (breaking_changes : option (list BreakingChange))
| ReleaseList (releases : list release).

Record response := {
  ok : bool;
  status : nat;
  json : result payload
}.

(** [a || b] on optional strings. *)
Definition or_else (a : option jsstring) (b : jsstring) : jsstring :=
  match a with
  | Some (c :: s) => c :: s
  | _ => b
  end.

(** The table of [mapPackageToSourceId], an object literal. *)
Definition mappings : object :=
  map (fun p => (lit (fst p), lit (snd p)))
    [ ("langchain", "langchain"); ("langchain-core", "langchain");
      ("langchain-openai", "langchain"); ("langchain-community", "langchain");
      ("next", "next-js"); ("react", "react"); ("pydantic", "pydantic");
      ("fastapi", "fastapi"); ("pytorch", "pytorch"); ("torch", "pytorch");
      ("transformers", "transformers"); ("openai", "openai-python-sdk");
      ("typescript", "typescript"); ("vite", "vite"); ("prisma", "prisma");
      ("tailwindcss", "tailwind-css") ]%string.

Definition buildMigrationUrl (sourceId : jsval) (version : jsstring) : jsstring :=
  let cleanVersion := strip_leading (one_of "v") version in
  lit "https://www.change8.dev/guides/" ++ ToString sourceId
    ++ lit "/migrating-to-" ++ cleanVersion.

(** The version a release tag stands for, and whether it is the target. *)
Definition tagVersion (t : jsstring) : jsstring :=
  if includes t (lit "==") then nth 1 (split (lit "==") t) []
  else strip_leading (one_of "v") t.

Definition is_target (toV : jsstring) (r : release) : bool :=
  eqb (tagVersion (tag r)) toV || eqb (tagVersion (tag r)) (lit "v" ++ toV).

(** The loop over [targetRelease.breaking_changes]. *)
Definition normalize (bcs : list entry) : list BreakingChange :=
  flat_map (fun bc =>
              match bc with
              | EString s => [ {| change := s; fix_ := None |} ]
              | EObject c d f raw =>
                  [ {| change := or_else c (or_else d raw); fix_ := f |} ]
              | EOther => []
              end) bcs.

(** ** The monad of the asynchronous code

    A computation takes the number of requests issued so far and returns a
    value or a thrown error, with the new count. Requests are awaited one at
    a time, so the count orders them. *)

Definition M (A : Type) : Type := nat -> result A * nat.

Definition ret {A} (a : A) : M A := fun n => (Ok a, n).
Definition throw {A} (e : exn) : M A := fun n => (Throw e, n).
Definition lift {A} (r : result A) : M A := fun n => (r, n).

Definition mbind {A B} (m : M A) (f : A -> M B) : M B :=
  fun n => match m n with
           | (Ok a, n') => f a n'
           | (Throw e, n') => (Throw e, n')
           end.

Definition catch {A} (body : M A) (handler : exn -> M A) : M A :=
  fun n => match body n with
           | (Ok a, n') => (Ok a, n')
           | (Throw e, n') => handler e n'
           end.

Declare Scope async_scope.
Delimit Scope async_scope with async.
Notation "x <- m ;; k" := (mbind m (fun x => k))
  (at level 61, m at next level, right associativity) : async_scope.

Section WithHost.

(** The case conversion of the host for strings that are not ASCII: a package
    name taken from the keys of a [package.json] may hold any code unit. *)
Variable unicode : jsstring -> jsstring.

Definition mapPackageToSourceId (packageName : jsstring) : jsval :=
  let found := get mappings (toLowerCase_in unicode packageName) in
  if truthy found then found else VString (toLowerCase_in unicode packageName).

(** [encodeURIComponent] throws on a lone surrogate. *)
Variable encodeURIComponent : jsstring -> result jsstring.

(** [fetch url { headers }] as the [n]-th request of the run: it rejects or
    resolves to a response. *)
Variable fetch : nat -> jsstring -> list (jsstring * jsstring) -> result response.

(** The module-level key, set once before the batch. *)
Variable serviceKey : option jsstring.

Definition getHeaders : list (jsstring * jsstring) :=
  let headers := [ (lit "Content-Type", lit "application/json") ] in
  match serviceKey with
  | Some (c :: k) => headers ++ [ (lit "Authorization", lit "Bearer " ++ c :: k) ]
  | _ => headers
  end.

Definition request (url : jsstring) : M response :=
  fun n => (fetch n url getHeaders, S n).

Definition getBreakingChangesFromRelease (c : Parsers.DependencyChange) (sourceId : jsval)
  : M BreakingResult :=
  (source <- lift (encodeURIComponent (ToString sourceId)) ;;
   let url := CHANGE8_API ++ lit "/releases?source=" ++ source ++ lit "&limit=50" in
   resp <- request url ;;
   if negb (ok resp) then throw (lit "API error: " ++ decimal (status resp))
   else
     body <- lift (json resp) ;;
     match body with
     | DiffData _ => throw (lit "releases.find is not a function")
     | ReleaseList releases =>
         let targetRelease := find (is_target (Parsers.toVersion c)) releases in
         let breakingChanges :=
           match targetRelease with
           | Some r => match breaking_changes r with
                       | Some bcs => normalize bcs
                       | None => []
                       end
           | None => []
           end in
         ret {| package := Parsers.package c;
                fromVersion := Parsers.fromVersion c;
                toVersion := Parsers.toVersion c;
                breakingChanges := breakingChanges;
                migrationUrl := buildMigrationUrl sourceId (Parsers.toVersion c) |}
     end)%async.

Definition getBreakingChangesForPackage (c : Parsers.DependencyChange) : M BreakingResult :=
  let sourceId := mapPackageToSourceId (Parsers.package c) in
  (p <- lift (encodeURIComponent (ToString sourceId)) ;;
   f <- lift (encodeURIComponent (ToString (Parsers.fromVersion c))) ;;
   t <- lift (encodeURIComponent (Parsers.toVersion c)) ;;
   let url := CHANGE8_API ++ lit "/diff?package=" ++ p ++ lit "&from=" ++ f
                ++ lit "&to=" ++ t in
   catch
     (resp <- request url ;;
      if negb (ok resp) then getBreakingChangesFromRelease c sourceId
      else
        data <- lift (json resp) ;;
        let listed := match data with
                      | DiffData (Some bcs) => bcs
                      | _ => []
                      end in
        ret {| package := Parsers.package c;
               fromVersion := Parsers.fromVersion c;
               toVersion := Parsers.toVersion c;
               breakingChanges := listed;
               migrationUrl := buildMigrationUrl sourceId (Parsers.toVersion c) |})
     (fun _ => getBreakingChangesFromRelease c sourceId))%async.

(** One turn of the loop of [getBreakingChanges]; the warning it logs is not
    modelled. *)
Definition resolve_one (results : list BreakingResult) (c : Parsers.DependencyChange)
  : M (list BreakingResult) :=
  catch
    (r <- getBreakingChangesForPackage c ;;
     ret (results ++ [r]))%async
    (fun _ =>
       ret (results ++
              [ {| package := Parsers.package c;
                   fromVersion := Parsers.fromVersion c;
                   toVersion := Parsers.toVersion c;
                   breakingChanges := [];
                   migrationUrl :=
                     buildMigrationUrl (VString (Parsers.package c))
                                       (Parsers.toVersion c) |} ])).

Fixpoint for_each (changes : list Parsers.DependencyChange) (results : list BreakingResult)
  : M (list BreakingResult) :=
  match changes with
  | [] => ret results
  | c :: rest => (results' <- resolve_one results c ;; for_each rest results')%async
  end.

Definition getBreakingChanges (changes : list Parsers.DependencyChange)
  : M (list BreakingResult) :=
  for_each changes [].

End WithHost.

End Api.

(* ================================================================== *)
(** * index.ts: the orchestrator and the comment formatter *)
(* ================================================================== *)

Module Index.

Import Api.

(** The predicate of [files.filter(...)] in [run]. *)
Definition is_dependency_file (filename : jsstring) : bool :=
  eqb filename (lit "requirements.txt")
  || eqb filename (lit "package.json")
  || eqb filename (lit "pyproject.toml")
  || endsWith filename (lit "/requirements.txt")
  || endsWith filename (lit "/package.json").

Definition depFiles (files : list jsstring) : list jsstring :=
  filter is_dependency_file files.

Inductive revision := baseSha | headSha.

Section WithRepository.

Variable JSON_parse : jsstring -> result Parsers.json.

(** [octokit.rest.repos.getContent] for a path at a revision: it throws, or
    gives an entry with or without a (decoded) [content]. *)
Variable getContent : jsstring -> revision -> result (option jsstring).

Definition content_at (path : jsstring) (ref : revision) : jsstring :=
  match getContent path ref with
  | Ok (Some text) => text
  | _ => []
  end.

(** The part of [run] that collects [allChanges] from the changed files. *)
Definition allChanges (files : list jsstring) : list Parsers.DependencyChange :=
  flat_map (fun filename =>
              let oldContent := content_at filename baseSha in
              let newContent := content_at filename headSha in
              match Parsers.parseDependencyChanges JSON_parse filename
                      oldContent newContent with
              | Ok changes => changes
              | Throw _ => []
              end)
           (depFiles files).

End WithRepository.

Definition marker : jsstring := lit "<!-- change8-action -->".

Definition arrow : jsstring := [8594%N].                 (* U+2192 *)
Definition cycle_sign : jsstring := [55357%N; 56580%N].  (* U+1F504 *)
Definition warning_sign : jsstring := [9888%N; 65039%N]. (* U+26A0 U+FE0F *)
Definition book_sign : jsstring := [55357%N; 56534%N].   (* U+1F4D6 *)

Definition header : jsstring :=
  marker ++ LF ++ lit "## " ++ cycle_sign ++ lit " Change8 Dependency Analysis"
    ++ LF ++ LF.

Definition footer : jsstring :=
  LF ++ lit "<sub>Powered by [Change8](https://change8.dev) - AI-powered changelog analysis</sub>".

(** [s.substring(0, n) + (s.length > n ? '...' : '')] *)
Definition truncated (n : nat) (s : jsstring) : jsstring :=
  substring0 n s ++ (if n <? length s then lit "..." else []).

Definition heading (r : BreakingResult) : jsstring :=
  lit "### " ++ package r ++ lit ": " ++ ToString (fromVersion r) ++ lit " "
    ++ arrow ++ lit " " ++ toVersion r ++ LF ++ LF.

Definition count_line (r : BreakingResult) : jsstring :=
  warning_sign ++ lit " **" ++ decimal (length (breakingChanges r))
    ++ lit " breaking change(s) detected**" ++ LF ++ LF.

Definition table_head : jsstring :=
  lit "| Issue | Fix |" ++ LF ++ lit "|-------|-----|" ++ LF.

Definition table_row (bc : BreakingChange) : jsstring :=
  let change := truncated 80 (change bc) in
  let fix' := match fix_ bc with
              | Some (c :: f) => truncated 60 (c :: f)
              | _ => lit "-"
              end in
  lit "| " ++ change ++ lit " | " ++ fix' ++ lit " |" ++ LF.

Definition guide_link (r : BreakingResult) : jsstring :=
  book_sign ++ lit " **[Full Migration Guide " ++ arrow ++ lit "](" ++ migrationUrl r
    ++ lit ")**" ++ LF ++ LF ++ lit "---" ++ LF ++ LF.

(** One turn of the loop of [generateComment]: what it appends to [comment]. *)
Definition append_result (comment : jsstring) (r : BreakingResult) : jsstring :=
  let comment := comment ++ heading r in
  let comment := comment ++ count_line r in
  let comment :=
    if length (breakingChanges r) <=? 3 then
      let comment := comment ++ table_head in
      let comment := fold_left (fun acc bc => acc ++ table_row bc)
                               (breakingChanges r) comment in
      comment ++ LF
    else comment in
  comment ++ guide_link r.

(** [None] is the source's [null]. *)
Definition generateComment (results : list BreakingResult) : option jsstring :=
  let withBreaking := filter (fun r => 0 <? length (breakingChanges r)) results in
  if length withBreaking =? 0 then None
  else
    let comment := header in
    let comment := fold_left append_result withBreaking comment in
    Some (comment ++ footer).

End Index.

(* ================================================================== *)
(** * index.ts: the entry point [run] *)
(* ================================================================== *)

Module Run.

Import Api Index.

(** What [run] does to the outside: the calls of [core.info], [core.warning]
    and [core.setFailed], and the two calls that write a comment, recorded
    when they are issued (the host then says whether they succeeded). The
    text of a warning is [prefix] followed by the rendering of the error. *)
Inductive action :=
| Info (message : jsstring)
| Warning (prefix : jsstring) (error : exn)
| SetFailed (message : jsstring)
| UpdateComment (comment_id : nat) (body : jsstring)
| CreateComment (issue_number : nat) (body : jsstring).

(** A comment of [issues.listComments]; [body] may be absent. *)
Record comment := {
  id : nat;
  body : option jsstring
}.

(** [context.payload.pull_request], as far as [run] reads it. *)
Record pull_request := {
  number : nat;
  base_sha : jsstring;
  head_sha : jsstring
}.

(** The collaborators of [run]: the inputs, the event, the hosting API and
    what the differ and the resolver need. *)
Record Host := {
  (* core.getInput('github-token', { required: true }); throws when missing *)
  input_github_token : result jsstring;
  (* core.getInput('fail-on-breaking') *)
  input_fail_on_breaking : jsstring;
  payload_pull_request : option pull_request;
  (* context.repo, a getter that throws without a repository *)
  context_repo : result (jsstring * jsstring);
  (* pulls.listFiles({ owner, repo, pull_number }): the file names *)
  pulls_listFiles : jsstring -> jsstring -> nat -> result (list jsstring);
  (* repos.getContent({ owner, repo, path, ref }): decoded content, if any *)
  repos_getContent : jsstring -> jsstring -> jsstring -> jsstring
                     -> result (option jsstring);
  (* issues.listComments({ owner, repo, issue_number }) *)
  issues_listComments : jsstring -> jsstring -> nat -> result (list comment);
  (* issues.updateComment({ owner, repo, comment_id, body }) *)
  issues_updateComment : jsstring -> jsstring -> nat -> jsstring -> result unit;
  (* issues.createComment({ owner, repo, issue_number, body }) *)
  issues_createComment : jsstring -> jsstring -> nat -> jsstring -> result unit;
  JSON_parse : jsstring -> result Parsers.json;
  (* toLowerCase on a string that is not ASCII *)
  unicode : jsstring -> jsstring;
  encodeURIComponent : jsstring -> result jsstring;
  fetch : nat -> jsstring -> list (jsstring * jsstring) -> result response
}.

(** A computation of [run]: the actions it performed, then its value or the
    error it threw. *)
Definition W (A : Type) : Type := list action * result A.

Definition wret {A} (a : A) : W A := ([], Ok a).
Definition tell (a : action) : W unit := ([a], Ok tt).
Definition wlift {A} (r : result A) : W A := ([], r).

Definition wbind {A B} (m : W A) (f : A -> W B) : W B :=
  match m with
  | (done, Ok a) => let (more, r) := f a in (done ++ more, r)
  | (done, Throw e) => (done, Throw e)
  end.

Definition wcatch {A} (m : W A) (handler : exn -> W A) : W A :=
  match m with
  | (done, Ok a) => (done, Ok a)
  | (done, Throw e) => let (more, r) := handler e in (done ++ more, r)
  end.

Declare Scope run_scope.
Delimit Scope run_scope with run.
Notation "x <- m ;; k" := (wbind m (fun x => k))
  (at level 61, m at next level, right associativity) : run_scope.
Notation "m ;; k" := (wbind m (fun _ => k))
  (at level 61, right associativity) : run_scope.

Section WithHost.

Variable h : Host.

(** [getContent] of a path at the base or head revision of the pull request. *)
Definition getContent (owner repo : jsstring) (pr : pull_request)
           (path : jsstring) (ref : revision) : result (option jsstring) :=
  repos_getContent h owner repo path
    (match ref with baseSha => base_sha pr | headSha => head_sha pr end).

(** One turn of the loop over [depFiles]. *)
Definition collect_file (owner repo : jsstring) (pr : pull_request)
           (allChanges : list Parsers.DependencyChange) (filename : jsstring)
  : W (list Parsers.DependencyChange) :=
  wcatch
    (let oldContent := content_at (getContent owner repo pr) filename baseSha in
     let newContent := content_at (getContent owner repo pr) filename headSha in
     changes <- wlift (Parsers.parseDependencyChanges (JSON_parse h) filename
                         oldContent newContent) ;;
     wret (allChanges ++ changes))%run
    (fun error =>
       (tell (Warning (lit "Failed to parse " ++ filename ++ lit ": ") error) ;;
        wret allChanges)%run).

Fixpoint collect (owner repo : jsstring) (pr : pull_request)
         (files : list jsstring) (allChanges : list Parsers.DependencyChange)
  : W (list Parsers.DependencyChange) :=
  match files with
  | [] => wret allChanges
  | filename :: rest =>
      (allChanges' <- collect_file owner repo pr allChanges filename ;;
       collect owner repo pr rest allChanges')%run
  end.

(** The predicate of [comments.find(...)]. *)
Definition is_marked (c : comment) : bool :=
  match body c with
  | Some text => includes text marker
  | None => false
  end.

(** The block guarded by [if (comment)]. *)
Definition upsert (owner repo : jsstring) (pr : pull_request)
           (failOnBreaking : bool) (breakingResults : list BreakingResult)
           (comment : jsstring) : W unit :=
  (comments <- wlift (issues_listComments h owner repo (number pr)) ;;
   let existingComment := find is_marked comments in
   match existingComment with
   | Some existing =>
       tell (UpdateComment (id existing) comment) ;;
       wlift (issues_updateComment h owner repo (id existing) comment) ;;
       tell (Info (lit "Updated existing comment"))
   | None =>
       tell (CreateComment (number pr) comment) ;;
       wlift (issues_createComment h owner repo (number pr) comment) ;;
       tell (Info (lit "Posted new comment"))
   end ;;
   let hasBreaking :=
     existsb (fun r => 0 <? length (breakingChanges r)) breakingResults in
   if failOnBreaking && hasBreaking
   then tell (SetFailed (lit "Breaking changes detected in dependencies"))
   else wret tt)%run.

(** The body of the [try] of [run]. [github.getOctokit(token)] only builds
    the client from a token that [getInput] has required to be present. The
    service key is never set by [index.ts], so the resolver runs without
    one; its request count starts at 0. *)
Definition run_body : W unit :=
  (token <- wlift (input_github_token h) ;;
   let failOnBreaking := eqb (input_fail_on_breaking h) (lit "true") in
   match payload_pull_request h with
   | None => tell (Info (lit "Not a pull request, skipping"))
   | Some pr =>
       let prNumber := number pr in
       repository <- wlift (context_repo h) ;;
       let owner := fst repository in
       let repo := snd repository in
       tell (Info (lit "Analyzing PR #" ++ decimal prNumber
                     ++ lit " for dependency changes...")) ;;
       files <- wlift (pulls_listFiles h owner repo prNumber) ;;
       let depFiles := depFiles files in
       if length depFiles =? 0 then tell (Info (lit "No dependency files changed"))
       else
         tell (Info (lit "Found " ++ decimal (length depFiles)
                       ++ lit " dependency file(s) changed")) ;;
         allChanges <- collect owner repo pr depFiles [] ;;
         if length allChanges =? 0
         then tell (Info (lit "No dependency version changes detected"))
         else
           tell (Info (lit "Found " ++ decimal (length allChanges)
                         ++ lit " dependency change(s), checking for breaking changes...")) ;;
           breakingResults <-
             wlift (fst (getBreakingChanges (unicode h) (encodeURIComponent h)
                           (fetch h) None allChanges 0)) ;;
           let comment := generateComment breakingResults in
           match comment with
           | Some (c :: text) =>
               upsert owner repo pr failOnBreaking breakingResults (c :: text)
           | _ => wret tt
           end
   end)%run.

(** [run]: every error that reaches the top is turned into a failure of the
    run with the error's message. The result is what the run did. *)
Definition run : list action :=
  fst (wcatch run_body (fun error => tell (SetFailed error))).

End WithHost.

End Run.

(* ================================================================== *)
(** * Vocabulary of the statements, and the inputs of the examples *)
(* ================================================================== *)

Module DifferSpec.

Import Parsers.

(** The assignment [deps[name] = version] of the two line parsers. *)
Definition assign (deps : object) (e : jsstring * jsstring) : object :=
  set deps (fst e) (snd e).

(** The [(name.toLowerCase(), version)] pairs the loop of [parseReqLines]
    assigns, in line order. *)
Definition req_entries (content : jsstring) : list (jsstring * jsstring) :=
  flat_map (fun line =>
              match req_line_match line with
              | Some (m1, m3) => [(toLowerCase m1, m3)]
              | None => []
              end)
           (split LF content).

(** The pairs the loop of [parsePyprojectDeps] assigns, in match order. *)
Definition pyproject_entries (content : jsstring) : list (jsstring * jsstring) :=
  flat_map (fun m =>
              match m with
              | [m1; _; m3] => [(toLowerCase m1, m3)]
              | _ => []
              end)
           (exec_all pyproject_re 0 content).

(** What the loops of [parseRequirementsTxt] and [parsePyprojectToml] emit. *)
Definition reported (oldDeps newDeps : object) (c : DependencyChange) : Prop :=
  In (package c, toVersion c) newDeps
  /\ fromVersion c = get oldDeps (package c)
  /\ truthy (fromVersion c) = true
  /\ strict_eq (fromVersion c) (VString (toVersion c)) = false
  /\ ecosystem c = pypi.

(** What the loop of [parsePackageJson] emits. *)
Definition reported_npm (oldDeps newDeps : object) (c : DependencyChange) : Prop :=
  exists newVersionRaw,
    let oldVersionRaw := get oldDeps (package c) in
    In (package c, newVersionRaw) newDeps
    /\ truthy oldVersionRaw = true
    /\ strict_eq oldVersionRaw (VString newVersionRaw) = false
    /\ fromVersion c = VString (strip_leading range_qualifier (ToString oldVersionRaw))
    /\ toVersion c = strip_leading range_qualifier newVersionRaw
    /\ fromVersion c <> VString (toVersion c)
    /\ ecosystem c = npm.

(** A [JSON.parse] that knows the documents of a table and rejects every
    other text; the examples fix the host's parser this way. *)
Definition parse_table (tab : list (jsstring * json)) (text : jsstring) : result json :=
  match find (fun p => eqb (fst p) text) tab with
  | Some (_, doc) => Ok doc
  | None => Throw (lit "Unexpected token")
  end.

(** Two manifests whose dependency is spelt with a capital. *)
Definition react_old : jsstring := quoted "{'dependencies':{'React':'^17.0.0'}}".
Definition react_new : jsstring := quoted "{'dependencies':{'React':'^18.0.0'}}".

Definition react_parse : jsstring -> result json :=
  parse_table
    [ (react_old, JDocument (Some [(lit "React", lit "^17.0.0")]) None);
      (react_new, JDocument (Some [(lit "React", lit "^18.0.0")]) None) ].

(** The documents of the specification's examples. *)
Definition caret_123 : jsstring := quoted "{'dependencies':{'left-pad':'^1.2.3'}}".
Definition plain_123 : jsstring := quoted "{'dependencies':{'left-pad':'1.2.3'}}".
Definition caret_200 : jsstring := quoted "{'dependencies':{'left-pad':'^2.0.0'}}".
Definition empty_ver : jsstring := quoted "{'dependencies':{'left-pad':''}}".

Definition pad_doc (version : string) : json :=
  JDocument (Some [(lit "left-pad", lit version)]) None.

Definition pad_parse : jsstring -> result json :=
  parse_table [ (caret_123, pad_doc "^1.2.3"); (plain_123, pad_doc "1.2.3");
                (caret_200, pad_doc "^2.0.0"); (empty_ver, pad_doc "") ].

End DifferSpec.

Module ResolverSpec.

Import Api.

(** The result carries the fields of the change it answers. *)
Definition copied (c : Parsers.DependencyChange) (r : BreakingResult) : Prop :=
  package r = Parsers.package c
  /\ fromVersion r = Parsers.fromVersion c
  /\ toVersion r = Parsers.toVersion c.

(** The two addresses the resolver requests. *)
Definition diff_url (package from to : jsstring) : jsstring :=
  CHANGE8_API ++ lit "/diff?package=" ++ package ++ lit "&from=" ++ from
    ++ lit "&to=" ++ to.

Definition releases_url (source : jsstring) : jsstring :=
  CHANGE8_API ++ lit "/releases?source=" ++ source ++ lit "&limit=50".

(** The diff request did not give a readable answer: it rejected, or its
    status was an error, or its body could not be read. *)
Definition diff_failed (answer : result response) : Prop :=
  match answer with
  | Throw _ => True
  | Ok resp => ok resp = false \/ exists e, json resp = Throw e
  end.

(** The request was answered, with an error status. *)
Definition refused (answer : result response) : Prop :=
  exists resp, answer = Ok resp /\ ok resp = false.

(** The request for the release listing did not give a listing: it rejected,
    or its status was an error, or its body could not be read as an array of
    releases. *)
Definition listing_failed (answer : result response) : Prop :=
  match answer with
  | Throw _ => True
  | Ok resp => ok resp = false \/ forall releases, json resp <> Ok (ReleaseList releases)
  end.

Section WithHost.

Variable unicode : jsstring -> jsstring.
Variable encodeURIComponent : jsstring -> result jsstring.
Variable fetch : nat -> jsstring -> list (jsstring * jsstring) -> result response.
Variable serviceKey : option jsstring.

(** The diff lookup of [c], issued as request [n], failed, and so did the
    request for the release listing that followed it, request [n + 1]. *)
Definition both_failed (c : Parsers.DependencyChange) (n : nat) : Prop :=
  exists p f t,
    encodeURIComponent (ToString (mapPackageToSourceId unicode (Parsers.package c))) = Ok p
    /\ encodeURIComponent (ToString (Parsers.fromVersion c)) = Ok f
    /\ encodeURIComponent (Parsers.toVersion c) = Ok t
    /\ diff_failed (fetch n (diff_url p f t) (getHeaders serviceKey))
    /\ listing_failed (fetch (S n) (releases_url p) (getHeaders serviceKey)).

(** Every lookup made for [c] failed: both of the above and, when the diff
    request had been answered with an error status, the second request for
    the release listing, request [n + 2]. *)
Definition lookups_failed (c : Parsers.DependencyChange) (n : nat) : Prop :=
  exists p f t,
    encodeURIComponent (ToString (mapPackageToSourceId unicode (Parsers.package c))) = Ok p
    /\ encodeURIComponent (ToString (Parsers.fromVersion c)) = Ok f
    /\ encodeURIComponent (Parsers.toVersion c) = Ok t
    /\ diff_failed (fetch n (diff_url p f t) (getHeaders serviceKey))
    /\ listing_failed (fetch (S n) (releases_url p) (getHeaders serviceKey))
    /\ (refused (fetch n (diff_url p f t) (getHeaders serviceKey)) ->
        listing_failed (fetch (S (S n)) (releases_url p) (getHeaders serviceKey))).

End WithHost.

(** The examples name their packages in ASCII, so the Unicode table of the
    host is never consulted; this one leaves every string as it is. *)
Definition no_table (s : jsstring) : jsstring := s.

(** A host without network: every request rejects. *)
Definition offline (n : nat) (url : jsstring) (headers : list (jsstring * jsstring))
  : result response :=
  Throw (lit "fetch failed").

(** A host whose every request is answered with status 503. *)
Definition refusing (n : nat) (url : jsstring) (headers : list (jsstring * jsstring))
  : result response :=
  Ok {| ok := false; status := 503; json := Throw (lit "Unexpected end of JSON input") |}.

(** An [encodeURIComponent] for strings that need no escaping. *)
Definition unescaped (s : jsstring) : result jsstring := Ok s.

(** Two changes of the examples. *)
Definition next_13_14 : Parsers.DependencyChange :=
  {| Parsers.package := lit "next"; Parsers.fromVersion := VString (lit "13.0.0");
     Parsers.toVersion := lit "v14.0.0"; Parsers.ecosystem := Parsers.npm |}.

Definition torch_1_2 : Parsers.DependencyChange :=
  {| Parsers.package := lit "torch"; Parsers.fromVersion := VString (lit "1.13.0");
     Parsers.toVersion := lit "2.0.0"; Parsers.ecosystem := Parsers.pypi |}.

(** The change of [next] with a target version written without [v]. *)
Definition next_to_14 : Parsers.DependencyChange :=
  {| Parsers.package := lit "next"; Parsers.fromVersion := VString (lit "13.5.0");
     Parsers.toVersion := lit "14.0.0"; Parsers.ecosystem := Parsers.npm |}.

(** A listing of releases in which [v14.0.0] has one breaking change given as
    a string. *)
Definition next_releases : list release :=
  [ {| tag := lit "v13.5.0"; breaking_changes := None |};
    {| tag := lit "v14.0.0";
       breaking_changes := Some [ EString (lit "Node 16 is no longer supported"); EOther ] |} ].

(** A catalog that recovers: its first request is answered with status 503,
    its second is rejected, and every later one is answered with
    [next_releases]. *)
Definition recovering (n : nat) (url : jsstring) (headers : list (jsstring * jsstring))
  : result response :=
  match n with
  | 0 => Ok {| ok := false; status := 503;
               json := Throw (lit "Unexpected end of JSON input") |}
  | 1 => Throw (lit "fetch failed")
  | _ => Ok {| ok := true; status := 200; json := Ok (ReleaseList next_releases) |}
  end.

(** A catalog reached too late: its first two requests are rejected, and
    every later one is answered with [next_releases]. *)
Definition late (n : nat) (url : jsstring) (headers : list (jsstring * jsstring))
  : result response :=
  match n with
  | 0 | 1 => Throw (lit "fetch failed")
  | _ => Ok {| ok := true; status := 200; json := Ok (ReleaseList next_releases) |}
  end.

End ResolverSpec.

Module FormatterSpec.

Import Api Index.

(** The number of positions of [s] at which [p] occurs. *)
Fixpoint occurrences (p s : jsstring) : nat :=
  (if startsWith s p then 1 else 0)
  + match s with
    | [] => 0
    | _ :: s' => occurrences p s'
    end.

(** [b] begins with no proper end of [p]: an occurrence of [p] cannot begin
    before [b] and end inside it. *)
Definition seals (p b : jsstring) : Prop :=
  forall k, 0 < k < length p -> startsWith b (skipn k p) = false.

(** No code unit of [s] is [<]. *)
Definition lt_free (s : jsstring) : bool := forallb (fun c => negb (c =? 60)%N) s.

(** The predicate of [results.filter(...)] in [generateComment]. *)
Definition has_breaking (r : BreakingResult) : bool := 0 <? length (breakingChanges r).

(** The texts of [r] that reach the comment, in the order in which they are
    written: the package and the two versions, for a result with at most
    three breaking changes the first 80 code units of each change text and
    the first 60 of each fix text, and the migration URL. *)
Definition written_texts (r : BreakingResult) : list jsstring :=
  [package r; ToString (fromVersion r); toVersion r]
    ++ (if length (breakingChanges r) <=? 3
        then flat_map (fun bc =>
                         [ firstn 80 (change bc);
                           firstn 60 (match fix_ bc with Some f => f | None => [] end) ])
                      (breakingChanges r)
        else [])
    ++ [migrationUrl r].

(** The marker occurs in none of them. *)
Definition marker_free (r : BreakingResult) : Prop :=
  Forall (fun text => includes text marker = false) (written_texts r).

(** ** The section of a result, as specified

    The specification asks for a header with the package name and the
    version transition, a count of breaking changes, a two-column table of
    changes cut to 80 characters and fixes cut to 60 (or a dash), and a
    migration-guide link; the example output of the README shows their
    texts. They are written out here, independently of the formatter. *)

(** A text cut to [n] characters, with an ellipsis when something was cut. *)
Definition cut (n : nat) (s : jsstring) : jsstring :=
  firstn n s ++ (if n <? length s then lit "..." else []).

Definition title_of (r : BreakingResult) : jsstring :=
  lit "### " ++ package r ++ lit ": " ++ ToString (fromVersion r)
    ++ lit " " ++ [8594%N] ++ lit " " ++ toVersion r ++ LF ++ LF.

(** What the count line shows, and the whole line. *)
Definition count_text (r : BreakingResult) : jsstring :=
  decimal (length (breakingChanges r)) ++ lit " breaking change(s) detected".

Definition count_of (r : BreakingResult) : jsstring :=
  [9888%N; 65039%N] ++ lit " **" ++ count_text r ++ lit "**" ++ LF ++ LF.

Definition row_of (bc : BreakingChange) : jsstring :=
  lit "| " ++ cut 80 (change bc) ++ lit " | "
    ++ match fix_ bc with
       | Some (c :: f) => cut 60 (c :: f)
       | _ => lit "-"
       end
    ++ lit " |" ++ LF.

Definition table_of (bcs : list BreakingChange) : jsstring :=
  lit "| Issue | Fix |" ++ LF ++ lit "|-------|-----|" ++ LF
    ++ concat (map row_of bcs) ++ LF.

(** The link to the migration guide, and the whole line with its rule. *)
Definition link_text (r : BreakingResult) : jsstring :=
  lit "[Full Migration Guide " ++ [8594%N] ++ lit "](" ++ migrationUrl r ++ lit ")".

Definition link_of (r : BreakingResult) : jsstring :=
  [55357%N; 56534%N] ++ lit " **" ++ link_text r ++ lit "**" ++ LF ++ LF
    ++ lit "---" ++ LF ++ LF.

(** The section of one result: with the table between the count line and the
    link when it has at most three breaking changes, with nothing between
    them when it has more. *)
Inductive rendered (r : BreakingResult) : jsstring -> Prop :=
| rendered_with_table :
    length (breakingChanges r) <= 3 ->
    rendered r (title_of r ++ count_of r ++ table_of (breakingChanges r)
                  ++ link_of r)
| rendered_without_table :
    3 < length (breakingChanges r) ->
    rendered r (title_of r ++ count_of r ++ link_of r).

(** What one turn of the loop appends. *)
Definition section_of (r : BreakingResult) : jsstring := append_result [] r.

(** The result of the specification's end-to-end example. *)
Definition langchain_result : BreakingResult :=
  {| package := lit "langchain"; fromVersion := VString (lit "0.2.0");
     toVersion := lit "1.0.0";
     breakingChanges :=
       [ {| change := lit "ChatOpenAI moved"; fix_ := Some (lit "Update import") |} ];
     migrationUrl := lit "https://www.change8.dev/guides/langchain/migrating-to-1.0.0" |}.

(** A result without breaking changes. *)
Definition quiet_result : BreakingResult :=
  {| package := lit "vite"; fromVersion := VString (lit "4.0.0");
     toVersion := lit "5.0.0"; breakingChanges := [];
     migrationUrl := lit "https://www.change8.dev/guides/vite/migrating-to-5.0.0" |}.

(** A result whose only breaking change has the marker as its text. *)
Definition echo_result : BreakingResult :=
  {| package := lit "echo"; fromVersion := VString (lit "1.0.0");
     toVersion := lit "2.0.0";
     breakingChanges := [ {| change := marker; fix_ := None |} ];
     migrationUrl := lit "https://www.change8.dev/guides/echo/migrating-to-2.0.0" |}.

(** A result whose breaking change is about a generic type. *)
Definition generics_result : BreakingResult :=
  {| package := lit "typescript"; fromVersion := VString (lit "4.9.5");
     toVersion := lit "5.0.0";
     breakingChanges :=
       [ {| change := lit "Array<T> is now readonly T[]";
            fix_ := Some (lit "Use Array<T> in mutable positions") |} ];
     migrationUrl := lit "https://www.change8.dev/guides/typescript/migrating-to-5.0.0" |}.

(** A result with four breaking changes. *)
Definition four_changes : BreakingResult :=
  {| package := lit "react"; fromVersion := VString (lit "17.0.0");
     toVersion := lit "18.0.0";
     breakingChanges :=
       map (fun s => {| change := lit s; fix_ := None |})
           ["a"; "b"; "c"; "d"]%string;
     migrationUrl := lit "https://www.change8.dev/guides/react/migrating-to-18.0.0" |}.

(** A repository whose [backend/pyproject.toml] moves [fastapi] from 0.99.0 to
    0.100.0. *)
Definition backend_repository (path : jsstring) (ref : revision)
  : result (option jsstring) :=
  if eqb path (lit "backend/pyproject.toml") then
    match ref with
    | baseSha => Ok (Some (quoted "dependencies = ['fastapi>=0.99.0']"))
    | headSha => Ok (Some (quoted "dependencies = ['fastapi>=0.100.0']"))
    end
  else Throw (lit "Not Found").

End FormatterSpec.

Module ExtraSpec.

Import Api Index Run ResolverSpec.

(** Nothing of the class [c] begins [rest]. *)
Definition stops (c : N -> bool) (rest : jsstring) : Prop :=
  match rest with
  | [] => True
  | x :: _ => c x = false
  end.

(** No code unit of [s] is a line feed. *)
Definition one_line (s : jsstring) : bool := forallb (fun c => negb (c =? 10)%N) s.

(** The breaking changes of the first release of a listing whose tag is the
    target version. *)
Definition listed (toVersion : jsstring) (releases : list release)
  : list BreakingChange :=
  match find (is_target toVersion) releases with
  | Some r => match breaking_changes r with
              | Some bcs => normalize bcs
              | None => []
              end
  | None => []
  end.

(** The result built from a change, a list of breaking changes and an
    identifier. *)
Definition result_of (c : Parsers.DependencyChange) (bcs : list BreakingChange)
           (sourceId : jsval) : BreakingResult :=
  {| package := Parsers.package c;
     fromVersion := Parsers.fromVersion c;
     toVersion := Parsers.toVersion c;
     breakingChanges := bcs;
     migrationUrl := buildMigrationUrl sourceId (Parsers.toVersion c) |}.

(** The migration URL of a result is built from the target version and from
    the canonical identifier, or, when nothing was found, possibly from the
    package name as it stands. *)
Definition url_built (unicode : jsstring -> jsstring)
           (c : Parsers.DependencyChange) (r : BreakingResult) : Prop :=
  migrationUrl r
  = buildMigrationUrl (mapPackageToSourceId unicode (Parsers.package c))
                      (Parsers.toVersion c)
  \/ (breakingChanges r = []
      /\ migrationUrl r
         = buildMigrationUrl (VString (Parsers.package c)) (Parsers.toVersion c)).

(** A catalog that knows the diff of [torch] 1.13.0 to 2.0.0 and nothing
    else. *)
Definition torch_diff : list BreakingChange :=
  [ {| change := lit "torch.symeig removed"; fix_ := Some (lit "Use torch.linalg.eigh") |} ].

Definition torch_catalog (n : nat) (url : jsstring)
           (headers : list (jsstring * jsstring)) : result response :=
  if eqb url (diff_url (lit "pytorch") (lit "1.13.0") (lit "2.0.0"))
  then Ok {| ok := true; status := 200; json := Ok (DiffData (Some torch_diff)) |}
  else Ok {| ok := false; status := 404; json := Throw (lit "Unexpected token") |}.

(** A catalog without diff endpoint, whose listing for [next-js] is
    [next_releases]. *)
Definition listing_catalog (n : nat) (url : jsstring)
           (headers : list (jsstring * jsstring)) : result response :=
  if eqb url (releases_url (lit "next-js"))
  then Ok {| ok := true; status := 200; json := Ok (ReleaseList next_releases) |}
  else Throw (lit "fetch failed").

(** The calls that write a comment, and the body they carry. *)
Definition written (a : action) : option jsstring :=
  match a with
  | UpdateComment _ text | CreateComment _ text => Some text
  | _ => None
  end.

Definition is_write (a : action) : bool :=
  match written a with Some _ => true | None => false end.

Definition is_warning (a : action) : bool :=
  match a with Warning _ _ => true | _ => false end.

Definition is_failure (a : action) : bool :=
  match a with SetFailed _ => true | _ => false end.

(** The first code unit of an information message. *)
Definition first_unit (a : action) : N :=
  match a with Info (c :: _) => c | _ => 0%N end.

(** The pipeline of a run on a pull request: the changes of the recognised
    files, resolved from request count 0 without a service key. *)
Definition pipeline (h : Host) (owner repo : jsstring) (pr : pull_request)
  : result (list BreakingResult) :=
  match pulls_listFiles h owner repo (number pr) with
  | Ok files =>
      fst (getBreakingChanges (unicode h) (encodeURIComponent h) (fetch h) None
             (allChanges (JSON_parse h) (getContent h owner repo pr) files) 0)
  | Throw e => Throw e
  end.

(** The pull request of the examples: [requirements.txt] moves [torch] from
    1.13.0 to 2.0.0, and the catalog knows the diff. *)
Definition example_pr : pull_request :=
  {| number := 7; base_sha := lit "base"; head_sha := lit "head" |}.

Definition example_content (owner repo path ref : jsstring)
  : result (option jsstring) :=
  if eqb path (lit "requirements.txt") then
    Ok (Some (if eqb ref (lit "base") then lit "torch==1.13.0" else lit "torch==2.0.0"))
  else Throw (lit "Not Found").

(** The comment that a run on [example_pr] writes. *)
Definition example_comment : jsstring :=
  match generateComment [ result_of torch_1_2 torch_diff (VString (lit "pytorch")) ] with
  | Some text => text
  | None => []
  end.

(** A host for [example_pr] with the given input and earlier comments. *)
Definition example_host (fail_on_breaking : jsstring) (comments : list comment)
  : Host :=
  {| input_github_token := Ok (lit "token");
     input_fail_on_breaking := fail_on_breaking;
     payload_pull_request := Some example_pr;
     context_repo := Ok (lit "acme", lit "shop");
     pulls_listFiles := fun _ _ _ => Ok [lit "README.md"; lit "requirements.txt"];
     repos_getContent := example_content;
     issues_listComments := fun _ _ _ => Ok comments;
     issues_updateComment := fun _ _ _ _ => Ok tt;
     issues_createComment := fun _ _ _ _ => Ok tt;
     JSON_parse := DifferSpec.parse_table [];
     unicode := no_table;
     encodeURIComponent := unescaped;
     fetch := torch_catalog |}.

(** Comments of a pull request on which an earlier run has written. *)
Definition earlier_comments : list comment :=
  [ {| id := 41; body := Some (lit "LGTM") |};
    {| id := 42; body := Some example_comment |} ].

End ExtraSpec.

(* ================================================================== *)
(** * Facts about the host language *)
(* ================================================================== *)

Module JSFacts.

Lemma eqb_eq a b : eqb a b = true <-> a = b.
Proof. unfold eqb. destruct (str_eq_dec a b); split; congruence. Qed.

Lemma eqb_neq a b : eqb a b = false <-> a <> b.
Proof. unfold eqb. destruct (str_eq_dec a b); split; congruence. Qed.

Lemma eqb_refl a : eqb a a = true.
Proof. now apply eqb_eq. Qed.

Lemma eqb_sym a b : eqb a b = eqb b a.
Proof.
  destruct (eqb a b) eqn:E.
  - apply eqb_eq in E. subst. symmetry. apply eqb_refl.
  - apply eqb_neq in E. symmetry. apply eqb_neq. congruence.
Qed.

(** *** Prefixes and suffixes *)

Lemma startsWith_iff s p : startsWith s p = true <-> exists t, s = p ++ t.
Proof.
  revert s. induction p as [|c p IH]; intros s; simpl.
  - split; [intros _; now exists s | intros _; now destruct s].
  - destruct s as [|d s]; simpl.
    + split; [discriminate | intros [t H]; discriminate].
    + rewrite andb_true_iff, N.eqb_eq, IH. split.
      * intros [-> [t ->]]. now exists t.
      * intros [t H]. injection H as -> ->. split; [reflexivity | now exists t].
Qed.

Lemma endsWith_iff s p : endsWith s p = true <-> exists d, s = d ++ p.
Proof.
  unfold endsWith. rewrite startsWith_iff. split.
  - intros [t H]. exists (rev t).
    rewrite <- (rev_involutive s), H, rev_app_distr, rev_involutive. reflexivity.
  - intros [d ->]. exists (rev d). apply rev_app_distr.
Qed.

(** A text holds what stands in its middle. *)
Lemma includes_after a p b : includes (a ++ p ++ b) p = true.
Proof.
  induction a as [|x a IH]; cbn [app].
  - assert (H : startsWith (p ++ b) p = true) by (apply startsWith_iff; eauto).
    destruct (p ++ b); cbn [includes]; now rewrite H.
  - cbn [includes]. rewrite IH. apply orb_true_r.
Qed.

(** Two suffixes that end in different code units exclude each other. *)
Lemma endsWith_last_differs s p q x y :
  x <> y -> endsWith s (p ++ [x]) = true -> endsWith s (q ++ [y]) = false.
Proof.
  intros Hxy H. unfold endsWith in *. rewrite rev_app_distr in *. simpl in *.
  destruct (rev s) as [|d r]; [discriminate|].
  apply andb_true_iff in H as [H _]. apply N.eqb_eq in H. subst d.
  simpl. destruct (N.eqb_spec y x); [congruence | reflexivity].
Qed.

(** *** Lower case *)

Lemma lower_idem c : lower (lower c) = lower c.
Proof.
  unfold lower, is_upper, between.
  destruct (N.leb_spec 65 c), (N.leb_spec c 90); simpl; try reflexivity.
  - destruct (N.leb_spec 65 (c + 32)), (N.leb_spec (c + 32) 90); simpl;
      try reflexivity; lia.
  - destruct (N.leb_spec 65 c), (N.leb_spec c 90); simpl; try reflexivity; lia.
  - destruct (N.leb_spec 65 c), (N.leb_spec c 90); simpl; try reflexivity; lia.
  - destruct (N.leb_spec 65 c), (N.leb_spec c 90); simpl; try reflexivity; lia.
Qed.

Lemma toLowerCase_idem s : toLowerCase (toLowerCase s) = toLowerCase s.
Proof.
  unfold toLowerCase. rewrite map_map. apply map_ext. intros. apply lower_idem.
Qed.

(** *** Own properties *)

Lemma own_In o k v : own o k = Some v -> In (k, v) o.
Proof.
  induction o as [|[k' v'] o IH]; simpl; [discriminate|].
  destruct (eqb k' k) eqn:E.
  - apply eqb_eq in E. intros [= ->]. subst. now left.
  - intros H. right. auto.
Qed.

Lemma own_None o k : own o k = None <-> ~ In k (map fst o).
Proof.
  induction o as [|[k' v'] o IH]; simpl; [tauto|].
  destruct (eqb k' k) eqn:E.
  - apply eqb_eq in E. split; [discriminate | intros H; exfalso; auto].
  - apply eqb_neq in E. rewrite IH. tauto.
Qed.

Lemma In_own o k v : NoDup (map fst o) -> In (k, v) o -> own o k = Some v.
Proof.
  induction o as [|[k' v'] o IH]; simpl; [tauto|].
  intros Hnd [H|H].
  - injection H as -> ->. now rewrite eqb_refl.
  - inversion Hnd as [|? ? Hk Hnd']; subst.
    destruct (eqb k' k) eqn:E.
    + apply eqb_eq in E. subst. exfalso. apply Hk.
      change k with (fst (k, v)). now apply in_map.
    + auto.
Qed.

Lemma own_define_eq o k v : own (define o k v) k = Some v.
Proof.
  induction o as [|[k' v'] o IH]; simpl.
  - now rewrite eqb_refl.
  - destruct (eqb k' k) eqn:E; simpl; rewrite E; auto.
Qed.

Lemma own_define_ne o k v k' : k <> k' -> own (define o k v) k' = own o k'.
Proof.
  intros Hne. induction o as [|[k0 v0] o IH]; simpl.
  - apply eqb_neq in Hne. now rewrite Hne.
  - destruct (eqb k0 k) eqn:E; simpl.
    + apply eqb_eq in E. subst k0. apply eqb_neq in Hne. now rewrite Hne.
    + destruct (eqb k0 k'); auto.
Qed.

Lemma keys_define o k v :
  map fst (define o k v)
  = match own o k with Some _ => map fst o | None => map fst o ++ [k] end.
Proof.
  induction o as [|[k' v'] o IH]; simpl; [reflexivity|].
  destruct (eqb k' k) eqn:E; simpl; [reflexivity|].
  rewrite IH. now destruct (own o k).
Qed.

Lemma NoDup_snoc (A : Type) (l : list A) x : NoDup l -> ~ In x l -> NoDup (l ++ [x]).
Proof.
  induction l as [|y l IH]; simpl; intros Hnd Hx.
  - constructor; [tauto | constructor].
  - inversion Hnd as [|? ? Hy Hnd']; subst. constructor.
    + rewrite in_app_iff. simpl. intros [H|[H|[]]]; [tauto | subst; tauto].
    + apply IH; tauto.
Qed.

Lemma NoDup_define o k v : NoDup (map fst o) -> NoDup (map fst (define o k v)).
Proof.
  intros Hnd. rewrite keys_define. destruct (own o k) eqn:E; [assumption|].
  apply NoDup_snoc; [assumption | now apply own_None].
Qed.

Lemma In_define o k v p : In p (define o k v) -> p = (k, v) \/ In p o.
Proof.
  induction o as [|[k' v'] o IH]; simpl.
  - intros [H|[]]. now left.
  - destruct (eqb k' k) eqn:E; simpl.
    + apply eqb_eq in E. subst. intros [H|H]; auto.
    + intros [H|H]; auto. destruct (IH H); auto.
Qed.

Lemma NoDup_set o k v : NoDup (map fst o) -> NoDup (map fst (set o k v)).
Proof.
  intros H. unfold set.
  destruct (own o k); [now apply NoDup_define|].
  destruct (eqb k (lit "__proto__")); [assumption | now apply NoDup_define].
Qed.

Lemma In_set o k v p : In p (set o k v) -> p = (k, v) \/ In p o.
Proof.
  unfold set. destruct (own o k); [apply In_define|].
  destruct (eqb k (lit "__proto__")); [now right | apply In_define].
Qed.

Lemma own_set_eq o k v :
  k <> lit "__proto__" -> own (set o k v) k = Some v.
Proof.
  intros Hk. unfold set. destruct (own o k); [apply own_define_eq|].
  apply eqb_neq in Hk. rewrite Hk. apply own_define_eq.
Qed.

Lemma own_set_ne o k v k' : k <> k' -> own (set o k v) k' = own o k'.
Proof.
  intros Hne. unfold set. destruct (own o k); [now apply own_define_ne|].
  destruct (eqb k (lit "__proto__")); [reflexivity | now apply own_define_ne].
Qed.

(** *** The order of [Object.entries] *)

Lemma insert_by_index_perm p l : Permutation (insert_by_index p l) (p :: l).
Proof.
  induction l as [|q l IH]; simpl; [reflexivity|].
  destruct (index_of p <? index_of q)%N; [reflexivity|].
  rewrite IH. apply perm_swap.
Qed.

Lemma sort_by_index_perm l : Permutation (sort_by_index l) l.
Proof.
  induction l as [|p l IH]; simpl; [reflexivity|].
  rewrite insert_by_index_perm. now constructor.
Qed.

Lemma partition_perm (A : Type) (f : A -> bool) l :
  Permutation (filter f l ++ filter (fun x => negb (f x)) l) l.
Proof.
  induction l as [|x l IH]; simpl; [reflexivity|].
  destruct (f x); simpl.
  - now constructor.
  - rewrite <- Permutation_middle. now constructor.
Qed.

Lemma Object_entries_perm o : Permutation (Object_entries o) o.
Proof.
  unfold Object_entries. rewrite sort_by_index_perm. apply partition_perm.
Qed.

Lemma In_entries o p : In p (Object_entries o) <-> In p o.
Proof.
  split; apply Permutation_in;
    [apply Object_entries_perm | symmetry; apply Object_entries_perm].
Qed.

Lemma entries_own o k v :
  NoDup (map fst o) -> (In (k, v) (Object_entries o) <-> own o k = Some v).
Proof.
  intros Hnd. rewrite In_entries. split; [now apply In_own | apply own_In].
Qed.

(** *** Spreading *)

Lemma fold_define_NoDup l t :
  NoDup (map fst t) ->
  NoDup (map fst (fold_left (fun t p => define t (fst p) (snd p)) l t)).
Proof.
  revert t. induction l as [|p l IH]; simpl; intros t H; [assumption|].
  apply IH. now apply NoDup_define.
Qed.

Lemma fold_define_In l t q :
  In q (fold_left (fun t p => define t (fst p) (snd p)) l t) -> In q l \/ In q t.
Proof.
  revert t. induction l as [|p l IH]; simpl; intros t H; [now right|].
  destruct (IH _ H) as [H'|H']; [now left; right|].
  apply In_define in H'. destruct H' as [->|H']; [|now right].
  left. left. now destruct p.
Qed.

Lemma spread_into_NoDup t src :
  NoDup (map fst t) -> NoDup (map fst (spread_into t src)).
Proof. destruct src; simpl; [apply fold_define_NoDup | trivial]. Qed.

Lemma spread_into_In t src q :
  In q (spread_into t src) -> (exists s, src = Some s /\ In q s) \/ In q t.
Proof.
  destruct src as [s|]; simpl; [|now right].
  intros H. apply fold_define_In in H. destruct H as [H|H]; [|now right].
  left. exists s. split; [reflexivity | now apply In_entries].
Qed.

End JSFacts.

Import JSFacts.

(* ================================================================== *)
(** * The manifest differ *)
(* ================================================================== *)

Module ParsersFacts.

Import Parsers DifferSpec.

(** ** Maps recorded by successive assignments *)

Lemma fold_left_flat_map (A B C : Type) (f : A -> B -> A) (g : C -> list B) l acc :
  fold_left f (flat_map g l) acc = fold_left (fun a x => fold_left f (g x) a) l acc.
Proof.
  revert acc. induction l as [|x l IH]; intros acc; simpl; [reflexivity|].
  now rewrite fold_left_app, IH.
Qed.

Lemma fold_left_ext (A B : Type) (f g : A -> B -> A) l acc :
  (forall a x, f a x = g a x) -> fold_left f l acc = fold_left g l acc.
Proof.
  intros H. revert acc. induction l as [|x l IH]; intros acc; simpl;
    [reflexivity|]. now rewrite H, IH.
Qed.

Lemma parseReqLines_assigns content :
  parseReqLines content = fold_left assign (req_entries content) [].
Proof.
  unfold parseReqLines, req_entries. rewrite fold_left_flat_map.
  apply fold_left_ext. intros deps line.
  destruct (req_line_match line) as [[m1 m3]|]; reflexivity.
Qed.

Lemma parsePyprojectDeps_assigns content :
  parsePyprojectDeps content = fold_left assign (pyproject_entries content) [].
Proof.
  unfold parsePyprojectDeps, pyproject_entries. rewrite fold_left_flat_map.
  apply fold_left_ext. intros deps m.
  destruct m as [|m1 [|m2 [|m3 [|m4 m]]]]; reflexivity.
Qed.

Lemma assigned_In es acc p :
  In p (fold_left assign es acc) -> In p es \/ In p acc.
Proof.
  revert acc. induction es as [|e es IH]; simpl; intros acc H; [now right|].
  destruct (IH _ H) as [H'|H']; [now left; right|].
  apply In_set in H'. destruct H' as [->|H']; [|now right].
  left. left. now destruct e.
Qed.

Lemma assigned_NoDup es acc :
  NoDup (map fst acc) -> NoDup (map fst (fold_left assign es acc)).
Proof.
  revert acc. induction es as [|e es IH]; simpl; intros acc H; [assumption|].
  apply IH. now apply NoDup_set.
Qed.

Lemma assigned_untouched es acc k :
  ~ In k (map fst es) -> own (fold_left assign es acc) k = own acc k.
Proof.
  revert acc. induction es as [|[k' v'] es IH]; simpl; intros acc H; [reflexivity|].
  rewrite IH by tauto. apply own_set_ne. tauto.
Qed.

(** The last assignment to a key other than [__proto__] is the one the map
    holds. *)
Lemma assigned_last pre k v post acc :
  k <> lit "__proto__" -> ~ In k (map fst post) ->
  own (fold_left assign (pre ++ (k, v) :: post) acc) k = Some v.
Proof.
  intros Hk Hpost. rewrite fold_left_app. simpl.
  rewrite assigned_untouched by assumption. now apply own_set_eq.
Qed.

(** ** The loops that compare two maps *)

Lemma In_flat_changes (f : jsstring -> jsstring -> list DependencyChange)
      (es : object) c :
  In c (flat_map (fun '(pkg, v) => f pkg v) es)
  <-> exists pkg v, In (pkg, v) es /\ In c (f pkg v).
Proof.
  rewrite in_flat_map. split.
  - intros [[pkg v] [H1 H2]]. now exists pkg, v.
  - intros (pkg & v & H1 & H2). now exists (pkg, v).
Qed.

Lemma parseRequirementsTxt_In old new c :
  In c (parseRequirementsTxt old new)
  <-> reported (parseReqLines old) (parseReqLines new) c.
Proof.
  unfold parseRequirementsTxt, reported. rewrite In_flat_changes. split.
  - intros (pkg & v & Hin & Hc). apply (proj1 (In_entries _ _)) in Hin.
    destruct (truthy _) eqn:Ht; simpl in Hc; [|contradiction].
    destruct (strict_eq _ _) eqn:He; simpl in Hc; [contradiction|].
    destruct Hc as [<-|[]]. simpl. auto.
  - intros (Hin & Hf & Ht & He & Heco). exists (package c), (toVersion c).
    split; [now apply (proj2 (In_entries _ _))|].
    rewrite <- Hf, Ht, He. simpl. left. destruct c; simpl in *. congruence.
Qed.

Lemma parsePyprojectToml_In old new c :
  In c (parsePyprojectToml old new)
  <-> reported (parsePyprojectDeps old) (parsePyprojectDeps new) c.
Proof.
  unfold parsePyprojectToml, reported. rewrite In_flat_changes. split.
  - intros (pkg & v & Hin & Hc). apply (proj1 (In_entries _ _)) in Hin.
    destruct (truthy _) eqn:Ht; simpl in Hc; [|contradiction].
    destruct (strict_eq _ _) eqn:He; simpl in Hc; [contradiction|].
    destruct Hc as [<-|[]]. simpl. auto.
  - intros (Hin & Hf & Ht & He & Heco). exists (package c), (toVersion c).
    split; [now apply (proj2 (In_entries _ _))|].
    rewrite <- Hf, Ht, He. simpl. left. destruct c; simpl in *. congruence.
Qed.

(** ** Names of the pinned-requirement and key/value formats *)

Lemma req_key_from_line content k v :
  In (k, v) (parseReqLines content) ->
  exists line name,
    In line (split LF content) /\ req_line_match line = Some (name, v)
    /\ k = toLowerCase name.
Proof.
  rewrite parseReqLines_assigns. intros H.
  apply assigned_In in H. destruct H as [H|[]].
  unfold req_entries in H. apply in_flat_map in H. destruct H as (line & Hl & H).
  destruct (req_line_match line) as [[m1 m3]|] eqn:E; [|contradiction].
  destruct H as [[= <- <-]|[]]. now exists line, m1.
Qed.

Lemma pyproject_key_from_match content k v :
  In (k, v) (parsePyprojectDeps content) ->
  exists name op,
    In [name; op; v] (exec_all pyproject_re 0 content) /\ k = toLowerCase name.
Proof.
  rewrite parsePyprojectDeps_assigns. intros H.
  apply assigned_In in H. destruct H as [H|[]].
  unfold pyproject_entries in H. apply in_flat_map in H.
  destruct H as (m & Hm & H).
  destruct m as [|m1 [|m2 [|m3 [|m4 m]]]]; try contradiction.
  destruct H as [[= <- <-]|[]]. now exists m1, m2.
Qed.

(** ** The structured-object format *)

Section WithJSON.

Variable JSON_parse : jsstring -> result json.

Lemma parsePackageJson_cases old new :
  parsePackageJson JSON_parse old new
  = match parse_or_empty JSON_parse old, parse_or_empty JSON_parse new with
    | Ok (JDocument od odd), Ok (JDocument nd ndd) =>
        Ok (package_changes (merged_deps od odd) (merged_deps nd ndd))
    | _, _ => Ok []
    end.
Proof.
  unfold parsePackageJson.
  destruct (parse_or_empty JSON_parse old) as [[|od odd]|e1]; simpl;
    destruct (parse_or_empty JSON_parse new) as [[|nd ndd]|e2]; reflexivity.
Qed.

Lemma merged_deps_NoDup d dd : NoDup (map fst (merged_deps d dd)).
Proof.
  unfold merged_deps. apply spread_into_NoDup, spread_into_NoDup. constructor.
Qed.

Lemma merged_deps_In d dd q :
  In q (merged_deps d dd) -> exists o, (d = Some o \/ dd = Some o) /\ In q o.
Proof.
  unfold merged_deps. intros H.
  apply spread_into_In in H. destruct H as [(o & -> & H)|H]; [eauto|].
  apply spread_into_In in H. destruct H as [(o & -> & H)|[]]. eauto.
Qed.

Lemma package_changes_In oldDeps newDeps c :
  In c (package_changes oldDeps newDeps) <-> reported_npm oldDeps newDeps c.
Proof.
  unfold package_changes, reported_npm. rewrite In_flat_changes. split.
  - intros (pkg & v & Hin & Hc). apply (proj1 (In_entries _ _)) in Hin.
    destruct (truthy _) eqn:Ht; simpl in Hc; [|contradiction].
    destruct (strict_eq _ _) eqn:He; simpl in Hc; [contradiction|].
    destruct (eqb _ _) eqn:Hs; simpl in Hc; [contradiction|].
    destruct Hc as [<-|[]]. simpl. exists v. repeat split; auto.
    apply eqb_neq in Hs. congruence.
  - intros (v & Hin & Ht & He & Hf & Hto & Hne & Heco).
    exists (package c), v. split; [now apply (proj2 (In_entries _ _))|].
    rewrite Ht, He. simpl.
    destruct (eqb _ _) eqn:Hs; simpl.
    + apply eqb_eq in Hs. congruence.
    + left. destruct c; simpl in *. congruence.
Qed.

(** ** Dispatch on the file name *)

Lemma dispatch_requirements filename old new :
  endsWith filename (lit "requirements.txt") = true ->
  parseDependencyChanges JSON_parse filename old new
  = Ok (parseRequirementsTxt old new).
Proof. intros H. unfold parseDependencyChanges. now rewrite H. Qed.

Lemma dispatch_package_json filename old new :
  endsWith filename (lit "package.json") = true ->
  parseDependencyChanges JSON_parse filename old new
  = parsePackageJson JSON_parse old new.
Proof.
  intros H. unfold parseDependencyChanges. rewrite H.
  assert (E : endsWith filename (lit "requirements.txt") = false).
  { apply (@endsWith_last_differs filename (lit "package.jso")
             (lit "requirements.tx") 110%N 116%N); [discriminate | exact H]. }
  now rewrite E.
Qed.

Lemma dispatch_pyproject filename old new :
  endsWith filename (lit "pyproject.toml") = true ->
  parseDependencyChanges JSON_parse filename old new
  = Ok (parsePyprojectToml old new).
Proof.
  intros H. unfold parseDependencyChanges. rewrite H.
  assert (E1 : endsWith filename (lit "requirements.txt") = false).
  { apply (@endsWith_last_differs filename (lit "pyproject.tom")
             (lit "requirements.tx") 108%N 116%N); [discriminate | exact H]. }
  assert (E2 : endsWith filename (lit "package.json") = false).
  { apply (@endsWith_last_differs filename (lit "pyproject.tom")
             (lit "package.jso") 108%N 110%N); [discriminate | exact H]. }
  now rewrite E1, E2.
Qed.

End WithJSON.

End ParsersFacts.

Section Differ.

Import Parsers DifferSpec ParsersFacts.

(** ** Updates come from the old snapshot, up to inherited names *)

(** An update reported for a name that no object inherits was recorded in the
    old map, with a different version. *)
Lemma reported_was_recorded oldDeps newDeps c :
  reported oldDeps newDeps c -> inherited (package c) = false ->
  exists v, own oldDeps (package c) = Some v
            /\ fromVersion c = VString v /\ v <> toVersion c.
Proof.
  intros (_ & Hf & Ht & He & _) Hi. unfold get in Hf. rewrite Hi in Hf.
  destruct (own oldDeps (package c)) as [v|].
  - exists v. rewrite Hf in He. simpl in He. apply eqb_neq in He. auto.
  - rewrite Hf in Ht. discriminate.
Qed.

Lemma reported_differs oldDeps newDeps c :
  reported oldDeps newDeps c -> fromVersion c <> VString (toVersion c).
Proof.
  intros (_ & _ & _ & He & _) E. rewrite E in He. simpl in He.
  now rewrite eqb_refl in He.
Qed.

(** ** The last parseable line of a name, other than [__proto__] *)

Lemma last_requirement_line_wins content pre line post name version :
  split LF content = pre ++ line :: post ->
  req_line_match line = Some (name, version) ->
  (forall l n v, In l post -> req_line_match l = Some (n, v) ->
                 toLowerCase n <> toLowerCase name) ->
  toLowerCase name <> lit "__proto__" ->
  own (parseReqLines content) (toLowerCase name) = Some version
  /\ get (parseReqLines content) (toLowerCase name) = VString version.
Proof.
  intros Hs Hm Hpost Hk.
  assert (E : own (parseReqLines content) (toLowerCase name) = Some version).
  { rewrite parseReqLines_assigns. unfold req_entries. rewrite Hs.
    rewrite flat_map_app. simpl. rewrite Hm. simpl.
    apply assigned_last; [assumption|].
    intros Hin. apply in_map_iff in Hin. destruct Hin as ([k v] & Hk' & Hin).
    simpl in Hk'. subst k. apply in_flat_map in Hin.
    destruct Hin as (l & Hl & Hin).
    destruct (req_line_match l) as [[n v']|] eqn:El; [|contradiction].
    destruct Hin as [[= Hn _]|[]]. exact (Hpost l n v' Hl El Hn). }
  split; [exact E|]. unfold get. now rewrite E.
Qed.

(** C3 (amended). Every change that [parseDependencyChanges] emits for the
    pinned-requirement format or for the key/value format carries as
    [package] the lower-case form of a name that the format's pattern
    matched in the new content. For the structured-object format, [package]
    is a key of the new document's [dependencies] or [devDependencies],
    exactly as the manifest spells it. *)
Theorem C3_package_of_emitted_change JSON_parse filename old new changes c :
  parseDependencyChanges JSON_parse filename old new = Ok changes ->
  In c changes ->
  (endsWith filename (lit "requirements.txt") = true ->
     toLowerCase (package c) = package c
     /\ exists line name version,
          In line (split LF new)
          /\ req_line_match line = Some (name, version)
          /\ package c = toLowerCase name)
  /\ (endsWith filename (lit "pyproject.toml") = true ->
     toLowerCase (package c) = package c
     /\ exists name op version,
          In [name; op; version] (exec_all pyproject_re 0 new)
          /\ package c = toLowerCase name)
  /\ (endsWith filename (lit "package.json") = true ->
     exists d dd o v,
       parse_or_empty JSON_parse new = Ok (JDocument d dd)
       /\ (d = Some o \/ dd = Some o)
       /\ In (package c, v) o).
Proof.
  intros Hrun Hin. repeat split.
  - rewrite dispatch_requirements in Hrun by assumption.
    injection Hrun as <-. apply parseRequirementsTxt_In in Hin.
    destruct Hin as (Hin & _). apply req_key_from_line in Hin.
    destruct Hin as (line & name & _ & _ & ->). apply toLowerCase_idem.
  - rewrite dispatch_requirements in Hrun by assumption.
    injection Hrun as <-. apply parseRequirementsTxt_In in Hin.
    destruct Hin as (Hin & _). apply req_key_from_line in Hin.
    destruct Hin as (line & name & H1 & H2 & H3). eauto 6.
  - rewrite dispatch_pyproject in Hrun by assumption.
    injection Hrun as <-. apply parsePyprojectToml_In in Hin.
    destruct Hin as (Hin & _). apply pyproject_key_from_match in Hin.
    destruct Hin as (name & op & _ & ->). apply toLowerCase_idem.
  - rewrite dispatch_pyproject in Hrun by assumption.
    injection Hrun as <-. apply parsePyprojectToml_In in Hin.
    destruct Hin as (Hin & _). apply pyproject_key_from_match in Hin.
    destruct Hin as (name & op & H1 & H2). eauto 6.
  - intros Hf. rewrite dispatch_package_json in Hrun by assumption.
    rewrite parsePackageJson_cases in Hrun.
    destruct (parse_or_empty JSON_parse old) as [[|od odd]|e1];
      destruct (parse_or_empty JSON_parse new) as [[|nd ndd]|e2];
      injection Hrun as <-; try contradiction.
    apply package_changes_In in Hin. destruct Hin as (v & Hin & _).
    apply merged_deps_In in Hin. destruct Hin as (o & Ho & Hin).
    exists nd, ndd, o, v. auto.
Qed.

(** C3, witness: the theorem at a [package.json] whose dependency is spelt
    [React]. *)
Lemma C3_package_of_emitted_change_witness :
  exists d dd o v,
    parse_or_empty react_parse react_new = Ok (JDocument d dd)
    /\ (d = Some o \/ dd = Some o)
    /\ In (lit "React", v) o.
Proof.
  refine (proj2 (proj2 (@C3_package_of_emitted_change react_parse
            (lit "package.json") react_old react_new
            [ {| package := lit "React"; fromVersion := VString (lit "17.0.0");
                 toVersion := lit "18.0.0"; ecosystem := npm |} ]
            {| package := lit "React"; fromVersion := VString (lit "17.0.0");
               toVersion := lit "18.0.0"; ecosystem := npm |} _ _)) _).
  - vm_compute. reflexivity.
  - simpl. left. reflexivity.
  - vm_compute. reflexivity.
Defined.

(** C3, counterexample: for the structured-object format the emitted
    [package] is the key as written, here [React], which is not its
    lower-case form [react]. *)
Lemma C3_counterexample_structured_name_kept :
  parseDependencyChanges react_parse (lit "package.json") react_old react_new
  = Ok [ {| package := lit "React"; fromVersion := VString (lit "17.0.0");
            toVersion := lit "18.0.0"; ecosystem := npm |} ]
  /\ toLowerCase (lit "React") = lit "react"
  /\ lit "React" <> lit "react".
Proof. vm_compute. repeat split. discriminate. Qed.

(** C4. The claim fails on the code at a name that every object inherits: the
    old snapshot is empty, the new one pins [constructor], and the read
    [oldDeps[pkg]] finds [Object.prototype.constructor], which is truthy and
    differs from the new version, so an update is reported. *)
Theorem C4_inherited_name_reported :
  parseDependencyChanges (parse_table []) (lit "requirements.txt")
                         [] (lit "constructor==1.0.0")
  = Ok [ {| package := lit "constructor";
            fromVersion := VBuiltin (lit "constructor");
            toVersion := lit "1.0.0"; ecosystem := pypi |} ]
  /\ own (parseReqLines []) (lit "constructor") = None
  /\ req_entries [] = [].
Proof. vm_compute. repeat split. Qed.

(** Apart from inherited names, the pinned-requirement and key/value formats
    report only packages recorded in the old snapshot, and never an unchanged
    version. *)
Lemma pinned_update_was_in_old_snapshot old new c :
  In c (parseRequirementsTxt old new) ->
  fromVersion c <> VString (toVersion c)
  /\ (inherited (package c) = false ->
      exists v, own (parseReqLines old) (package c) = Some v
                /\ fromVersion c = VString v /\ v <> toVersion c).
Proof.
  intros H. apply parseRequirementsTxt_In in H. split.
  - eapply reported_differs, H.
  - now apply reported_was_recorded with (newDeps := parseReqLines new).
Qed.

Lemma keyvalue_update_was_in_old_snapshot old new c :
  In c (parsePyprojectToml old new) ->
  fromVersion c <> VString (toVersion c)
  /\ (inherited (package c) = false ->
      exists v, own (parsePyprojectDeps old) (package c) = Some v
                /\ fromVersion c = VString v /\ v <> toVersion c).
Proof.
  intros H. apply parsePyprojectToml_In in H. split.
  - eapply reported_differs, H.
  - now apply reported_was_recorded with (newDeps := parsePyprojectDeps new).
Qed.

Lemma structured_update_differs oldDeps newDeps c :
  In c (package_changes oldDeps newDeps) -> fromVersion c <> VString (toVersion c).
Proof.
  intros H. apply package_changes_In in H.
  destruct H as (v & _ & _ & _ & _ & _ & H & _). exact H.
Qed.

(** C5 (amended). For the structured-object format, a package that both
    merged dependency maps hold, with a non-empty version string in the old
    one, produces a change if and only if the two version strings differ
    once a single leading [^] or [~] is stripped from each; the change
    carries the stripped versions. *)
Theorem C5_structured_change_iff JSON_parse old new od odd nd ndd pkg vo vn :
  parse_or_empty JSON_parse old = Ok (JDocument od odd) ->
  parse_or_empty JSON_parse new = Ok (JDocument nd ndd) ->
  own (merged_deps od odd) pkg = Some vo ->
  own (merged_deps nd ndd) pkg = Some vn ->
  vo <> [] ->
  exists changes,
    parsePackageJson JSON_parse old new = Ok changes
    /\ ((exists c, In c changes /\ package c = pkg)
        <-> strip_leading range_qualifier vo <> strip_leading range_qualifier vn)
    /\ (forall c, In c changes -> package c = pkg ->
          fromVersion c = VString (strip_leading range_qualifier vo)
          /\ toVersion c = strip_leading range_qualifier vn).
Proof.
  intros Ho Hn Hvo Hvn Hne.
  rewrite parsePackageJson_cases, Ho, Hn. eexists. split; [reflexivity|].
  assert (Hc : forall c, In c (package_changes (merged_deps od odd) (merged_deps nd ndd)) ->
               package c = pkg ->
               fromVersion c = VString (strip_leading range_qualifier vo)
               /\ toVersion c = strip_leading range_qualifier vn).
  { intros c Hin Hp. apply package_changes_In in Hin.
    destruct Hin as (v & Hin & _ & _ & Hf & Ht & _). cbv zeta in Hf.
    rewrite Hp in Hin, Hf.
    apply In_own in Hin; [|apply merged_deps_NoDup].
    rewrite Hvn in Hin. injection Hin as <-.
    unfold get in Hf. rewrite Hvo in Hf. simpl in Hf. auto. }
  split; [split|exact Hc].
  - intros (c & Hin & Hp). destruct (Hc c Hin Hp) as [Hf Ht].
    apply structured_update_differs in Hin. rewrite Hf, Ht in Hin. congruence.
  - intros Hd.
    exists {| package := pkg;
              fromVersion := VString (strip_leading range_qualifier vo);
              toVersion := strip_leading range_qualifier vn;
              ecosystem := npm |}.
    split; [|reflexivity]. apply package_changes_In. exists vn. simpl.
    unfold get. rewrite Hvo. simpl.
    repeat split.
    + now apply own_In.
    + destruct vo; [contradiction | reflexivity].
    + apply eqb_neq. intros ->. now apply Hd.
    + congruence.
Qed.

Example structured_qualifier_only :
  parsePackageJson pad_parse caret_123 plain_123 = Ok [].
Proof. vm_compute. reflexivity. Qed.

Example structured_version_change :
  parsePackageJson pad_parse caret_123 caret_200
  = Ok [ {| package := lit "left-pad"; fromVersion := VString (lit "1.2.3");
            toVersion := lit "2.0.0"; ecosystem := npm |} ].
Proof. vm_compute. reflexivity. Qed.

(** C5, witness: the theorem at old [^1.2.3], new [^2.0.0]. *)
Lemma C5_structured_change_iff_witness :
  exists changes,
    parsePackageJson pad_parse caret_123 caret_200 = Ok changes
    /\ ((exists c, In c changes /\ package c = lit "left-pad")
        <-> strip_leading range_qualifier (lit "^1.2.3")
            <> strip_leading range_qualifier (lit "^2.0.0"))
    /\ (forall c, In c changes -> package c = lit "left-pad" ->
          fromVersion c = VString (strip_leading range_qualifier (lit "^1.2.3"))
          /\ toVersion c = strip_leading range_qualifier (lit "^2.0.0")).
Proof.
  apply (@C5_structured_change_iff pad_parse caret_123 caret_200
           (Some [(lit "left-pad", lit "^1.2.3")]) None
           (Some [(lit "left-pad", lit "^2.0.0")]) None).
  - vm_compute. reflexivity.
  - vm_compute. reflexivity.
  - vm_compute. reflexivity.
  - vm_compute. reflexivity.
  - discriminate.
Defined.

(** C5, counterexample: [left-pad] is a key of both merged maps, its old
    version is the empty string and its new one is [1.2.3]; the stripped
    versions differ, yet no change is produced, because the guard
    [oldVersionRaw && ...] takes the empty string for an absent entry. *)
Lemma C5_counterexample_empty_old_version :
  let oldDeps := merged_deps (Some [(lit "left-pad", lit "")]) None in
  let newDeps := merged_deps (Some [(lit "left-pad", lit "1.2.3")]) None in
  own oldDeps (lit "left-pad") = Some (lit "")
  /\ own newDeps (lit "left-pad") = Some (lit "1.2.3")
  /\ strip_leading range_qualifier (lit "") <> strip_leading range_qualifier (lit "1.2.3")
  /\ parsePackageJson pad_parse empty_ver plain_123 = Ok [].
Proof. vm_compute. repeat split. discriminate. Qed.

(** C9. [parseDependencyChanges] returns a sequence whatever its inputs;
    a file name with none of the three suffixes gives the empty sequence;
    for [package.json], a snapshot that [JSON.parse] rejects, or that parses
    to [null], gives the empty sequence for the call. *)
Theorem C9_parseDependencyChanges_never_throws JSON_parse filename old new :
  (exists changes, parseDependencyChanges JSON_parse filename old new = Ok changes)
  /\ (endsWith filename (lit "requirements.txt") = false ->
      endsWith filename (lit "package.json") = false ->
      endsWith filename (lit "pyproject.toml") = false ->
      parseDependencyChanges JSON_parse filename old new = Ok [])
  /\ (endsWith filename (lit "package.json") = true ->
      (exists e, parse_or_empty JSON_parse old = Throw e
                 \/ parse_or_empty JSON_parse new = Throw e) ->
      parseDependencyChanges JSON_parse filename old new = Ok [])
  /\ (endsWith filename (lit "package.json") = true ->
      parse_or_empty JSON_parse old = Ok JNull
      \/ parse_or_empty JSON_parse new = Ok JNull ->
      parseDependencyChanges JSON_parse filename old new = Ok []).
Proof.
  repeat split.
  - unfold parseDependencyChanges.
    destruct (endsWith filename (lit "requirements.txt")); [eauto|].
    destruct (endsWith filename (lit "package.json")).
    + rewrite parsePackageJson_cases.
      destruct (parse_or_empty JSON_parse old) as [[|od odd]|e1];
        destruct (parse_or_empty JSON_parse new) as [[|nd ndd]|e2]; eauto.
    + destruct (endsWith filename (lit "pyproject.toml")); eauto.
  - intros H1 H2 H3. unfold parseDependencyChanges. now rewrite H1, H2, H3.
  - intros Hf (e & He). rewrite dispatch_package_json by assumption.
    rewrite parsePackageJson_cases. destruct He as [He|He]; rewrite He.
    + reflexivity.
    + now destruct (parse_or_empty JSON_parse old) as [[|od odd]|e1].
  - intros Hf He. rewrite dispatch_package_json by assumption.
    rewrite parsePackageJson_cases. destruct He as [He|He]; rewrite He.
    + reflexivity.
    + now destruct (parse_or_empty JSON_parse old) as [[|od odd]|e1].
Qed.

(** C9, witness: an unrecognised name, and a [package.json] whose old
    snapshot is not a document the parser accepts. *)
Lemma C9_parseDependencyChanges_never_throws_witness :
  parseDependencyChanges pad_parse (lit "Cargo.toml") (lit "a==1") (lit "a==2") = Ok []
  /\ parseDependencyChanges pad_parse (lit "web/package.json") (lit "{") caret_200 = Ok [].
Proof.
  split.
  - apply (proj1 (proj2 (@C9_parseDependencyChanges_never_throws
                           pad_parse (lit "Cargo.toml") (lit "a==1") (lit "a==2"))));
      vm_compute; reflexivity.
  - apply (proj1 (proj2 (proj2 (@C9_parseDependencyChanges_never_throws
                           pad_parse (lit "web/package.json") (lit "{") caret_200)))).
    + vm_compute. reflexivity.
    + exists (lit "Unexpected token"). left. vm_compute. reflexivity.
Defined.

(** C10. The claim fails on the code at the name [__proto__]: both lines are
    parseable, yet the assignment [deps[name] = version] reaches the setter
    that [Object.prototype] provides for [__proto__], which ignores a string,
    so the map records nothing and no update is reported. *)
Theorem C10_proto_lines_not_recorded :
  let content := lit "__proto__==1.0.0" ++ LF ++ lit "__proto__==2.0.0" in
  split LF content = [lit "__proto__==1.0.0"; lit "__proto__==2.0.0"]
  /\ req_line_match (lit "__proto__==2.0.0") = Some (lit "__proto__", lit "2.0.0")
  /\ parseReqLines content = []
  /\ own (parseReqLines content) (lit "__proto__") = None
  /\ parseRequirementsTxt (lit "__proto__==1.0.0") (lit "__proto__==2.0.0") = [].
Proof. vm_compute. repeat split. Qed.

Example last_line_wins_mixed_case :
  parseReqLines (lit "Django==3.2" ++ LF ++ lit "requests>=2.0" ++ LF ++ lit "django==4.0")
  = [ (lit "django", lit "4.0"); (lit "requests", lit "2.0") ].
Proof. vm_compute. reflexivity. Qed.

End Differ.

(* ================================================================== *)
(** * The resolver *)
(* ================================================================== *)

Module ApiFacts.

Import Api ResolverSpec.

Lemma buildMigrationUrl_nonempty sourceId version :
  buildMigrationUrl sourceId version <> [].
Proof. unfold buildMigrationUrl. discriminate. Qed.

Section WithHost.

Variable unicode : jsstring -> jsstring.
Variable encodeURIComponent : jsstring -> result jsstring.
Variable fetch : nat -> jsstring -> list (jsstring * jsstring) -> result response.
Variable serviceKey : option jsstring.

Abbreviation fromRelease := (getBreakingChangesFromRelease encodeURIComponent fetch serviceKey).
Abbreviation forPackage := (getBreakingChangesForPackage unicode encodeURIComponent fetch serviceKey).
Abbreviation resolve := (resolve_one unicode encodeURIComponent fetch serviceKey).
Abbreviation loop := (for_each unicode encodeURIComponent fetch serviceKey).
Abbreviation failed := (lookups_failed unicode encodeURIComponent fetch serviceKey).

Lemma fromRelease_Ok c sourceId n r n' :
  fromRelease c sourceId n = (Ok r, n') ->
  copied c r /\ migrationUrl r = buildMigrationUrl sourceId (Parsers.toVersion c).
Proof.
  unfold getBreakingChangesFromRelease, mbind, lift, request, throw, ret.
  destruct (encodeURIComponent (ToString sourceId)) as [source|e]; [|discriminate].
  destruct (fetch n _ _) as [resp|e]; [|discriminate].
  destruct (ok resp); simpl; [|discriminate].
  destruct (json resp) as [[bcs|releases]|e]; try discriminate.
  intros [= <- <-]. unfold copied. simpl. auto.
Qed.

Lemma forPackage_Ok c n r n' :
  forPackage c n = (Ok r, n') ->
  copied c r
  /\ migrationUrl r
     = buildMigrationUrl (mapPackageToSourceId unicode (Parsers.package c))
                         (Parsers.toVersion c).
Proof.
  unfold getBreakingChangesForPackage, mbind, lift, catch.
  destruct (encodeURIComponent (ToString (mapPackageToSourceId _ _))); [|discriminate].
  destruct (encodeURIComponent (ToString (Parsers.fromVersion c))); [|discriminate].
  destruct (encodeURIComponent (Parsers.toVersion c)); [|discriminate].
  unfold request at 1.
  destruct (fetch n _ _) as [resp|e]; [|apply fromRelease_Ok].
  destruct (ok resp); simpl.
  - destruct (json resp) as [data|e]; [|apply fromRelease_Ok].
    unfold ret. intros [= <- <-]. unfold copied. simpl. auto.
  - destruct (fromRelease c _ (S n)) as [[r1|e1] n1] eqn:E.
    + intros [= <- <-]. now apply fromRelease_Ok in E.
    + apply fromRelease_Ok.
Qed.

(** A request for the listing that gives no listing makes the fallback
    throw. *)
Lemma fromRelease_fails c sourceId n source :
  encodeURIComponent (ToString sourceId) = Ok source ->
  listing_failed (fetch n (releases_url source) (getHeaders serviceKey)) ->
  exists e, fromRelease c sourceId n = (Throw e, S n).
Proof.
  intros He Hl.
  unfold getBreakingChangesFromRelease, mbind, lift, request, throw, ret.
  rewrite He. fold (releases_url source).
  destruct (fetch n (releases_url source) (getHeaders serviceKey)) as [resp|e];
    [|eauto].
  cbn [listing_failed] in Hl. destruct (ok resp); cbn [negb]; [|eauto].
  destruct Hl as [Hl|Hl]; [discriminate|].
  destruct (json resp) as [[bcs|releases]|e]; eauto.
  now destruct (Hl releases).
Qed.

(** When every lookup made for a change fails, the lookup of the change
    throws. *)
Lemma forPackage_fails c n :
  failed c n -> exists e n', forPackage c n = (Throw e, n').
Proof.
  intros (p & f & t & Hp & Hf & Ht & Hd & Hl1 & Hl2).
  unfold getBreakingChangesForPackage, mbind, lift, catch.
  rewrite Hp, Hf, Ht. fold (diff_url p f t). unfold request at 1.
  destruct (@fromRelease_fails c _ (S n) p Hp Hl1) as (e1 & H1).
  destruct (fetch n (diff_url p f t) (getHeaders serviceKey)) as [resp|e] eqn:Ed.
  - cbn [diff_failed] in Hd. destruct (ok resp) eqn:Eok; cbn [negb].
    + destruct Hd as [Hd|[e Hd]]; [discriminate|]. rewrite Hd, H1. eauto.
    + rewrite H1.
      assert (Hr : refused (Ok resp)) by (exists resp; auto).
      destruct (@fromRelease_fails c _ (S (S n)) p Hp (Hl2 Hr)) as (e2 & H2).
      rewrite H2. eauto.
  - rewrite H1. eauto.
Qed.

Lemma resolve_one_result results c n :
  exists r n',
    resolve results c n = (Ok (results ++ [r]), n')
    /\ copied c r
    /\ (failed c n -> breakingChanges r = [] /\ migrationUrl r <> []).
Proof.
  unfold resolve_one, catch, mbind, ret.
  destruct (forPackage c n) as [[r|e] n'] eqn:E.
  - exists r, n'. split; [reflexivity|]. split.
    + now apply forPackage_Ok in E.
    + intros H. destruct (forPackage_fails H) as (e & m & H'). congruence.
  - eexists _, n'. split; [reflexivity|]. split.
    + unfold copied. simpl. auto.
    + intros _. split; [reflexivity | apply buildMigrationUrl_nonempty].
Qed.

Lemma for_each_returns changes results n :
  exists rs n',
    loop changes results n = (Ok (results ++ rs), n') /\ Forall2 copied changes rs.
Proof.
  revert results n. induction changes as [|c cs IH]; intros results n; simpl.
  - exists [], n. rewrite app_nil_r. split; [reflexivity | constructor].
  - destruct (resolve_one_result results c n) as (r & m & Hr & Hc & _).
    destruct (IH (results ++ [r]) m) as (rs & n' & Hrs & Hb).
    exists (r :: rs), n'. unfold mbind. rewrite Hr, Hrs.
    rewrite <- app_assoc. split; [reflexivity | now constructor].
Qed.

(** The loop over a batch is the loop over its beginning, then the loop over
    the rest from the results and the request count reached. *)
Lemma for_each_app before after results n :
  loop (before ++ after) results n
  = match loop before results n with
    | (Ok rs, m) => loop after rs m
    | (Throw e, m) => (Throw e, m)
    end.
Proof.
  revert results n. induction before as [|c cs IH]; intros results n;
    cbn [app for_each]; [reflexivity|].
  unfold mbind. destruct (resolve results c n) as [[rs|e] m]; [apply IH | reflexivity].
Qed.

End WithHost.

End ApiFacts.

Section Resolver.

Import Api ResolverSpec ApiFacts.

(** C1. The claim fails on the code when the diff endpoint answers with an
    error status: the [return await] of the fallback sits inside the [try]
    whose handler calls the fallback again, so a failed request for the
    release listing is followed by a second one. Here the diff request is
    answered with status 503 and the request for the listing that follows
    is rejected: both lookups have failed. The listing is then requested
    once more, and the result carries the breaking change of that answer
    instead of none. *)
Theorem C1_failed_fallback_is_retried :
  both_failed no_table unescaped recovering None next_to_14 0
  /\ getBreakingChanges no_table unescaped recovering None [next_to_14] 0
     = (Ok [ {| package := lit "next"; fromVersion := VString (lit "13.5.0");
                toVersion := lit "14.0.0";
                breakingChanges :=
                  [ {| change := lit "Node 16 is no longer supported";
                       fix_ := None |} ];
                migrationUrl :=
                  lit "https://www.change8.dev/guides/next-js/migrating-to-14.0.0" |} ],
        3).
Proof.
  split.
  - exists (lit "next-js"), (lit "13.5.0"), (lit "14.0.0").
    repeat split; try reflexivity. left. reflexivity.
  - vm_compute. reflexivity.
Qed.

(** The sibling path does what the claim says: when the diff request is
    rejected, the listing is requested once, and a failure of that request
    ends the lookup; a third request, which would be answered, is not made. *)
Example rejected_then_listing_fails :
  getBreakingChanges no_table unescaped late None [next_to_14] 0
  = (Ok [ {| package := lit "next"; fromVersion := VString (lit "13.5.0");
             toVersion := lit "14.0.0"; breakingChanges := [];
             migrationUrl := lit "https://www.change8.dev/guides/next/migrating-to-14.0.0" |} ],
     2).
Proof. vm_compute. reflexivity. Qed.

(** X23. For every list of changes, whatever the host answers,
    [getBreakingChanges] returns normally with one result per change, in
    input order, each with the [package], [fromVersion] and [toVersion] of
    its change. Take any change [c] of the batch, reached at request count
    [m] (the count at which the changes [before] it are done): when every
    lookup made for [c] fails (the diff request [m], the request [m + 1] for
    the release listing and, if the diff was answered with an error status,
    the second request [m + 2] for the listing), the result of [c] has an
    empty [breakingChanges] and a non-empty [migrationUrl]; the changes
    [after] it have their results all the same. *)
Theorem one_result_per_change
        (unicode : jsstring -> jsstring)
        (encodeURIComponent : jsstring -> result jsstring)
        (fetch : nat -> jsstring -> list (jsstring * jsstring) -> result response)
        (serviceKey : option jsstring)
        (changes : list Parsers.DependencyChange) (n : nat) :
  exists results n',
    getBreakingChanges unicode encodeURIComponent fetch serviceKey changes n
    = (Ok results, n')
    /\ length results = length changes
    /\ Forall2 copied changes results
    /\ forall before c after,
         changes = before ++ c :: after ->
         exists done m r rest,
           getBreakingChanges unicode encodeURIComponent fetch serviceKey before n
           = (Ok done, m)
           /\ length done = length before
           /\ results = done ++ r :: rest
           /\ (lookups_failed unicode encodeURIComponent fetch serviceKey c m ->
               breakingChanges r = [] /\ migrationUrl r <> []).
Proof.
  destruct (for_each_returns unicode encodeURIComponent fetch serviceKey changes [] n)
    as (rs & n' & Hrun & Hc).
  exists rs, n'. split; [exact Hrun|].
  split; [symmetry; eapply Forall2_length; exact Hc|]. split; [exact Hc|].
  intros before c after ->.
  destruct (for_each_returns unicode encodeURIComponent fetch serviceKey before [] n)
    as (done & m & Hpre & Hcb).
  destruct (resolve_one_result unicode encodeURIComponent fetch serviceKey done c m)
    as (r & m' & Hr & _ & Hfail).
  destruct (for_each_returns unicode encodeURIComponent fetch serviceKey after
              (done ++ [r]) m') as (rest & n'' & Hrest & _).
  exists done, m, r, rest. split; [exact Hpre|].
  split; [symmetry; eapply Forall2_length; exact Hcb|]. split; [|exact Hfail].
  rewrite for_each_app, Hpre in Hrun. cbn [app for_each] in Hrun.
  unfold mbind in Hrun. rewrite Hr, Hrest, <- app_assoc in Hrun.
  now injection Hrun as -> _.
Qed.

(** X23, witness: on a host that answers every request with status 503, the
    lookups of [torch], the second change of a batch and reached at request
    count 3, all fail; its result is empty and has a migration URL. *)
Lemma one_result_per_change_witness :
  exists r1 r2,
    fst (getBreakingChanges no_table unescaped refusing None [next_13_14; torch_1_2] 0)
    = Ok [r1; r2]
    /\ breakingChanges r2 = [] /\ migrationUrl r2 <> [].
Proof.
  destruct (one_result_per_change no_table unescaped refusing None
              [next_13_14; torch_1_2] 0)
    as (results & n' & Hrun & _ & _ & Hall).
  destruct (Hall [next_13_14] torch_1_2 [] eq_refl)
    as (done & m & r & rest & Hpre & Hlen & Hres & Hfail).
  vm_compute in Hpre. injection Hpre as <- <-.
  destruct rest as [|x rest];
    [|rewrite Hres in Hrun; vm_compute in Hrun; discriminate Hrun].
  eexists _, r. rewrite Hrun, Hres. split; [reflexivity|].
  apply Hfail. exists (lit "pytorch"), (lit "1.13.0"), (lit "2.0.0").
  repeat split; try reflexivity; left; reflexivity.
Defined.

(** Without network every change of a batch still gets its result: two
    requests fail for each (the diff, then the release listing). *)
Example offline_batch unicode :
  getBreakingChanges unicode unescaped offline None [next_13_14; torch_1_2] 0
  = (Ok [ {| package := lit "next"; fromVersion := VString (lit "13.0.0");
             toVersion := lit "v14.0.0"; breakingChanges := [];
             migrationUrl := lit "https://www.change8.dev/guides/next/migrating-to-14.0.0" |};
          {| package := lit "torch"; fromVersion := VString (lit "1.13.0");
             toVersion := lit "2.0.0"; breakingChanges := [];
             migrationUrl := lit "https://www.change8.dev/guides/torch/migrating-to-2.0.0" |} ],
     4).
Proof. vm_compute. reflexivity. Qed.

(** When the diff endpoint answers with an error status and the listing fails
    too, the listing is requested twice: the [return await] of the fallback
    sits inside the [try] whose handler calls the fallback again. *)
Example refused_batch unicode :
  getBreakingChanges unicode unescaped refusing None [next_13_14] 0
  = (Ok [ {| package := lit "next"; fromVersion := VString (lit "13.0.0");
             toVersion := lit "v14.0.0"; breakingChanges := [];
             migrationUrl := lit "https://www.change8.dev/guides/next/migrating-to-14.0.0" |} ],
     3).
Proof. vm_compute. reflexivity. Qed.

(** When the lookup returns, the URL is built from the canonical identifier. *)
Lemma found_url_uses_source_id unicode encodeURIComponent fetch serviceKey c n r n' :
  getBreakingChangesForPackage unicode encodeURIComponent fetch serviceKey c n
  = (Ok r, n') ->
  migrationUrl r
  = buildMigrationUrl (mapPackageToSourceId unicode (Parsers.package c))
                      (Parsers.toVersion c).
Proof. intros H. now apply forPackage_Ok in H. Qed.

(** C2. The claim fails on the code when the lookup entirely failed: the
    handler of [getBreakingChanges] builds the URL from [change.package], not
    from the canonical identifier. For [next], whose identifier is [next-js],
    the URL of the failed lookup names [next]. *)
Theorem C2_failed_lookup_url_names_package unicode :
  getBreakingChanges unicode unescaped offline None [next_13_14] 0
  = (Ok [ {| package := lit "next"; fromVersion := VString (lit "13.0.0");
             toVersion := lit "v14.0.0"; breakingChanges := [];
             migrationUrl := lit "https://www.change8.dev/guides/next/migrating-to-14.0.0" |} ],
     2)
  /\ mapPackageToSourceId unicode (lit "next") = VString (lit "next-js")
  /\ buildMigrationUrl (mapPackageToSourceId unicode (lit "next")) (lit "v14.0.0")
     = lit "https://www.change8.dev/guides/next-js/migrating-to-14.0.0".
Proof. vm_compute. repeat split. Qed.

End Resolver.

(* ================================================================== *)
(** * The orchestrator and the comment formatter *)
(* ================================================================== *)

Module IndexFacts.

Import Api Index FormatterSpec.

(** ** The shape of the comment *)

Lemma rows_appended bcs acc :
  fold_left (fun acc bc => acc ++ table_row bc) bcs acc
  = acc ++ concat (map table_row bcs).
Proof.
  revert acc. induction bcs as [|bc bcs IH]; intros acc; simpl.
  - now rewrite app_nil_r.
  - now rewrite IH, <- app_assoc.
Qed.

Ltac flatten_app :=
  repeat match goal with
         | |- context [ [] ++ ?x ] => change ([] ++ x) with x
         end;
  rewrite <- ?app_assoc.

Lemma append_result_section comment r :
  append_result comment r = comment ++ section_of r.
Proof.
  unfold section_of, append_result.
  destruct (length (breakingChanges r) <=? 3);
    rewrite ?rows_appended; flatten_app; reflexivity.
Qed.

Lemma results_appended rs comment :
  fold_left append_result rs comment = comment ++ concat (map section_of rs).
Proof.
  revert comment. induction rs as [|r rs IH]; intros comment; simpl.
  - now rewrite app_nil_r.
  - now rewrite IH, append_result_section, <- app_assoc.
Qed.

(** What the loop appends for a result is the text of the specification. *)
Lemma section_text r :
  section_of r
  = title_of r ++ count_of r
      ++ (if length (breakingChanges r) <=? 3 then table_of (breakingChanges r)
          else [])
      ++ link_of r.
Proof.
  unfold section_of, append_result.
  destruct (length (breakingChanges r) <=? 3);
    rewrite ?rows_appended;
    unfold title_of, count_of, count_text, table_of, link_of, link_text,
      heading, count_line, table_head, guide_link;
    flatten_app; reflexivity.
Qed.

Lemma section_rendered r : rendered r (section_of r).
Proof.
  rewrite section_text.
  destruct (Nat.leb_spec (length (breakingChanges r)) 3); now constructor.
Qed.

Lemma generateComment_shape results :
  generateComment results
  = match filter has_breaking results with
    | [] => None
    | r :: rs => Some (header ++ concat (map section_of (r :: rs)) ++ footer)
    end.
Proof.
  unfold generateComment. fold has_breaking.
  destruct (filter has_breaking results) as [|r rs]; [reflexivity|].
  cbn [length Nat.eqb]. now rewrite results_appended, <- app_assoc.
Qed.

(** ** Occurrences of the marker *)

Lemma occurrences_unfold p s :
  occurrences p s
  = (if startsWith s p then 1 else 0)
    + match s with [] => 0 | _ :: s' => occurrences p s' end.
Proof. destruct s; reflexivity. Qed.

(** A text holds a pattern exactly when the pattern occurs in it. *)
Lemma occurrences_zero p s : occurrences p s = 0 <-> includes s p = false.
Proof.
  induction s as [|c s IH].
  - cbn [occurrences includes]. destruct (startsWith [] p); cbn; split;
      (discriminate || reflexivity).
  - rewrite occurrences_unfold. cbn [includes].
    destruct (startsWith (c :: s) p); cbn [orb].
    + split; discriminate.
    + cbn [Nat.add]. exact IH.
Qed.

Lemma lt_free_decimal_go fuel n acc :
  lt_free acc = true -> lt_free (decimal_go fuel n acc) = true.
Proof.
  revert n acc. induction fuel as [|fuel IH]; intros n acc H;
    cbn [decimal_go]; [exact H|].
  assert (Hd : lt_free ((48 + n mod 10)%N :: acc) = true).
  { change (negb (48 + n mod 10 =? 60)%N && lt_free acc = true).
    rewrite H, andb_true_r. apply negb_true_iff, N.eqb_neq.
    pose proof (N.mod_lt n 10 ltac:(discriminate)). lia. }
  destruct (n <? 10)%N; [exact Hd | now apply IH].
Qed.

Lemma lt_free_decimal n : lt_free (decimal n) = true.
Proof. now apply lt_free_decimal_go. Qed.

(** An occurrence of a pattern that begins with [<] cannot begin inside a
    text without [<]. *)
Lemma occurrences_skip p s t :
  lt_free s = true -> occurrences (60%N :: p) (s ++ t) = occurrences (60%N :: p) t.
Proof.
  induction s as [|c s IH]; [reflexivity|].
  cbn [lt_free forallb]. rewrite andb_true_iff, negb_true_iff. intros [Hc Hs].
  change (occurrences (60%N :: p) ((c :: s) ++ t))
    with ((if (60 =? c)%N && startsWith (s ++ t) p then 1 else 0)
          + occurrences (60%N :: p) (s ++ t)).
  rewrite N.eqb_sym, Hc. cbn [andb Nat.add]. now apply IH.
Qed.

Lemma marker_skip s t :
  lt_free s = true -> occurrences marker (s ++ t) = occurrences marker t.
Proof. apply occurrences_skip. Qed.

(** A pattern that begins [a ++ b] begins [a], or runs over the end of [a]
    into [b]. *)
Lemma startsWith_app_inv p :
  forall a b,
    startsWith (a ++ b) p = true ->
    startsWith a p = true
    \/ (length a < length p /\ startsWith b (skipn (length a) p) = true).
Proof.
  induction p as [|c p IH]; intros a b H.
  - left. now destruct a.
  - destruct a as [|x a].
    + right. cbn [length skipn]. split; [lia | exact H].
    + cbn [app startsWith] in H. apply andb_true_iff in H as [Hc H].
      destruct (IH a b H) as [Ha|[Hl Hb]].
      * left. cbn [startsWith]. now rewrite Hc, Ha.
      * right. cbn [length skipn]. split; [lia | exact Hb].
Qed.

Lemma startsWith_app_l a b p :
  startsWith a p = true -> startsWith (a ++ b) p = true.
Proof.
  rewrite !startsWith_iff. intros [t ->]. exists (t ++ b). now rewrite app_assoc.
Qed.

(** The occurrences in [a ++ b] are those in [a] and those in [b] when none
    can begin in [a] and end in [b]. *)
Lemma occurrences_app p a b :
  p <> [] -> seals p b ->
  occurrences p (a ++ b) = occurrences p a + occurrences p b.
Proof.
  intros Hp Hb. induction a as [|x a IH].
  - cbn [app occurrences]. now destruct p.
  - change ((x :: a) ++ b) with (x :: (a ++ b)).
    rewrite (occurrences_unfold p (x :: a ++ b)), (occurrences_unfold p (x :: a)), IH.
    assert (E : startsWith (x :: a ++ b) p = startsWith (x :: a) p).
    { destruct (startsWith (x :: a) p) eqn:Ea.
      - now apply (startsWith_app_l (x :: a) b).
      - destruct (startsWith (x :: a ++ b) p) eqn:Eb; [|reflexivity].
        apply (startsWith_app_inv p (x :: a) b) in Eb.
        destruct Eb as [Eb|[Hl Eb]]; [congruence|].
        rewrite Hb in Eb; [discriminate | cbn [length] in *; lia]. }
    rewrite E. lia.
Qed.

Lemma marker_app a b :
  seals marker b ->
  occurrences marker (a ++ b) = occurrences marker a + occurrences marker b.
Proof. apply occurrences_app. discriminate. Qed.

(** The texts that follow an interpolated text in the comment. *)
Ltac seal :=
  let k := fresh "k" in
  let Hk := fresh "Hk" in
  intros k Hk; change (length marker) with 23 in Hk;
  do 23 (destruct k as [|k]; [first [lia | vm_compute; reflexivity]|]); lia.

Lemma seals_colon rest : seals marker (lit ": " ++ rest).
Proof. seal. Qed.

Lemma seals_arrow rest : seals marker (lit " " ++ [8594%N] ++ rest).
Proof. seal. Qed.

Lemma seals_LF rest : seals marker (LF ++ rest).
Proof. seal. Qed.

Lemma seals_dots rest : seals marker (lit "..." ++ rest).
Proof. seal. Qed.

Lemma seals_bar rest : seals marker (lit " |" ++ rest).
Proof. seal. Qed.

Lemma seals_cell rest : seals marker (lit " | " ++ rest).
Proof. apply (seals_bar (lit " " ++ rest)). Qed.

Lemma seals_paren rest : seals marker (lit ")" ++ rest).
Proof. seal. Qed.

Lemma marker_cut n s b :
  seals marker b ->
  occurrences marker (cut n s ++ b)
  = occurrences marker (firstn n s) + occurrences marker b.
Proof.
  intros Hb. unfold cut. rewrite <- app_assoc. destruct (n <? length s).
  - rewrite marker_app by apply seals_dots.
    now rewrite marker_skip by reflexivity.
  - now rewrite marker_app by exact Hb.
Qed.

Abbreviation occ := (occurrences marker).

Lemma list_sum_cons x l : list_sum (x :: l) = x + list_sum l.
Proof. reflexivity. Qed.

Lemma marker_row bc rest :
  occ (row_of bc ++ rest)
  = occ (firstn 80 (change bc))
    + occ (firstn 60 (match fix_ bc with Some f => f | None => [] end))
    + occ rest.
Proof.
  unfold row_of. rewrite <- !app_assoc.
  rewrite marker_skip by reflexivity.
  rewrite marker_cut by apply seals_cell.
  rewrite marker_skip by reflexivity.
  destruct (fix_ bc) as [[|c f]|].
  - rewrite !marker_skip by reflexivity. cbn [firstn]. change (occ []) with 0. lia.
  - rewrite marker_cut by apply seals_bar.
    rewrite !marker_skip by reflexivity. lia.
  - rewrite !marker_skip by reflexivity. cbn [firstn]. change (occ []) with 0. lia.
Qed.

Lemma marker_rows bcs rest :
  occ (concat (map row_of bcs) ++ rest)
  = list_sum
      (map occ
           (flat_map (fun bc =>
                        [ firstn 80 (change bc);
                          firstn 60 (match fix_ bc with Some f => f | None => [] end) ])
                     bcs))
    + occ rest.
Proof.
  induction bcs as [|bc bcs IH]; [reflexivity|].
  cbn [map concat flat_map app]. rewrite !list_sum_cons, <- app_assoc, marker_row, IH. lia.
Qed.

(** The occurrences in a section are those in the texts written for its
    result. *)
Lemma marker_section r rest :
  occ (section_of r ++ rest)
  = list_sum (map occ (written_texts r)) + occ rest.
Proof.
  rewrite section_text.
  unfold written_texts, title_of, count_of, count_text, table_of, link_of, link_text.
  rewrite <- !app_assoc.
  rewrite marker_skip by reflexivity.
  rewrite marker_app by apply seals_colon.
  rewrite marker_skip by reflexivity.
  rewrite marker_app by apply seals_arrow.
  rewrite !marker_skip by reflexivity.
  rewrite marker_app by apply seals_LF.
  rewrite !marker_skip by reflexivity.
  rewrite (marker_skip (decimal _)) by apply lt_free_decimal.
  rewrite !marker_skip by reflexivity.
  rewrite !map_app, !list_sum_app. cbn [map]. rewrite !list_sum_cons.
  change (list_sum []) with 0.
  destruct (length (breakingChanges r) <=? 3).
  - rewrite <- !app_assoc.
    rewrite !marker_skip by reflexivity.
    rewrite marker_rows.
    rewrite !marker_skip by reflexivity.
    rewrite marker_app by apply seals_paren.
    rewrite !marker_skip by reflexivity.
    rewrite ?Nat.add_0_r, !Nat.add_assoc. reflexivity.
  - change (list_sum (map occ [])) with 0. rewrite app_nil_l.
    rewrite !marker_skip by reflexivity.
    rewrite marker_app by apply seals_paren.
    rewrite !marker_skip by reflexivity. lia.
Qed.

Lemma marker_sections rs rest :
  occ (concat (map section_of rs) ++ rest)
  = list_sum (map (fun r => list_sum (map occ (written_texts r))) rs) + occ rest.
Proof.
  induction rs as [|r rs IH]; [reflexivity|].
  cbn [map concat]. rewrite list_sum_cons, <- app_assoc, marker_section, IH. lia.
Qed.

(** The marker occurs once in the header and not in the footer, so the
    occurrences in a comment are that one and those in the texts written. *)
Lemma marker_comment rs :
  occ (header ++ concat (map section_of rs) ++ footer)
  = 1 + list_sum (map (fun r => list_sum (map occ (written_texts r))) rs).
Proof.
  unfold header. rewrite <- !app_assoc.
  rewrite marker_app by apply seals_LF.
  rewrite !marker_skip by reflexivity.
  rewrite marker_sections.
  change (occ marker) with 1. change (occ footer) with 0. lia.
Qed.

Lemma list_sum_zero l : list_sum l = 0 <-> forall x, In x l -> x = 0.
Proof.
  induction l as [|x l IH].
  - split; [intros _ y [] | reflexivity].
  - rewrite list_sum_cons. cbn [In]. split.
    + intros H y [<-|Hy]; [lia | apply IH; [lia | exact Hy]].
    + intros H. rewrite (H x) by now left.
      apply IH. intros y Hy. apply H. now right.
Qed.

End IndexFacts.

Section Formatter.

Import Api Index FormatterSpec IndexFacts.

Lemma filter_has_breaking_nil results :
  filter has_breaking results = [] <-> forall r, In r results -> breakingChanges r = [].
Proof.
  split.
  - intros E r Hin. destruct (breakingChanges r) as [|bc bcs] eqn:Eb; [reflexivity|].
    assert (H : In r (filter has_breaking results)).
    { apply filter_In. split; [exact Hin|]. unfold has_breaking. now rewrite Eb. }
    rewrite E in H. contradiction.
  - intros H. destruct (filter has_breaking results) as [|r rs] eqn:E; [reflexivity|].
    assert (Hin : In r (filter has_breaking results)) by (rewrite E; now left).
    apply filter_In in Hin. destruct Hin as [Hin Hb].
    unfold has_breaking in Hb. rewrite (H r Hin) in Hb. discriminate.
Qed.

Lemma In_has_breaking results r :
  In r (filter has_breaking results) <-> In r results /\ breakingChanges r <> [].
Proof.
  rewrite filter_In. unfold has_breaking.
  destruct (breakingChanges r); cbn; split; intros [H1 H2]; split;
    congruence || (try discriminate).
Qed.

Lemma Some_inj (A : Type) (x y : A) : Some x = Some y -> x = y.
Proof. congruence. Qed.

(** The marker occurs once in a comment exactly when it occurs in none of
    the texts written for the results rendered. *)
Lemma marker_once rs :
  occurrences marker (header ++ concat (map section_of rs) ++ footer) = 1
  <-> forall r, In r rs -> marker_free r.
Proof.
  rewrite marker_comment.
  transitivity
    (list_sum (map (fun r => list_sum (map (occurrences marker) (written_texts r))) rs)
     = 0); [lia|].
  rewrite list_sum_zero. unfold marker_free. split.
  - intros H r Hr. apply Forall_forall. intros text Ht.
    apply occurrences_zero.
    assert (Hs : list_sum (map (occurrences marker) (written_texts r)) = 0).
    { apply H. apply in_map_iff. now exists r. }
    rewrite list_sum_zero in Hs. apply Hs. now apply in_map.
  - intros H x Hx. apply in_map_iff in Hx as (r & <- & Hr).
    apply list_sum_zero. intros y Hy. apply in_map_iff in Hy as (text & <- & Ht).
    apply occurrences_zero. specialize (H r Hr).
    rewrite Forall_forall in H. now apply H.
Qed.

(** C6 (amended). [generateComment] returns [null] exactly when every result
    has an empty [breakingChanges]. Otherwise the string it returns begins
    with the marker, and the marker occurs in it exactly once if and only if
    it occurs in none of the texts written for a result with breaking
    changes: the package, the two versions, the migration URL and, for a
    result with at most three breaking changes, the first 80 code units of
    each change text and the first 60 of each fix text. *)
Theorem C6_null_iff_and_marker results :
  (generateComment results = None
   <-> forall r, In r results -> breakingChanges r = [])
  /\ (forall out, generateComment results = Some out ->
        startsWith out marker = true /\ 1 <= occurrences marker out)
  /\ (forall out, generateComment results = Some out ->
        (occurrences marker out = 1
         <-> forall r, In r results -> breakingChanges r <> [] -> marker_free r)).
Proof.
  rewrite generateComment_shape. split; [split|split].
  - intros H. apply filter_has_breaking_nil.
    now destruct (filter has_breaking results).
  - intros H. apply filter_has_breaking_nil in H. now rewrite H.
  - intros out H.
    destruct (filter has_breaking results) as [|r rs]; [discriminate|].
    apply Some_inj in H. subst out.
    assert (Hs : startsWith (header ++ concat (map section_of (r :: rs)) ++ footer)
                            marker = true).
    { apply startsWith_iff. unfold header. rewrite <- !app_assoc. eauto. }
    split; [exact Hs|]. rewrite occurrences_unfold, Hs. lia.
  - intros out H.
    destruct (filter has_breaking results) as [|r rs] eqn:E; [discriminate|].
    apply Some_inj in H. subst out. rewrite marker_once, <- E. split.
    + intros Hm r' Hin Hb. apply Hm. now apply In_has_breaking.
    + intros Hm r' Hin. apply In_has_breaking in Hin as [Hin Hb]. now apply Hm.
Qed.

(** C6, witness: a breaking change about [Array<T>], whose text holds a [<]
    but not the marker; the marker occurs once. *)
Lemma C6_null_iff_and_marker_witness :
  exists out, generateComment [quiet_result; generics_result] = Some out
              /\ occurrences marker out = 1.
Proof.
  destruct (generateComment [quiet_result; generics_result]) as [out|] eqn:E.
  - exists out. split; [reflexivity|].
    apply (proj2 (proj2 (C6_null_iff_and_marker [quiet_result; generics_result]))
                 out E).
    intros r [<-|[<-|[]]] Hb.
    + exfalso. apply Hb. reflexivity.
    + unfold marker_free. repeat constructor.
  - vm_compute in E. discriminate.
Defined.

(** C6, counterexample: a breaking change whose text is the marker makes the
    marker occur twice in the comment. *)
Lemma C6_counterexample_marker_twice :
  option_map (occurrences marker) (generateComment [echo_result]) = Some 2.
Proof. vm_compute. reflexivity. Qed.

(** The count and the link can be read in a section as specified. *)
Lemma rendered_shows r s :
  rendered r s ->
  includes s (count_text r) = true /\ includes s (link_text r) = true.
Proof.
  intros [H|H]; split.
  - replace (title_of r ++ count_of r ++ table_of (breakingChanges r) ++ link_of r)
      with ((title_of r ++ [9888%N; 65039%N] ++ lit " **") ++ count_text r
              ++ (lit "**" ++ LF ++ LF ++ table_of (breakingChanges r) ++ link_of r))
      by (unfold count_of; rewrite <- !app_assoc; reflexivity).
    apply includes_after.
  - replace (title_of r ++ count_of r ++ table_of (breakingChanges r) ++ link_of r)
      with ((title_of r ++ count_of r ++ table_of (breakingChanges r)
               ++ [55357%N; 56534%N] ++ lit " **") ++ link_text r
              ++ (lit "**" ++ LF ++ LF ++ lit "---" ++ LF ++ LF))
      by (unfold link_of; rewrite <- !app_assoc; reflexivity).
    apply includes_after.
  - replace (title_of r ++ count_of r ++ link_of r)
      with ((title_of r ++ [9888%N; 65039%N] ++ lit " **") ++ count_text r
              ++ (lit "**" ++ LF ++ LF ++ link_of r))
      by (unfold count_of; rewrite <- !app_assoc; reflexivity).
    apply includes_after.
  - replace (title_of r ++ count_of r ++ link_of r)
      with ((title_of r ++ count_of r ++ [55357%N; 56534%N] ++ lit " **")
              ++ link_text r ++ (lit "**" ++ LF ++ LF ++ lit "---" ++ LF ++ LF))
      by (unfold link_of; rewrite <- !app_assoc; reflexivity).
    apply includes_after.
Qed.

(** C7. The comment is the header, one section per result that has breaking
    changes, in input order, and the footer. The section of a result with
    more than three breaking changes is its title, its count line and its
    migration link, with no table in between; the section of a result with
    at most three has the table, one row per breaking change, between the
    count line and the link. In both, the count of breaking changes and the
    link to the migration URL can be read. The texts of the title, the count
    line, the table and the link are those of [FormatterSpec]. *)
Theorem C7_table_only_up_to_three results out :
  generateComment results = Some out ->
  exists sections,
    out = header ++ concat sections ++ footer
    /\ Forall2 (fun r s => rendered r s
                           /\ includes s (count_text r) = true
                           /\ includes s (link_text r) = true)
               (filter has_breaking results) sections.
Proof.
  rewrite generateComment_shape.
  destruct (filter has_breaking results) as [|r rs]; [discriminate|].
  intros H. apply Some_inj in H. subst out.
  exists (map section_of (r :: rs)). split; [reflexivity|].
  generalize (r :: rs). intros l. induction l as [|x l IH]; simpl; constructor.
  - split; [apply section_rendered | apply rendered_shows, section_rendered].
  - exact IH.
Qed.

(** C7, witness: one result with four breaking changes and one with a single
    breaking change. *)
Lemma C7_table_only_up_to_three_witness :
  exists out s4 s1,
    generateComment [four_changes; langchain_result] = Some out
    /\ out = header ++ s4 ++ s1 ++ footer
    /\ s4 = title_of four_changes ++ count_of four_changes ++ link_of four_changes
    /\ s1 = title_of langchain_result ++ count_of langchain_result
              ++ table_of (breakingChanges langchain_result)
              ++ link_of langchain_result.
Proof.
  destruct (generateComment [four_changes; langchain_result]) as [out|] eqn:E.
  - destruct (C7_table_only_up_to_three [four_changes; langchain_result] E)
      as (sections & Hout & Hs).
    cbn [filter has_breaking four_changes langchain_result breakingChanges
           length map Nat.ltb Nat.leb] in Hs.
    inversion Hs as [|r4 s4 l4 l4' [H4 _] Hs' E1 E2]; subst.
    inversion Hs' as [|r1 s1 l1 l1' [H1 _] Hs'' E1 E2]; subst.
    inversion Hs''; subst.
    eexists _, s4, s1. split; [reflexivity|]. split.
    + cbn [concat]. now rewrite app_nil_r, <- app_assoc.
    + split.
      * inversion H4 as [Hl|Hl]; [cbn in Hl; lia | reflexivity].
      * inversion H1 as [Hl|Hl]; [reflexivity | cbn in Hl; lia].
  - vm_compute in E. discriminate.
Defined.

(** The two sections of the witness, code unit by code unit. *)
Example four_changes_text :
  section_of four_changes
  = lit "### react: 17.0.0 " ++ [8594%N] ++ lit " 18.0.0" ++ LF ++ LF
      ++ [9888%N; 65039%N] ++ lit " **4 breaking change(s) detected**" ++ LF ++ LF
      ++ [55357%N; 56534%N] ++ lit " **[Full Migration Guide " ++ [8594%N]
      ++ lit "](https://www.change8.dev/guides/react/migrating-to-18.0.0)**"
      ++ LF ++ LF ++ lit "---" ++ LF ++ LF.
Proof. vm_compute. reflexivity. Qed.

Example langchain_text :
  section_of langchain_result
  = lit "### langchain: 0.2.0 " ++ [8594%N] ++ lit " 1.0.0" ++ LF ++ LF
      ++ [9888%N; 65039%N] ++ lit " **1 breaking change(s) detected**" ++ LF ++ LF
      ++ lit "| Issue | Fix |" ++ LF ++ lit "|-------|-----|" ++ LF
      ++ lit "| ChatOpenAI moved | Update import |" ++ LF ++ LF
      ++ [55357%N; 56534%N] ++ lit " **[Full Migration Guide " ++ [8594%N]
      ++ lit "](https://www.change8.dev/guides/langchain/migrating-to-1.0.0)**"
      ++ LF ++ LF ++ lit "---" ++ LF ++ LF.
Proof. vm_compute. reflexivity. Qed.

Example four_changes_section :
  generateComment [four_changes]
  = Some (header ++ heading four_changes ++ count_line four_changes
            ++ guide_link four_changes ++ footer).
Proof. vm_compute. reflexivity. Qed.

End Formatter.

Section Orchestrator.

Import Index FormatterSpec.

Lemma endsWith_self dir p : endsWith (dir ++ p) p = true.
Proof. apply endsWith_iff. now exists dir. Qed.

(** C8 (amended). The orchestrator takes a changed file for a manifest when
    its path is [requirements.txt], [package.json] or [pyproject.toml], or
    ends in [/requirements.txt] or [/package.json]; every other changed file
    is ignored, and that includes a [pyproject.toml] in a subdirectory. *)
Theorem C8_recognised_manifests :
  (forall filename,
      is_dependency_file filename = true
      <-> filename = lit "requirements.txt"
          \/ filename = lit "package.json"
          \/ filename = lit "pyproject.toml"
          \/ (exists dir, filename = dir ++ lit "/requirements.txt")
          \/ (exists dir, filename = dir ++ lit "/package.json"))
  /\ (forall JSON_parse getContent filename,
         is_dependency_file filename = false ->
         allChanges JSON_parse getContent [filename] = [])
  /\ (forall dir, is_dependency_file (dir ++ lit "/pyproject.toml") = false).
Proof.
  split; [|split].
  - intros filename. unfold is_dependency_file.
    rewrite !orb_true_iff, !eqb_eq, !endsWith_iff. tauto.
  - intros JSON_parse getContent filename H.
    unfold allChanges, depFiles. simpl. now rewrite H.
  - intros dir. unfold is_dependency_file.
    pose proof (endsWith_self dir (lit "/pyproject.toml")) as Hs.
    assert (E1 : endsWith (dir ++ lit "/pyproject.toml") (lit "/requirements.txt") = false).
    { apply (@endsWith_last_differs _ (lit "/pyproject.tom")
               (lit "/requirements.tx") 108%N 116%N); [discriminate | exact Hs]. }
    assert (E2 : endsWith (dir ++ lit "/pyproject.toml") (lit "/package.json") = false).
    { apply (@endsWith_last_differs _ (lit "/pyproject.tom")
               (lit "/package.jso") 108%N 110%N); [discriminate | exact Hs]. }
    rewrite E1, E2, !orb_false_r.
    assert (Hne : forall name, endsWith name (lit "/pyproject.toml") = false ->
                               eqb (dir ++ lit "/pyproject.toml") name = false).
    { intros name Hn. apply eqb_neq. intros E. rewrite E in Hs. congruence. }
    rewrite !Hne by (vm_compute; reflexivity). reflexivity.
Qed.

(** C8, witness: the theorem at [backend/pyproject.toml]. *)
Lemma C8_recognised_manifests_witness :
  allChanges (DifferSpec.parse_table []) backend_repository
             [lit "backend/pyproject.toml"] = [].
Proof.
  apply (proj1 (proj2 C8_recognised_manifests)).
  apply (proj2 (proj2 C8_recognised_manifests) (lit "backend")).
Defined.

(** C8, counterexample: [backend/pyproject.toml] ends in [/pyproject.toml]
    and the differ would report its update, yet the orchestrator does not
    take it for a manifest and collects nothing from it. *)
Lemma C8_counterexample_nested_pyproject :
  endsWith (lit "backend/pyproject.toml") (lit "/pyproject.toml") = true
  /\ is_dependency_file (lit "backend/pyproject.toml") = false
  /\ Parsers.parseDependencyChanges (DifferSpec.parse_table [])
       (lit "backend/pyproject.toml")
       (content_at backend_repository (lit "backend/pyproject.toml") baseSha)
       (content_at backend_repository (lit "backend/pyproject.toml") headSha)
     = Ok [ {| Parsers.package := lit "fastapi";
               Parsers.fromVersion := VString (lit "0.99.0");
               Parsers.toVersion := lit "0.100.0";
               Parsers.ecosystem := Parsers.pypi |} ]
  /\ allChanges (DifferSpec.parse_table []) backend_repository
                [lit "backend/pyproject.toml"] = [].
Proof. vm_compute. repeat split. Qed.

Example nested_requirements_recognised :
  is_dependency_file (lit "services/api/requirements.txt") = true
  /\ is_dependency_file (lit "web/package.json") = true
  /\ is_dependency_file (lit "pyproject.toml") = true
  /\ is_dependency_file (lit "dev-requirements.txt") = false.
Proof. vm_compute. repeat split. Qed.

End Orchestrator.

(* ================================================================== *)
(** * More about the differ *)
(* ================================================================== *)

Module RegexFacts.

Import ExtraSpec.

(** What a greedy quantifier took is a run of its class, long enough, and the
    rest of the pattern matched after it. *)
Lemma greedy_sound (R : Type) c (k : jsstring -> jsstring -> option R) s :
  forall need taken r,
    greedy c k need taken s = Some r ->
    exists run rest,
      s = run ++ rest /\ forallb c run = true /\ need <= length run
      /\ k (taken ++ run) rest = Some r.
Proof.
  induction s as [|x s IH]; intros need taken r H.
  - cbn [greedy] in H. destruct need; [|discriminate].
    exists [], []. rewrite (app_nil_r taken). cbn. auto.
  - cbn [greedy] in H.
    assert (Hstop : match need with 0 => k taken (x :: s) | S _ => None end = Some r ->
                    exists run rest,
                      x :: s = run ++ rest /\ forallb c run = true
                      /\ need <= length run /\ k (taken ++ run) rest = Some r).
    { intros Hs. destruct need; [|discriminate].
      exists [], (x :: s). rewrite (app_nil_r taken). cbn. auto. }
    destruct (c x) eqn:Hc; [|now apply Hstop].
    destruct (greedy c k (pred need) (taken ++ [x]) s) as [r'|] eqn:Hg;
      [|now apply Hstop].
    injection H as ->. apply IH in Hg.
    destruct Hg as (run & rest & -> & Hrun & Hlen & Hk).
    exists (x :: run), rest. cbn [forallb length app]. rewrite Hc, Hrun.
    rewrite <- app_assoc in Hk. repeat split; auto. lia.
Qed.

(** A run of the class that nothing of the class follows is taken whole. *)
Lemma greedy_run (R : Type) c (k : jsstring -> jsstring -> option R) run :
  forall need taken rest r,
    forallb c run = true -> stops c rest -> need <= length run ->
    k (taken ++ run) rest = Some r ->
    greedy c k need taken (run ++ rest) = Some r.
Proof.
  induction run as [|x run IH]; intros need taken rest r Hrun Hstop Hlen Hk.
  - rewrite app_nil_r in Hk. cbn [app]. cbn [length] in Hlen.
    assert (need = 0) by lia. subst need.
    destruct rest as [|y rest]; cbn [greedy]; [exact Hk|].
    cbn [stops] in Hstop. now rewrite Hstop.
  - cbn [forallb] in Hrun. apply andb_true_iff in Hrun as [Hx Hrun].
    cbn [app greedy]. rewrite Hx.
    rewrite (IH (pred need) (taken ++ [x]) rest r); auto.
    + cbn [length] in Hlen. lia.
    + now rewrite <- app_assoc.
Qed.

Lemma match_here_quantified_inv a re s caps rest :
  rep a <> Once ->
  match_here (a :: re) s = Some (caps, rest) ->
  exists run s1 caps',
    s = run ++ s1 /\ forallb (cls a) run = true
    /\ (rep a = Plus -> run <> [])
    /\ match_here re s1 = Some (caps', rest)
    /\ caps = if capture a then run :: caps' else caps'.
Proof.
  intros Hrep H. cbn [match_here] in H.
  destruct (rep a) eqn:Er; [congruence| |];
    apply greedy_sound in H; destruct H as (run & s1 & -> & Hrun & Hlen & Hk);
    cbn [app] in Hk;
    destruct (match_here re s1) as [[caps' r]|] eqn:Em; try discriminate;
    injection Hk as <- <-; exists run, s1, caps'; repeat split; auto;
    try discriminate.
  intros _ ->. cbn [length] in Hlen. lia.
Qed.

Lemma match_here_once_inv a re s caps rest :
  rep a = Once ->
  match_here (a :: re) s = Some (caps, rest) ->
  exists x s1 caps',
    s = x :: s1 /\ cls a x = true
    /\ match_here re s1 = Some (caps', rest)
    /\ caps = if capture a then [x] :: caps' else caps'.
Proof.
  intros Hrep H. cbn [match_here] in H. rewrite Hrep in H.
  destruct s as [|x s1]; [discriminate|].
  destruct (cls a x) eqn:Hc; [|discriminate].
  destruct (match_here re s1) as [[caps' r]|] eqn:Em; [|discriminate].
  injection H as <- <-. exists x, s1, caps'. auto.
Qed.

Lemma match_here_quantified_run a re run s1 caps' rest :
  rep a <> Once ->
  forallb (cls a) run = true -> stops (cls a) s1 ->
  (rep a = Plus -> run <> []) ->
  match_here re s1 = Some (caps', rest) ->
  match_here (a :: re) (run ++ s1)
  = Some (if capture a then run :: caps' else caps', rest).
Proof.
  intros Hrep Hrun Hstop Hne Hm. cbn [match_here].
  destruct (rep a) eqn:Er; [congruence| |];
    apply greedy_run; auto; cbn [app]; try (now rewrite Hm); try lia.
  destruct run; [now exfalso; apply Hne | cbn [length]; lia].
Qed.

End RegexFacts.

Module ClassFacts.

Import Parsers.

Ltac literal_classes :=
  unfold name_char, op_char, version_char, quote_char, range_qualifier, is_space,
    is_lower, is_upper, is_digit, between, one_of in *;
  repeat match goal with
         | |- context [lit ?s] =>
             let l := eval vm_compute in (lit s) in change (lit s) with l
         | H : context [lit ?s] |- _ =>
             let l := eval vm_compute in (lit s) in change (lit s) with l in H
         end;
  cbn [existsb] in *.

Ltac to_prop H :=
  rewrite ?orb_true_iff, ?andb_true_iff, ?N.eqb_eq, ?N.leb_le in H.

(** [A c = true -> B c = false] for two disjoint classes. *)
Ltac disjoint_classes :=
  let H := fresh "H" in
  let G := fresh "G" in
  intros H; apply not_true_iff_false; intros G;
  literal_classes; to_prop H; to_prop G; lia.

Lemma name_not_space c : name_char c = true -> is_space c = false.
Proof. disjoint_classes. Qed.

Lemma name_not_op c : name_char c = true -> op_char c = false.
Proof. disjoint_classes. Qed.

Lemma space_not_name c : is_space c = true -> name_char c = false.
Proof. disjoint_classes. Qed.

Lemma space_not_op c : is_space c = true -> op_char c = false.
Proof. disjoint_classes. Qed.

Lemma op_not_name c : op_char c = true -> name_char c = false.
Proof. disjoint_classes. Qed.

Lemma op_not_space c : op_char c = true -> is_space c = false.
Proof. disjoint_classes. Qed.

Lemma op_not_version c : op_char c = true -> version_char c = false.
Proof. disjoint_classes. Qed.

Lemma version_not_space c : version_char c = true -> is_space c = false.
Proof. disjoint_classes. Qed.

Lemma version_not_op c : version_char c = true -> op_char c = false.
Proof. disjoint_classes. Qed.

Lemma version_not_line_feed c : version_char c = true -> (c =? 10)%N = false.
Proof. disjoint_classes. Qed.

Lemma name_not_hash c : name_char c = true -> (35 =? c)%N = false.
Proof. disjoint_classes. Qed.

Lemma name_lower c : name_char c = true -> name_char (lower c) = true.
Proof.
  intros H. unfold lower. destruct (is_upper c) eqn:E; [|exact H].
  literal_classes. to_prop E.
  rewrite ?orb_true_iff, ?andb_true_iff, ?N.eqb_eq, ?N.leb_le. lia.
Qed.

End ClassFacts.

Module DifferMore.

Import Parsers DifferSpec ExtraSpec ParsersFacts RegexFacts ClassFacts.

Lemma flat_map_nil (A B : Type) (f : A -> list B) l :
  (forall x, In x l -> f x = []) -> flat_map f l = [].
Proof.
  induction l as [|x l IH]; intros H; simpl; [reflexivity|].
  rewrite (H x) by now left. apply IH. intros y Hy. apply H. now right.
Qed.

Lemma Object_entries_NoDup o :
  NoDup (map fst o) -> NoDup (map fst (Object_entries o)).
Proof.
  intros H. eapply Permutation_NoDup; [|exact H].
  apply Permutation_map. symmetry. apply Object_entries_perm.
Qed.

Lemma parseReqLines_NoDup content : NoDup (map fst (parseReqLines content)).
Proof. rewrite parseReqLines_assigns. apply assigned_NoDup. constructor. Qed.

Lemma parsePyprojectDeps_NoDup content : NoDup (map fst (parsePyprojectDeps content)).
Proof. rewrite parsePyprojectDeps_assigns. apply assigned_NoDup. constructor. Qed.

(** What a match of the requirement pattern is made of. *)
Lemma requirement_re_inv s caps rest :
  match_here requirement_re s = Some (caps, rest) ->
  exists name ws1 op ws2 ver,
    caps = [name; op; ver]
    /\ s = name ++ ws1 ++ op ++ ws2 ++ ver ++ rest
    /\ (name <> [] /\ forallb name_char name = true)
    /\ forallb is_space ws1 = true
    /\ (op <> [] /\ forallb op_char op = true)
    /\ forallb is_space ws2 = true
    /\ (ver <> [] /\ forallb version_char ver = true).
Proof.
  intros H. unfold requirement_re in H.
  apply match_here_quantified_inv in H; [|discriminate].
  destruct H as (name & s1 & caps1 & -> & Hname & Hn & H & ->).
  apply match_here_quantified_inv in H; [|discriminate].
  destruct H as (ws1 & s2 & caps2 & -> & Hws1 & _ & H & ->).
  apply match_here_quantified_inv in H; [|discriminate].
  destruct H as (op & s3 & caps3 & -> & Hop & Ho & H & ->).
  apply match_here_quantified_inv in H; [|discriminate].
  destruct H as (ws2 & s4 & caps4 & -> & Hws2 & _ & H & ->).
  apply match_here_quantified_inv in H; [|discriminate].
  destruct H as (ver & s5 & caps5 & -> & Hver & Hv & H & ->).
  cbn [match_here] in H. injection H as <- <-.
  exists name, ws1, op, ws2, ver. cbn [capture].
  repeat split; auto.
Qed.

(** A string of the requirement shape matches, with its name and version as
    groups. *)
Lemma requirement_re_run name ws1 op ws2 ver :
  name <> [] -> forallb name_char name = true ->
  forallb is_space ws1 = true ->
  op <> [] -> forallb op_char op = true ->
  forallb is_space ws2 = true ->
  ver <> [] -> forallb version_char ver = true ->
  match_here requirement_re (name ++ ws1 ++ op ++ ws2 ++ ver)
  = Some ([name; op; ver], []).
Proof.
  intros Hn Hname Hws1 Ho Hop Hws2 Hv Hver. unfold requirement_re.
  destruct op as [|o op']; [congruence|]. destruct ver as [|v ver']; [congruence|].
  pose proof Hop as Hop'. pose proof Hver as Hver'.
  cbn [forallb] in Hop, Hver.
  apply andb_true_iff in Hop as [Ho1 Hop]. apply andb_true_iff in Hver as [Hv1 Hver].
  assert (S5 : match_here [Atom version_char Plus true] ((v :: ver') ++ [])
               = Some ([v :: ver'], [])).
  { apply (@match_here_quantified_run (Atom version_char Plus true) [] (v :: ver') [] [] []);
      cbn; auto; discriminate. }
  rewrite app_nil_r in S5.
  assert (S4 : match_here [Atom is_space Star false; Atom version_char Plus true]
                 (ws2 ++ v :: ver') = Some ([v :: ver'], [])).
  { apply (@match_here_quantified_run (Atom is_space Star false) _ ws2 (v :: ver')
             [v :: ver'] []); cbn; auto; try discriminate.
    now apply version_not_space. }
  assert (S3 : match_here [Atom op_char Plus true; Atom is_space Star false;
                           Atom version_char Plus true]
                 ((o :: op') ++ ws2 ++ v :: ver') = Some ([o :: op'; v :: ver'], [])).
  { apply (@match_here_quantified_run (Atom op_char Plus true) _ (o :: op')
             (ws2 ++ v :: ver') [v :: ver'] []); cbn [cls rep capture]; auto;
      try discriminate.
    destruct ws2 as [|w ws2']; cbn [app stops].
    - now apply version_not_op.
    - cbn [forallb] in Hws2. apply andb_true_iff in Hws2 as [Hw _].
      now apply space_not_op. }
  assert (S2 : match_here [Atom is_space Star false; Atom op_char Plus true;
                           Atom is_space Star false; Atom version_char Plus true]
                 (ws1 ++ (o :: op') ++ ws2 ++ v :: ver')
               = Some ([o :: op'; v :: ver'], [])).
  { apply (@match_here_quantified_run (Atom is_space Star false) _ ws1
             ((o :: op') ++ ws2 ++ v :: ver') [o :: op'; v :: ver'] []);
      cbn [cls rep capture]; auto; try discriminate.
    cbn [app stops]. now apply op_not_space. }
  apply (@match_here_quantified_run (Atom name_char Plus true) _ name
           (ws1 ++ (o :: op') ++ ws2 ++ v :: ver') [o :: op'; v :: ver'] []);
    cbn [cls rep capture]; auto; try discriminate.
  destruct ws1 as [|w ws1']; cbn [app stops].
  - now apply op_not_name.
  - cbn [forallb] in Hws1. apply andb_true_iff in Hws1 as [Hw _].
    now apply space_not_name.
Qed.

(** Each match of the loop of a global pattern is a match at some position. *)
Lemma exec_all_In re caps s :
  forall skip,
    In caps (exec_all re skip s) ->
    exists before here rest,
      s = before ++ here /\ match_here re here = Some (caps, rest).
Proof.
  induction s as [|x s IH]; intros skip H; cbn [exec_all] in H; [contradiction|].
  assert (Hrec : forall k, In caps (exec_all re k s) ->
                 exists before here rest,
                   x :: s = before ++ here /\ match_here re here = Some (caps, rest)).
  { intros k Hk. apply IH in Hk. destruct Hk as (before & here & rest & -> & Hm).
    now exists (x :: before), here, rest. }
  destruct skip as [|k]; [|now apply Hrec with k].
  destruct (match_here re (x :: s)) as [[caps' rest']|] eqn:Em.
  - destruct H as [<-|H]; [|now apply Hrec in H].
    now exists [], (x :: s), rest'.
  - now apply Hrec in H.
Qed.

(** *** Trimming *)

Lemma trimStart_spaces lead s :
  forallb is_space lead = true -> stops is_space s ->
  trimStart (lead ++ s) = s.
Proof.
  intros Hl Hs. induction lead as [|c lead IH]; cbn [app].
  - destruct s as [|x s]; [reflexivity|]. cbn [trimStart]. cbn in Hs. now rewrite Hs.
  - cbn [forallb] in Hl. apply andb_true_iff in Hl as [Hc Hl].
    cbn [trimStart]. rewrite Hc. now apply IH.
Qed.

Lemma forallb_rev (A : Type) (f : A -> bool) l :
  forallb f l = true -> forallb f (rev l) = true.
Proof.
  rewrite !forallb_forall. intros H x Hx. apply H. now apply in_rev.
Qed.

Lemma stops_rev_last c d l x :
  c x = true -> (forall y, c y = true -> d y = false) -> stops d (rev (l ++ [x])).
Proof. intros Hx Hd. rewrite rev_app_distr. cbn. now apply Hd. Qed.

Lemma trim_spaces lead core trail :
  forallb is_space lead = true -> forallb is_space trail = true ->
  stops is_space core -> stops is_space (rev core) ->
  trim (lead ++ core ++ trail) = core.
Proof.
  intros Hl Ht Hc Hr. unfold trim.
  destruct core as [|x core'].
  - cbn [app]. rewrite <- (app_nil_r (lead ++ trail)).
    rewrite trimStart_spaces; cbn; auto.
    rewrite forallb_app. now rewrite Hl, Ht.
  - rewrite trimStart_spaces; auto.
    rewrite rev_app_distr. rewrite trimStart_spaces; auto.
    + apply rev_involutive.
    + now apply forallb_rev.
Qed.

End DifferMore.

Section DifferExtras.

Import Parsers DifferSpec ExtraSpec ParsersFacts RegexFacts ClassFacts DifferMore.

Lemma startsWith_one_false x s c :
  (c =? x)%N = false -> startsWith (x :: s) [c] = false.
Proof. intros H. cbn [startsWith]. now rewrite H. Qed.

Lemma startsWith_one_inv x s c :
  startsWith (x :: s) [c] = false -> (c =? x)%N = false.
Proof.
  cbn [startsWith]. destruct (c =? x)%N; [|reflexivity].
  now destruct s.
Qed.

(** The groups of a recorded line. *)
Lemma req_line_match_groups line name version :
  req_line_match line = Some (name, version) ->
  (name <> [] /\ forallb name_char name = true)
  /\ (version <> [] /\ forallb version_char version = true).
Proof.
  unfold req_line_match. intros H.
  destruct (_ || _ || _); [discriminate|].
  unfold match_anchored in H.
  destruct (match_here requirement_re (trim line)) as [[caps rest]|] eqn:Em;
    [|discriminate].
  apply requirement_re_inv in Em.
  destruct Em as (n & ws1 & op & ws2 & ver & -> & _ & Hn & _ & _ & _ & Hv).
  cbn in H. injection H as <- <-. auto.
Qed.

(** X1. A line that [parseReqLines] records has, once trimmed, the shape
    name, spaces, operators, spaces, version, then anything: the name is a
    non-empty run of [a-zA-Z0-9_-] that does not begin with [-], the operator
    a non-empty run of [=~<>!], the version a non-empty run of digits and
    dots. *)
Theorem requirement_line_shape line name version :
  req_line_match line = Some (name, version) ->
  exists ws1 op ws2 rest,
    trim line = name ++ ws1 ++ op ++ ws2 ++ version ++ rest
    /\ (name <> [] /\ forallb name_char name = true
        /\ startsWith name (lit "-") = false)
    /\ forallb is_space ws1 = true
    /\ (op <> [] /\ forallb op_char op = true)
    /\ forallb is_space ws2 = true
    /\ (version <> [] /\ forallb version_char version = true).
Proof.
  unfold req_line_match. intros H.
  destruct (trim line) as [|x t] eqn:Et; [discriminate|]. cbn [orb] in H.
  destruct (startsWith (x :: t) (lit "#")); [discriminate|]. cbn [orb] in H.
  destruct (startsWith (x :: t) (lit "-")) eqn:Ed; [discriminate|].
  unfold match_anchored in H.
  destruct (match_here requirement_re (x :: t)) as [[caps rest]|] eqn:Em;
    [|discriminate].
  apply requirement_re_inv in Em.
  destruct Em as (n & ws1 & op & ws2 & ver & -> & Es & (Hn & Hname) & Hw1 & Ho & Hw2 & Hv).
  cbn in H. injection H as <- <-.
  exists ws1, op, ws2, rest. repeat split; auto; try tauto.
  destruct n as [|y n']; [congruence|]. cbn [app] in Es. injection Es as <- _.
  change (lit "-") with [45%N] in *.
  apply startsWith_one_false. now apply startsWith_one_inv in Ed.
Qed.

(** X1, witness: a padded line whose version is followed by a suffix. *)
Lemma requirement_line_shape_witness :
  exists ws1 op ws2 rest,
    trim (lit "  Requests >= 2.31.0rc1 ")
    = lit "Requests" ++ ws1 ++ op ++ ws2 ++ lit "2.31.0" ++ rest
    /\ (lit "Requests" <> [] /\ forallb name_char (lit "Requests") = true
        /\ startsWith (lit "Requests") (lit "-") = false)
    /\ forallb is_space ws1 = true
    /\ (op <> [] /\ forallb op_char op = true)
    /\ forallb is_space ws2 = true
    /\ (lit "2.31.0" <> [] /\ forallb version_char (lit "2.31.0") = true).
Proof.
  apply (@requirement_line_shape (lit "  Requests >= 2.31.0rc1 ")).
  vm_compute. reflexivity.
Defined.

(** X2. Every line of the shape: optional spaces, a name that does not begin
    with [-], optional spaces, operators, optional spaces, a version, optional
    spaces, is recorded by [parseReqLines] with that name and that version. *)
Theorem requirement_line_accepted lead name ws1 op ws2 version trail :
  forallb is_space lead = true -> forallb is_space trail = true ->
  name <> [] -> forallb name_char name = true ->
  startsWith name (lit "-") = false ->
  forallb is_space ws1 = true ->
  op <> [] -> forallb op_char op = true ->
  forallb is_space ws2 = true ->
  version <> [] -> forallb version_char version = true ->
  req_line_match (lead ++ name ++ ws1 ++ op ++ ws2 ++ version ++ trail)
  = Some (name, version).
Proof.
  intros Hlead Htrail Hn Hname Hdash Hw1 Ho Hop Hw2 Hv Hver.
  set (core := name ++ ws1 ++ op ++ ws2 ++ version).
  assert (Et : trim (lead ++ name ++ ws1 ++ op ++ ws2 ++ version ++ trail) = core).
  { replace (lead ++ name ++ ws1 ++ op ++ ws2 ++ version ++ trail)
      with (lead ++ core ++ trail)
      by (unfold core; now rewrite <- !app_assoc).
    apply trim_spaces; auto.
    - unfold core. destruct name as [|x name']; [congruence|]. cbn [app stops].
      cbn [forallb] in Hname. apply andb_true_iff in Hname as [Hx _].
      now apply name_not_space.
    - unfold core. rewrite !rev_app_distr.
      destruct (rev version) as [|y t] eqn:Er.
      + apply (f_equal (@rev N)) in Er. rewrite rev_involutive in Er.
        cbn in Er. congruence.
      + cbn [app stops]. apply version_not_space.
        rewrite forallb_forall in Hver. apply Hver. apply in_rev.
        rewrite Er. now left. }
  unfold req_line_match. rewrite Et. unfold core at 1 2 3.
  destruct name as [|x name']; [congruence|]. cbn [app].
  pose proof Hname as Hname'. cbn [forallb] in Hname'.
  apply andb_true_iff in Hname' as [Hx _].
  change (lit "#") with [35%N]. change (lit "-") with [45%N] in *.
  rewrite (@startsWith_one_false x _ 35%N (@name_not_hash x Hx)).
  rewrite (@startsWith_one_false x _ 45%N (@startsWith_one_inv x name' 45%N Hdash)).
  cbn [orb]. unfold match_anchored, core.
  rewrite requirement_re_run by auto. reflexivity.
Qed.

(** X2, witness: an indented line with spaces around [>=]. *)
Lemma requirement_line_accepted_witness :
  req_line_match (lit "  " ++ lit "fastapi" ++ lit " " ++ lit ">=" ++ lit " "
                    ++ lit "0.100.0" ++ lit " ")
  = Some (lit "fastapi", lit "0.100.0").
Proof.
  apply requirement_line_accepted; try reflexivity; discriminate.
Defined.

Lemma lowered_name name :
  name <> [] -> forallb name_char name = true ->
  toLowerCase name <> [] /\ forallb name_char (toLowerCase name) = true.
Proof.
  intros Hn Hname. split.
  - destruct name; [congruence | discriminate].
  - unfold toLowerCase. rewrite forallb_forall in *. intros c Hc.
    apply in_map_iff in Hc. destruct Hc as (d & <- & Hd).
    apply name_lower. now apply Hname.
Qed.

Lemma req_entry_shape content k v :
  In (k, v) (parseReqLines content) ->
  (v <> [] /\ forallb version_char v = true)
  /\ (k <> [] /\ forallb name_char k = true /\ toLowerCase k = k).
Proof.
  intros H. apply req_key_from_line in H.
  destruct H as (line & name & _ & Hm & ->).
  apply req_line_match_groups in Hm. destruct Hm as [[Hn Hname] Hv].
  split; [exact Hv|]. destruct (lowered_name Hn Hname) as [H1 H2].
  repeat split; auto. apply toLowerCase_idem.
Qed.

Lemma pyproject_entry_shape content k v :
  In (k, v) (parsePyprojectDeps content) ->
  (v <> [] /\ forallb version_char v = true)
  /\ (k <> [] /\ forallb name_char k = true /\ toLowerCase k = k).
Proof.
  intros H. apply pyproject_key_from_match in H.
  destruct H as (name & op & Hin & ->).
  apply exec_all_In in Hin. destruct Hin as (before & here & rest & _ & Hm).
  unfold pyproject_re in Hm. apply match_here_once_inv in Hm; [|reflexivity].
  destruct Hm as (q & s1 & caps' & _ & _ & Hm & Hcaps). cbn [capture] in Hcaps.
  subst caps'. apply requirement_re_inv in Hm.
  destruct Hm as (n & ws1 & o & ws2 & ver & [= <- <- <-] & _ & (Hn & Hname) & _ & _ & _ & Hv).
  split; [exact Hv|]. destruct (lowered_name Hn Hname) as [H1 H2].
  repeat split; auto. apply toLowerCase_idem.
Qed.

(** X3. In the maps that [parseReqLines] and [parsePyprojectDeps] build,
    every version is a non-empty run of digits and dots, every key is a
    non-empty run of [a-zA-Z0-9_-] in lower case, and no key occurs twice. *)
Theorem recorded_entries_shape content :
  let shaped (deps : object) :=
    NoDup (map fst deps)
    /\ forall k v, In (k, v) deps ->
         (v <> [] /\ forallb version_char v = true)
         /\ (k <> [] /\ forallb name_char k = true /\ toLowerCase k = k) in
  shaped (parseReqLines content) /\ shaped (parsePyprojectDeps content).
Proof.
  cbv zeta. split; split.
  - apply parseReqLines_NoDup.
  - intros k v. apply req_entry_shape.
  - apply parsePyprojectDeps_NoDup.
  - intros k v. apply pyproject_entry_shape.
Qed.

(** X3, witness: the entry of [fastapi] in a key/value file. *)
Lemma recorded_entries_shape_witness :
  (lit "0.100.0" <> [] /\ forallb version_char (lit "0.100.0") = true)
  /\ (lit "fastapi" <> [] /\ forallb name_char (lit "fastapi") = true
      /\ toLowerCase (lit "fastapi") = lit "fastapi").
Proof.
  apply (proj2 (proj2 (recorded_entries_shape
                         (quoted "dependencies = ['FastAPI>=0.100.0']")))
               (lit "fastapi") (lit "0.100.0")).
  vm_compute. left. reflexivity.
Defined.

Lemma pypi_loop_same o :
  NoDup (map fst o) ->
  flat_map (fun '(pkg, newVersion) =>
              let oldVersion := get o pkg in
              if truthy oldVersion && negb (strict_eq oldVersion (VString newVersion))
              then [ {| package := pkg; fromVersion := oldVersion;
                        toVersion := newVersion; ecosystem := pypi |} ]
              else [])
           (Object_entries o) = [].
Proof.
  intros Hnd. apply flat_map_nil. intros [k v] Hin.
  apply (proj1 (In_entries _ _)) in Hin. apply In_own in Hin; [|exact Hnd].
  unfold get. rewrite Hin. cbn [strict_eq]. rewrite eqb_refl.
  now rewrite andb_false_r.
Qed.

Lemma package_changes_same o : NoDup (map fst o) -> package_changes o o = [].
Proof.
  intros Hnd. unfold package_changes. apply flat_map_nil. intros [k v] Hin.
  apply (proj1 (In_entries _ _)) in Hin. apply In_own in Hin; [|exact Hnd].
  unfold get. rewrite Hin. cbn [strict_eq]. rewrite eqb_refl.
  now rewrite andb_false_r.
Qed.

(** X4. Comparing a manifest with itself reports nothing, whatever the file
    name, the content and the behaviour of [JSON.parse]. *)
Theorem self_diff_is_empty JSON_parse filename content :
  parseDependencyChanges JSON_parse filename content content = Ok [].
Proof.
  unfold parseDependencyChanges.
  destruct (endsWith filename (lit "requirements.txt")).
  - unfold parseRequirementsTxt. now rewrite pypi_loop_same by apply parseReqLines_NoDup.
  - destruct (endsWith filename (lit "package.json")).
    + rewrite parsePackageJson_cases.
      destruct (parse_or_empty JSON_parse content) as [[|d dd]|e]; try reflexivity.
      now rewrite package_changes_same by apply merged_deps_NoDup.
    + destruct (endsWith filename (lit "pyproject.toml")); [|reflexivity].
      unfold parsePyprojectToml.
      now rewrite pypi_loop_same by apply parsePyprojectDeps_NoDup.
Qed.

Lemma at_most_one_per_key (f : jsstring * jsstring -> list DependencyChange) es :
  NoDup (map fst es) ->
  (forall p c, In c (f p) -> package c = fst p) ->
  (forall p, length (f p) <= 1) ->
  NoDup (map package (flat_map f es)).
Proof.
  intros Hnd Hpkg Hlen. induction es as [|p es IH]; simpl; [constructor|].
  inversion Hnd as [|? ? Hp Hnd']; subst. rewrite map_app.
  specialize (IH Hnd'). specialize (Hlen p).
  destruct (f p) as [|c [|c' l]] eqn:E; simpl in *; [exact IH| |lia].
  constructor; [|exact IH]. intros Hin. apply in_map_iff in Hin.
  destruct Hin as (c2 & Hc2 & Hin). apply in_flat_map in Hin.
  destruct Hin as (q & Hq & Hin). apply Hpkg in Hin.
  apply Hp. rewrite <- (Hpkg p c) by (rewrite E; now left).
  rewrite <- Hc2, Hin. now apply in_map.
Qed.

Lemma pypi_loop_NoDup oldDeps newDeps :
  NoDup (map fst newDeps) ->
  NoDup (map package
    (flat_map (fun '(pkg, newVersion) =>
              let oldVersion := get oldDeps pkg in
              if truthy oldVersion && negb (strict_eq oldVersion (VString newVersion))
              then [ {| package := pkg; fromVersion := oldVersion;
                        toVersion := newVersion; ecosystem := pypi |} ]
              else [])
           (Object_entries newDeps))).
Proof.
  intros Hnd. apply at_most_one_per_key.
  - now apply Object_entries_NoDup.
  - intros [k v] c. cbv zeta.
    destruct (truthy _ && negb _); [|contradiction]. intros [<-|[]]. reflexivity.
  - intros [k v]. cbv zeta. destruct (truthy _ && negb _); simpl; lia.
Qed.

Lemma package_changes_NoDup oldDeps newDeps :
  NoDup (map fst newDeps) -> NoDup (map package (package_changes oldDeps newDeps)).
Proof.
  intros Hnd. unfold package_changes. apply at_most_one_per_key.
  - now apply Object_entries_NoDup.
  - intros [k v] c. cbv zeta.
    destruct (truthy _ && negb _); [|contradiction].
    destruct (negb (eqb _ _)); [|contradiction]. intros [<-|[]]. reflexivity.
  - intros [k v]. cbv zeta. destruct (truthy _ && negb _); simpl; [|lia].
    destruct (negb (eqb _ _)); simpl; lia.
Qed.

(** X5. The changes reported for one manifest name each package at most
    once. *)
Theorem one_change_per_package JSON_parse filename old new changes :
  parseDependencyChanges JSON_parse filename old new = Ok changes ->
  NoDup (map package changes).
Proof.
  unfold parseDependencyChanges.
  destruct (endsWith filename (lit "requirements.txt")).
  - intros [= <-]. apply pypi_loop_NoDup, parseReqLines_NoDup.
  - destruct (endsWith filename (lit "package.json")).
    + rewrite parsePackageJson_cases.
      destruct (parse_or_empty JSON_parse old) as [[|od odd]|e1];
        destruct (parse_or_empty JSON_parse new) as [[|nd ndd]|e2];
        intros [= <-]; try constructor.
      apply package_changes_NoDup, merged_deps_NoDup.
    + destruct (endsWith filename (lit "pyproject.toml")); intros [= <-];
        [|constructor].
      apply pypi_loop_NoDup, parsePyprojectDeps_NoDup.
Qed.

(** X5, witness: a pinned file that names [django] twice, in two spellings. *)
Lemma one_change_per_package_witness :
  NoDup (map package
           (parseRequirementsTxt
              (lit "django==3.2")
              (lit "Django==4.0" ++ LF ++ lit "django==4.2"))).
Proof.
  apply (@one_change_per_package (parse_table []) (lit "requirements.txt")
           (lit "django==3.2") (lit "Django==4.0" ++ LF ++ lit "django==4.2")).
  vm_compute. reflexivity.
Defined.

(** X6. What a reported change looks like, by format. For the
    pinned-requirement and key/value formats the ecosystem is [pypi] and the
    new version is a non-empty run of digits and dots. For the
    structured-object format the ecosystem is [npm] and the old version is
    always a string, different from the new one. *)
Theorem emitted_change_shape JSON_parse filename old new changes c :
  parseDependencyChanges JSON_parse filename old new = Ok changes ->
  In c changes ->
  (endsWith filename (lit "requirements.txt") = true
   \/ endsWith filename (lit "pyproject.toml") = true ->
   ecosystem c = pypi
   /\ toVersion c <> [] /\ forallb version_char (toVersion c) = true)
  /\ (endsWith filename (lit "package.json") = true ->
      ecosystem c = npm
      /\ exists oldVersion,
           fromVersion c = VString oldVersion /\ oldVersion <> toVersion c).
Proof.
  intros Hrun Hin. split.
  - intros [Hf|Hf].
    + rewrite dispatch_requirements in Hrun by assumption. injection Hrun as <-.
      apply parseRequirementsTxt_In in Hin.
      destruct Hin as (Hin & _ & _ & _ & Heco). split; [exact Heco|].
      apply req_entry_shape in Hin. tauto.
    + rewrite dispatch_pyproject in Hrun by assumption. injection Hrun as <-.
      apply parsePyprojectToml_In in Hin.
      destruct Hin as (Hin & _ & _ & _ & Heco). split; [exact Heco|].
      apply pyproject_entry_shape in Hin. tauto.
  - intros Hf. rewrite dispatch_package_json in Hrun by assumption.
    rewrite parsePackageJson_cases in Hrun.
    destruct (parse_or_empty JSON_parse old) as [[|od odd]|e1];
      destruct (parse_or_empty JSON_parse new) as [[|nd ndd]|e2];
      injection Hrun as <-; try contradiction.
    apply package_changes_In in Hin.
    destruct Hin as (v & _ & _ & _ & Hfrom & Hto & Hne & Heco).
    split; [exact Heco|]. eexists. split; [exact Hfrom|].
    intros E. apply Hne. rewrite Hfrom, E. reflexivity.
Qed.

(** X6, witness: the change of [left-pad] from [^1.2.3] to [^2.0.0]. *)
Lemma emitted_change_shape_witness :
  ecosystem {| package := lit "left-pad"; fromVersion := VString (lit "1.2.3");
               toVersion := lit "2.0.0"; ecosystem := npm |} = npm
  /\ exists oldVersion,
       VString (lit "1.2.3") = VString oldVersion /\ oldVersion <> lit "2.0.0".
Proof.
  apply (proj2 (@emitted_change_shape pad_parse (lit "package.json")
                  caret_123 caret_200
                  [ {| package := lit "left-pad"; fromVersion := VString (lit "1.2.3");
                       toVersion := lit "2.0.0"; ecosystem := npm |} ]
                  {| package := lit "left-pad"; fromVersion := VString (lit "1.2.3");
                     toVersion := lit "2.0.0"; ecosystem := npm |}
                  ltac:(vm_compute; reflexivity) ltac:(left; reflexivity))).
  vm_compute. reflexivity.
Defined.

Lemma startsWith_nil s : startsWith s [] = true.
Proof. now destruct s. Qed.

Lemma split_go_one_line s :
  forall cur, one_line s = true -> split_go LF 0 cur s = [cur ++ s].
Proof.
  induction s as [|c s IH]; intros cur H.
  - cbn. now rewrite app_nil_r.
  - unfold one_line in H. cbn [forallb] in H. apply andb_true_iff in H as [Hc Hs].
    apply negb_true_iff in Hc.
    cbn [split_go]. unfold LF at 1. cbn [startsWith].
    rewrite N.eqb_sym, Hc. cbn [andb].
    rewrite (IH (cur ++ [c]) Hs). now rewrite <- app_assoc.
Qed.

Lemma split_one_line s :
  one_line s = true -> split LF s = [s].
Proof. intros H. unfold split. now rewrite split_go_one_line. Qed.

Lemma parseReqLines_one_line content name version :
  one_line content = true ->
  req_line_match content = Some (name, version) ->
  toLowerCase name <> lit "__proto__" ->
  parseReqLines content = [(toLowerCase name, version)].
Proof.
  intros Hl Hm Hk. unfold parseReqLines. rewrite split_one_line by exact Hl.
  cbn [fold_left]. rewrite Hm. unfold set. cbn [own].
  apply eqb_neq in Hk. now rewrite Hk.
Qed.

Lemma Object_entries_one p : Object_entries [p] = [p].
Proof.
  unfold Object_entries. cbn [filter]. destruct (is_index p); reflexivity.
Qed.

(** X7. For two one-line pinned files whose lines are both recorded, for the
    same name up to case (and not [__proto__]): if the versions are equal
    nothing is reported, whatever the operators and the spacing; if they
    differ, exactly one change is reported, from the old version to the new
    one. *)
Theorem single_line_version_edit old new name1 name2 v1 v2 :
  one_line old = true -> one_line new = true ->
  req_line_match old = Some (name1, v1) ->
  req_line_match new = Some (name2, v2) ->
  toLowerCase name1 = toLowerCase name2 ->
  toLowerCase name2 <> lit "__proto__" ->
  parseRequirementsTxt old new
  = if eqb v1 v2 then []
    else [ {| package := toLowerCase name2; fromVersion := VString v1;
              toVersion := v2; ecosystem := pypi |} ].
Proof.
  intros Ho Hn Hm1 Hm2 Hname Hk.
  unfold parseRequirementsTxt.
  rewrite (@parseReqLines_one_line old name1 v1 Ho Hm1) by now rewrite Hname.
  rewrite (@parseReqLines_one_line new name2 v2 Hn Hm2) by exact Hk.
  rewrite Object_entries_one. cbn [flat_map]. rewrite app_nil_r.
  unfold get. cbn [own]. rewrite Hname, eqb_refl. cbn [strict_eq].
  apply req_line_match_groups in Hm1. destruct Hm1 as [_ [Hv _]].
  destruct v1 as [|d v1']; [congruence|]. cbn [truthy andb].
  now destruct (eqb (d :: v1') v2).
Qed.

(** X7, witness: the end-to-end example, [langchain] from 0.2.0 to 1.0.0. *)
Lemma single_line_version_edit_witness :
  parseRequirementsTxt (lit "langchain==0.2.0") (lit "LangChain >= 1.0.0")
  = if eqb (lit "0.2.0") (lit "1.0.0") then []
    else [ {| package := toLowerCase (lit "LangChain");
              fromVersion := VString (lit "0.2.0");
              toVersion := lit "1.0.0"; ecosystem := pypi |} ].
Proof.
  apply (@single_line_version_edit (lit "langchain==0.2.0") (lit "LangChain >= 1.0.0")
           (lit "langchain") (lit "LangChain")); try reflexivity.
  discriminate.
Defined.

(** X8. A change reported for a package whose name no object inherits comes
    from the old snapshot: its old version is the one the old map holds for
    the package (without one leading [^] or [~] for the structured-object
    format, where the held version is not empty), and it differs from the
    new version. *)
Theorem update_comes_from_old_snapshot JSON_parse filename old new changes c :
  parseDependencyChanges JSON_parse filename old new = Ok changes ->
  In c changes ->
  inherited (package c) = false ->
  fromVersion c <> VString (toVersion c)
  /\ (endsWith filename (lit "requirements.txt") = true ->
      exists v, own (parseReqLines old) (package c) = Some v
                /\ fromVersion c = VString v)
  /\ (endsWith filename (lit "pyproject.toml") = true ->
      exists v, own (parsePyprojectDeps old) (package c) = Some v
                /\ fromVersion c = VString v)
  /\ (endsWith filename (lit "package.json") = true ->
      exists od odd v,
        parse_or_empty JSON_parse old = Ok (JDocument od odd)
        /\ own (merged_deps od odd) (package c) = Some v
        /\ v <> []
        /\ fromVersion c = VString (strip_leading range_qualifier v)).
Proof.
  intros Hrun Hin Hi.
  assert (Hd : fromVersion c <> VString (toVersion c)).
  { revert Hrun. unfold parseDependencyChanges.
    destruct (endsWith filename (lit "requirements.txt")).
    - intros [= <-]. apply parseRequirementsTxt_In in Hin.
      eapply reported_differs, Hin.
    - destruct (endsWith filename (lit "package.json")).
      + rewrite parsePackageJson_cases.
        destruct (parse_or_empty JSON_parse old) as [[|od odd]|e1];
          destruct (parse_or_empty JSON_parse new) as [[|nd ndd]|e2];
          intros [= <-]; try contradiction.
        eapply structured_update_differs, Hin.
      + destruct (endsWith filename (lit "pyproject.toml")); intros [= <-];
          [|contradiction].
        apply parsePyprojectToml_In in Hin. eapply reported_differs, Hin. }
  split; [exact Hd|]. repeat split.
  - intros Hf. rewrite dispatch_requirements in Hrun by assumption.
    injection Hrun as <-. apply parseRequirementsTxt_In in Hin.
    destruct (reported_was_recorded Hin Hi) as (v & H1 & H2 & _). eauto.
  - intros Hf. rewrite dispatch_pyproject in Hrun by assumption.
    injection Hrun as <-. apply parsePyprojectToml_In in Hin.
    destruct (reported_was_recorded Hin Hi) as (v & H1 & H2 & _). eauto.
  - intros Hf. rewrite dispatch_package_json in Hrun by assumption.
    rewrite parsePackageJson_cases in Hrun.
    destruct (parse_or_empty JSON_parse old) as [[|od odd]|e1];
      destruct (parse_or_empty JSON_parse new) as [[|nd ndd]|e2];
      injection Hrun as <-; try contradiction.
    apply package_changes_In in Hin.
    destruct Hin as (vn & _ & Ht & _ & Hfrom & _). cbv zeta in Ht, Hfrom.
    unfold get in Ht, Hfrom. rewrite Hi in Ht, Hfrom.
    destruct (own (merged_deps od odd) (package c)) as [v|] eqn:Eo;
      [|discriminate].
    exists od, odd, v. repeat split; auto.
    intros Hv. subst v. discriminate.
Qed.

(** X8, witness: the change of [left-pad] from [^1.2.3] to [^2.0.0]. *)
Lemma update_comes_from_old_snapshot_witness :
  exists od odd v,
    parse_or_empty pad_parse caret_123 = Ok (JDocument od odd)
    /\ own (merged_deps od odd) (lit "left-pad") = Some v
    /\ v <> []
    /\ VString (lit "1.2.3") = VString (strip_leading range_qualifier v).
Proof.
  refine (proj2 (proj2 (proj2 (@update_comes_from_old_snapshot pad_parse
            (lit "package.json") caret_123 caret_200
            [ {| package := lit "left-pad"; fromVersion := VString (lit "1.2.3");
                 toVersion := lit "2.0.0"; ecosystem := npm |} ]
            {| package := lit "left-pad"; fromVersion := VString (lit "1.2.3");
               toVersion := lit "2.0.0"; ecosystem := npm |} _ _ _))) _).
  - vm_compute. reflexivity.
  - left. reflexivity.
  - vm_compute. reflexivity.
  - vm_compute. reflexivity.
Defined.

(** X9. The last occurrence of a package wins, in both line-based formats:
    the version a map holds for a name other than [__proto__] is the one of
    the last recorded line, or of the last match of the key/value pattern,
    that names it in any case. *)
Theorem last_occurrence_wins content :
  (forall pre line post name version,
      split LF content = pre ++ line :: post ->
      req_line_match line = Some (name, version) ->
      (forall l n v, In l post -> req_line_match l = Some (n, v) ->
                     toLowerCase n <> toLowerCase name) ->
      toLowerCase name <> lit "__proto__" ->
      get (parseReqLines content) (toLowerCase name) = VString version)
  /\ (forall pre name op version post,
         exec_all pyproject_re 0 content = pre ++ [name; op; version] :: post ->
         (forall n o v, In [n; o; v] post -> toLowerCase n <> toLowerCase name) ->
         toLowerCase name <> lit "__proto__" ->
         get (parsePyprojectDeps content) (toLowerCase name) = VString version).
Proof.
  split.
  - intros pre line post name version Hs Hm Hpost Hk.
    now apply (@last_requirement_line_wins content pre line post name version).
  - intros pre name op version post He Hpost Hk.
    assert (E : own (parsePyprojectDeps content) (toLowerCase name) = Some version).
    { rewrite parsePyprojectDeps_assigns. unfold pyproject_entries. rewrite He.
      rewrite flat_map_app. cbn [flat_map app].
      apply assigned_last; [assumption|].
      intros Hin. apply in_map_iff in Hin. destruct Hin as ([k v] & Hk' & Hin).
      cbn [fst] in Hk'. subst k. apply in_flat_map in Hin.
      destruct Hin as (m & Hm & Hin).
      destruct m as [|m1 [|m2 [|m3 [|m4 m]]]]; try contradiction.
      destruct Hin as [[= Hn _]|[]]. exact (Hpost m1 m2 m3 Hm Hn). }
    unfold get. now rewrite E.
Qed.

(** X9, witness: [django] pinned twice in a requirements file. *)
Lemma last_occurrence_wins_witness :
  get (parseReqLines (lit "Django==3.2" ++ LF ++ lit "requests>=2.0" ++ LF
                        ++ lit "django==4.0"))
      (toLowerCase (lit "django")) = VString (lit "4.0").
Proof.
  apply (proj1 (last_occurrence_wins _)
               [lit "Django==3.2"; lit "requests>=2.0"] (lit "django==4.0") []).
  - vm_compute. reflexivity.
  - vm_compute. reflexivity.
  - intros l n v [].
  - discriminate.
Defined.

End DifferExtras.

(* ================================================================== *)
(** * More about the resolver *)
(* ================================================================== *)

Section ResolverExtras.

Import Api ResolverSpec ExtraSpec ApiFacts.

(** Every identifier of the table is mapped to itself. *)
Lemma mappings_closed unicode :
  forallb (fun p => match mapPackageToSourceId unicode (snd p) with
                    | VString s => eqb s (snd p)
                    | _ => false
                    end) mappings = true.
Proof. vm_compute. reflexivity. Qed.

(** On a string of ASCII code units the conversion does not consult the
    host, and gives a string of ASCII code units. *)
Lemma toLowerCase_in_ascii unicode s :
  forallb is_ascii s = true -> toLowerCase_in unicode s = toLowerCase s.
Proof. intros H. unfold toLowerCase_in. now rewrite H. Qed.

Lemma toLowerCase_ascii s :
  forallb is_ascii s = true -> forallb is_ascii (toLowerCase s) = true.
Proof.
  unfold toLowerCase. rewrite !forallb_forall. intros H c Hc.
  apply in_map_iff in Hc as (d & <- & Hd). specialize (H d Hd).
  unfold is_ascii, lower, is_upper, between in *.
  apply N.ltb_lt in H. apply N.ltb_lt.
  destruct (N.leb_spec 65 d), (N.leb_spec d 90); cbn [andb]; lia.
Qed.

(** X10. For a package name of ASCII code units, whatever the Unicode tables
    of the host: [mapPackageToSourceId] does not depend on the case of the
    name, and an identifier it returns is mapped to itself, so mapping twice
    is mapping once. *)
Theorem mapPackageToSourceId_stable unicode packageName :
  forallb is_ascii packageName = true ->
  mapPackageToSourceId unicode (toLowerCase_in unicode packageName)
  = mapPackageToSourceId unicode packageName
  /\ forall sourceId,
       mapPackageToSourceId unicode packageName = VString sourceId ->
       mapPackageToSourceId unicode sourceId = VString sourceId.
Proof.
  intros Ha. pose proof (toLowerCase_ascii _ Ha) as Hl.
  assert (Hidem : toLowerCase_in unicode (toLowerCase packageName)
                  = toLowerCase packageName).
  { now rewrite toLowerCase_in_ascii, toLowerCase_idem. }
  split.
  - unfold mapPackageToSourceId.
    now rewrite (toLowerCase_in_ascii unicode _ Ha), Hidem.
  - intros sourceId. unfold mapPackageToSourceId at 1. unfold get.
    rewrite (toLowerCase_in_ascii unicode _ Ha).
    destruct (own mappings (toLowerCase packageName)) as [v|] eqn:E.
    + destruct v as [|d v']; cbn [truthy].
      * intros [= <-]. unfold mapPackageToSourceId, get.
        now rewrite Hidem, E.
      * intros [= <-]. apply own_In in E.
        pose proof (mappings_closed unicode) as Hc. rewrite forallb_forall in Hc.
        specialize (Hc _ E). cbn [snd] in Hc.
        destruct (mapPackageToSourceId unicode (d :: v')) as [|s|m]; try discriminate.
        apply eqb_eq in Hc. now subst s.
    + destruct (inherited (toLowerCase packageName)) eqn:Ei; cbn [truthy];
        [discriminate|].
      intros [= <-]. unfold mapPackageToSourceId, get.
      now rewrite Hidem, E, Ei.
Qed.

(** X10, witness: [Next] is mapped to [next-js], and [next-js] to itself. *)
Lemma mapPackageToSourceId_stable_witness :
  mapPackageToSourceId no_table (lit "next-js") = VString (lit "next-js").
Proof.
  apply (proj2 (@mapPackageToSourceId_stable no_table (lit "Next") eq_refl)).
  vm_compute. reflexivity.
Defined.

Section WithHost.

Variable unicode : jsstring -> jsstring.
Variable encodeURIComponent : jsstring -> result jsstring.
Variable fetch : nat -> jsstring -> list (jsstring * jsstring) -> result response.
Variable serviceKey : option jsstring.

Lemma fromRelease_count c sourceId n r n' :
  getBreakingChangesFromRelease encodeURIComponent fetch serviceKey c sourceId n
  = (r, n') -> n <= n' <= S n.
Proof.
  unfold getBreakingChangesFromRelease, mbind, lift, request, throw, ret.
  destruct (encodeURIComponent (ToString sourceId)); [|intros [= _ <-]; lia].
  destruct (fetch n _ _) as [resp|e]; [|intros [= _ <-]; lia].
  destruct (ok resp); cbn [negb]; [|intros [= _ <-]; lia].
  destruct (json resp) as [[bcs|releases]|e]; intros [= _ <-]; lia.
Qed.

Lemma forPackage_count c n r n' :
  getBreakingChangesForPackage unicode encodeURIComponent fetch serviceKey c n = (r, n') ->
  n <= n' <= n + 3.
Proof.
  unfold getBreakingChangesForPackage, mbind, lift, catch.
  destruct (encodeURIComponent (ToString (mapPackageToSourceId _ _)));
    [|intros [= _ <-]; lia].
  destruct (encodeURIComponent (ToString (Parsers.fromVersion c)));
    [|intros [= _ <-]; lia].
  destruct (encodeURIComponent (Parsers.toVersion c)); [|intros [= _ <-]; lia].
  unfold request at 1.
  destruct (fetch n _ _) as [resp|e].
  - destruct (ok resp); cbn [negb].
    + destruct (json resp) as [data|e]; unfold ret.
      * intros [= _ <-]. lia.
      * intros H. apply fromRelease_count in H. lia.
    + destruct (getBreakingChangesFromRelease _ _ _ c _ (S n)) as [[r1|e1] n1] eqn:E1;
        apply fromRelease_count in E1.
      * intros [= _ <-]. lia.
      * intros H. apply fromRelease_count in H. lia.
  - intros H. apply fromRelease_count in H. lia.
Qed.

Lemma resolve_one_count results c n r n' :
  resolve_one unicode encodeURIComponent fetch serviceKey results c n = (r, n') ->
  n <= n' <= n + 3.
Proof.
  unfold resolve_one, catch, mbind, ret.
  destruct (getBreakingChangesForPackage _ _ _ _ c n) as [[r1|e1] n1] eqn:E;
    apply forPackage_count in E; intros [= _ <-]; lia.
Qed.

Lemma for_each_count changes :
  forall results n r n',
    for_each unicode encodeURIComponent fetch serviceKey changes results n = (r, n') ->
    n <= n' <= n + 3 * length changes.
Proof.
  induction changes as [|c cs IH]; intros results n r n'; cbn [for_each length].
  - unfold ret. intros [= _ <-]. lia.
  - unfold mbind.
    destruct (resolve_one _ _ _ _ results c n) as [[rs|e] m] eqn:E;
      apply resolve_one_count in E.
    + intros H. apply IH in H. lia.
    + intros [= _ <-]. lia.
Qed.

End WithHost.

(** X11. A batch issues at most three requests per change (the diff, and the
    release listing at most twice), and the request count never decreases. *)
Theorem at_most_three_requests_per_change
        unicode encodeURIComponent fetch serviceKey changes n r n' :
  getBreakingChanges unicode encodeURIComponent fetch serviceKey changes n = (r, n') ->
  n <= n' <= n + 3 * length changes.
Proof. apply for_each_count. Qed.

(** X11, witness: one change on a host that answers every request with 503. *)
Lemma at_most_three_requests_per_change_witness :
  0 <= 3 <= 0 + 3 * length [next_13_14].
Proof.
  apply (@at_most_three_requests_per_change no_table unescaped refusing None
           [next_13_14] 0
           (fst (getBreakingChanges no_table unescaped refusing None [next_13_14] 0)) 3).
  vm_compute. reflexivity.
Defined.

Section WithHost.

Variable unicode : jsstring -> jsstring.
Variable encodeURIComponent : jsstring -> result jsstring.
Variable fetch : nat -> jsstring -> list (jsstring * jsstring) -> result response.
Variable serviceKey : option jsstring.

Lemma fromRelease_listing c sourceId n source resp releases :
  encodeURIComponent (ToString sourceId) = Ok source ->
  fetch n (releases_url source) (getHeaders serviceKey) = Ok resp ->
  ok resp = true -> json resp = Ok (ReleaseList releases) ->
  getBreakingChangesFromRelease encodeURIComponent fetch serviceKey c sourceId n
  = (Ok (result_of c (listed (Parsers.toVersion c) releases) sourceId), S n).
Proof.
  intros He Hf Hok Hj.
  unfold getBreakingChangesFromRelease, mbind, lift, request, throw, ret.
  rewrite He. fold (releases_url source). rewrite Hf, Hok. cbn [negb].
  rewrite Hj. reflexivity.
Qed.

Lemma resolve_one_url results c n :
  exists r n',
    resolve_one unicode encodeURIComponent fetch serviceKey results c n
    = (Ok (results ++ [r]), n')
    /\ url_built unicode c r.
Proof.
  unfold resolve_one, catch, mbind, ret.
  destruct (getBreakingChangesForPackage _ _ _ _ c n) as [[r|e] n'] eqn:E.
  - exists r, n'. split; [reflexivity|]. left. now apply forPackage_Ok in E.
  - eexists _, n'. split; [reflexivity|]. right. split; reflexivity.
Qed.

Lemma for_each_url changes :
  forall results n,
    exists rs n',
      for_each unicode encodeURIComponent fetch serviceKey changes results n
      = (Ok (results ++ rs), n')
      /\ Forall2 (url_built unicode) changes rs.
Proof.
  induction changes as [|c cs IH]; intros results n; cbn [for_each].
  - exists [], n. rewrite app_nil_r. split; [reflexivity | constructor].
  - destruct (resolve_one_url results c n) as (r & m & Hr & Hu).
    destruct (IH (results ++ [r]) m) as (rs & n' & Hrs & Hf).
    exists (r :: rs), n'. unfold mbind. rewrite Hr, Hrs, <- app_assoc.
    split; [reflexivity | now constructor].
Qed.

End WithHost.

(** X12. When the diff endpoint answers with a success status and a readable
    body, the result carries the body's [breaking_changes] (none when the
    member is absent) and the URL of the canonical identifier, and no other
    request is made. *)
Theorem diff_answer_is_used
        unicode encodeURIComponent fetch serviceKey c n p f t resp bcs :
  encodeURIComponent (ToString (mapPackageToSourceId unicode (Parsers.package c))) = Ok p ->
  encodeURIComponent (ToString (Parsers.fromVersion c)) = Ok f ->
  encodeURIComponent (Parsers.toVersion c) = Ok t ->
  fetch n (diff_url p f t) (getHeaders serviceKey) = Ok resp ->
  ok resp = true ->
  json resp = Ok (DiffData bcs) ->
  getBreakingChangesForPackage unicode encodeURIComponent fetch serviceKey c n
  = (Ok (result_of c (match bcs with Some l => l | None => [] end)
                   (mapPackageToSourceId unicode (Parsers.package c))),
     S n).
Proof.
  intros Hp Hf Ht Hfetch Hok Hjson.
  unfold getBreakingChangesForPackage, mbind, lift, catch, request, ret.
  rewrite Hp, Hf, Ht. fold (diff_url p f t). rewrite Hfetch, Hok. cbn [negb].
  rewrite Hjson. reflexivity.
Qed.

(** X12, witness: [torch] on the catalog that knows its diff. *)
Lemma diff_answer_is_used_witness :
  getBreakingChangesForPackage no_table unescaped torch_catalog None torch_1_2 0
  = (Ok (result_of torch_1_2 torch_diff (VString (lit "pytorch"))), 1).
Proof.
  apply (@diff_answer_is_used no_table unescaped torch_catalog None torch_1_2 0
           (lit "pytorch") (lit "1.13.0") (lit "2.0.0")
           {| ok := true; status := 200; json := Ok (DiffData (Some torch_diff)) |}
           (Some torch_diff)); reflexivity.
Defined.

(** X13. When the diff request gives no readable answer and the release
    listing requested next does, the result carries the normalised breaking
    changes of the first release whose tag is the target version, and none
    at all when no release matches or the release lists none: a missing
    release is not an error. Two requests are made. *)
Theorem listing_answer_is_used
        unicode encodeURIComponent fetch serviceKey c n p f t resp releases :
  encodeURIComponent (ToString (mapPackageToSourceId unicode (Parsers.package c))) = Ok p ->
  encodeURIComponent (ToString (Parsers.fromVersion c)) = Ok f ->
  encodeURIComponent (Parsers.toVersion c) = Ok t ->
  diff_failed (fetch n (diff_url p f t) (getHeaders serviceKey)) ->
  fetch (S n) (releases_url p) (getHeaders serviceKey) = Ok resp ->
  ok resp = true ->
  json resp = Ok (ReleaseList releases) ->
  getBreakingChangesForPackage unicode encodeURIComponent fetch serviceKey c n
  = (Ok (result_of c (listed (Parsers.toVersion c) releases)
                   (mapPackageToSourceId unicode (Parsers.package c))),
     S (S n)).
Proof.
  intros Hp Hf Ht Hfail Hfetch Hok Hjson.
  pose proof (@fromRelease_listing encodeURIComponent fetch serviceKey c
                (mapPackageToSourceId unicode (Parsers.package c)) (S n) p resp releases
                Hp Hfetch Hok Hjson) as Hl.
  unfold getBreakingChangesForPackage, mbind, lift, catch, request, ret.
  rewrite Hp, Hf, Ht. fold (diff_url p f t).
  destruct (fetch n (diff_url p f t) (getHeaders serviceKey)) as [r0|e0];
    [|exact Hl].
  cbn [diff_failed] in Hfail. destruct Hfail as [H0|[e H0]].
  - rewrite H0. cbn [negb]. now rewrite Hl.
  - destruct (ok r0); cbn [negb].
    + rewrite H0. exact Hl.
    + now rewrite Hl.
Qed.

(** X13, witness: [next] to 14.0.0 on the catalog that only lists releases. *)
Lemma listing_answer_is_used_witness :
  getBreakingChangesForPackage no_table unescaped listing_catalog None next_to_14 0
  = (Ok (result_of next_to_14 (listed (lit "14.0.0") next_releases)
                   (VString (lit "next-js"))), 2).
Proof.
  apply (@listing_answer_is_used no_table unescaped listing_catalog None next_to_14 0
           (lit "next-js") (lit "13.5.0") (lit "14.0.0")
           {| ok := true; status := 200; json := Ok (ReleaseList next_releases) |}
           next_releases); reflexivity.
Defined.

(** When the diff endpoint answers with an error status and the request for
    the release listing that follows fails, the listing is requested once
    more, and a listing given then is used. Three requests are made. *)
Lemma retried_listing_is_used
      unicode encodeURIComponent fetch serviceKey c n p f t resp releases :
  encodeURIComponent (ToString (mapPackageToSourceId unicode (Parsers.package c))) = Ok p ->
  encodeURIComponent (ToString (Parsers.fromVersion c)) = Ok f ->
  encodeURIComponent (Parsers.toVersion c) = Ok t ->
  refused (fetch n (diff_url p f t) (getHeaders serviceKey)) ->
  listing_failed (fetch (S n) (releases_url p) (getHeaders serviceKey)) ->
  fetch (S (S n)) (releases_url p) (getHeaders serviceKey) = Ok resp ->
  ok resp = true ->
  json resp = Ok (ReleaseList releases) ->
  getBreakingChangesForPackage unicode encodeURIComponent fetch serviceKey c n
  = (Ok (result_of c (listed (Parsers.toVersion c) releases)
                   (mapPackageToSourceId unicode (Parsers.package c))),
     S (S (S n))).
Proof.
  intros Hp Hf Ht (r0 & Hr0 & Hok0) Hl1 Hfetch Hok Hjson.
  destruct (@fromRelease_fails encodeURIComponent fetch serviceKey c _ (S n) p Hp Hl1)
    as (e1 & H1).
  pose proof (@fromRelease_listing encodeURIComponent fetch serviceKey c
                (mapPackageToSourceId unicode (Parsers.package c)) (S (S n)) p resp
                releases Hp Hfetch Hok Hjson) as H2.
  unfold getBreakingChangesForPackage, mbind, lift, catch, request, ret.
  rewrite Hp, Hf, Ht. fold (diff_url p f t). rewrite Hr0, Hok0. cbn [negb].
  now rewrite H1, H2.
Qed.

Example listed_next_14 :
  listed (lit "14.0.0") next_releases
  = [ {| change := lit "Node 16 is no longer supported"; fix_ := None |} ].
Proof. vm_compute. reflexivity. Qed.

(** X14. The migration URL of every result of a batch is
    [buildMigrationUrl] of the target version and of the canonical
    identifier of the package; only a result without breaking changes may
    have it built from the package name as it stands instead. *)
Theorem url_of_every_result unicode encodeURIComponent fetch serviceKey changes n :
  exists results n',
    getBreakingChanges unicode encodeURIComponent fetch serviceKey changes n
    = (Ok results, n')
    /\ Forall2 (url_built unicode) changes results.
Proof. apply (for_each_url unicode encodeURIComponent fetch serviceKey changes [] n). Qed.

Lemma split_go_absent sep s :
  forall cur, includes s sep = false -> split_go sep 0 cur s = [cur ++ s].
Proof.
  induction s as [|c s IH]; intros cur H.
  - cbn. now rewrite app_nil_r.
  - cbn [includes] in H. apply orb_false_iff in H as [Hs Hi].
    cbn [split_go]. rewrite Hs, (IH _ Hi), <- app_assoc. reflexivity.
Qed.

Lemma split_named_tag name version :
  forallb (fun c => negb (c =? 61)%N) name = true ->
  includes version (lit "==") = false ->
  forall cur,
    split_go (lit "==") 0 cur (name ++ lit "==" ++ version)
    = [cur ++ name; version].
Proof.
  intros Hname Hv. change (lit "==") with [61%N; 61%N].
  induction name as [|c name IH]; intros cur.
  - cbn [app split_go startsWith N.eqb Pos.eqb andb length Nat.sub].
    rewrite startsWith_nil. cbn [split_go].
    rewrite (@split_go_absent [61%N; 61%N] version [] Hv). now rewrite app_nil_r.
  - cbn [forallb] in Hname. apply andb_true_iff in Hname as [Hc Hname].
    apply negb_true_iff in Hc. cbn [app split_go startsWith].
    rewrite N.eqb_sym, Hc. cbn [andb].
    change (name ++ 61%N :: 61%N :: version)
      with (name ++ [61%N; 61%N] ++ version).
    rewrite (IH Hname (cur ++ [c])). now rewrite <- app_assoc.
Qed.

(** X15. Which release tags stand for the target version. A tag without [==]
    is the target exactly when it is the version, or the version after one
    or two [v] (the version itself not beginning with [v]). A tag
    [name==version], with no [=] in the name and no [==] in the version, is
    always the target. *)
Theorem target_tags toVersion r :
  (includes (tag r) (lit "==") = false ->
   startsWith toVersion (lit "v") = false ->
   (is_target toVersion r = true
    <-> tag r = toVersion \/ tag r = lit "v" ++ toVersion
        \/ tag r = lit "vv" ++ toVersion))
  /\ (forall name,
         forallb (fun c => negb (c =? 61)%N) name = true ->
         includes toVersion (lit "==") = false ->
         tag r = name ++ lit "==" ++ toVersion ->
         is_target toVersion r = true).
Proof.
  split.
  - intros Hi Hv. unfold is_target, tagVersion. rewrite Hi.
    rewrite orb_true_iff, !eqb_eq.
    change (lit "vv" ++ toVersion) with (118%N :: 118%N :: toVersion).
    change (lit "v" ++ toVersion) with (118%N :: toVersion).
    change (lit "v") with [118%N] in Hv.
    assert (Hhead : forall t, toVersion <> 118%N :: t).
    { intros t ->. cbn [startsWith] in Hv. rewrite N.eqb_refl in Hv.
      now rewrite startsWith_nil in Hv. }
    destruct (tag r) as [|x t]; cbn [strip_leading].
    + split.
      * intros [H|H]; [left; exact H | discriminate].
      * intros [H|[H|H]]; [left; exact H | discriminate | discriminate].
    + unfold one_of. change (lit "v") with [118%N]. cbn [existsb].
      rewrite orb_false_r. destruct (N.eqb_spec x 118) as [-> | Hx].
      * split.
        -- intros [-> | ->]; auto.
        -- intros [H|[H|H]].
           ++ exfalso. symmetry in H. now apply Hhead in H.
           ++ injection H as ->. now left.
           ++ injection H as ->. now right.
      * split.
        -- intros [H|H]; [now left | congruence].
        -- intros [H|[H|H]]; [now left | congruence | congruence].
  - intros name Hname Hv Ht. unfold is_target, tagVersion. rewrite Ht.
    rewrite includes_after. unfold split.
    rewrite (@split_named_tag name toVersion Hname Hv []). cbn [nth app].
    now rewrite eqb_refl.
Qed.

(** X15, witness: the tags [v14.0.0] and [next==14.0.0] for 14.0.0. *)
Lemma target_tags_witness :
  is_target (lit "14.0.0") {| tag := lit "v14.0.0"; breaking_changes := None |} = true
  /\ is_target (lit "14.0.0")
       {| tag := lit "next" ++ lit "==" ++ lit "14.0.0"; breaking_changes := None |}
     = true.
Proof.
  split.
  - apply (proj1 (@target_tags (lit "14.0.0")
                    {| tag := lit "v14.0.0"; breaking_changes := None |}));
      try reflexivity.
    right. left. reflexivity.
  - apply (proj2 (@target_tags (lit "14.0.0")
                    {| tag := lit "next" ++ lit "==" ++ lit "14.0.0";
                       breaking_changes := None |}) (lit "next"));
      reflexivity.
Defined.

(** A target version written with [v] is not found under its own tag. *)
Example verbatim_v_tag_missed :
  is_target (lit "v14.0.0") {| tag := lit "v14.0.0"; breaking_changes := None |}
  = false.
Proof. vm_compute. reflexivity. Qed.

End ResolverExtras.

(* ================================================================== *)
(** * More about the formatter and the entry point *)
(* ================================================================== *)

Module RunFacts.

Import Api Index Run FormatterSpec ExtraSpec ParsersFacts ApiFacts IndexFacts.

Lemma parseDependencyChanges_returns JSON_parse filename old new :
  exists changes,
    Parsers.parseDependencyChanges JSON_parse filename old new = Ok changes.
Proof.
  unfold Parsers.parseDependencyChanges.
  destruct (endsWith filename (lit "requirements.txt")); [eauto|].
  destruct (endsWith filename (lit "package.json")).
  - rewrite parsePackageJson_cases.
    destruct (Parsers.parse_or_empty JSON_parse old) as [[|od odd]|e1];
      destruct (Parsers.parse_or_empty JSON_parse new) as [[|nd ndd]|e2]; eauto.
  - destruct (endsWith filename (lit "pyproject.toml")); eauto.
Qed.

(** The loop over the files performs no action and collects what
    [allChanges] describes. *)
Lemma collect_flat h owner repo pr files :
  forall acc,
    collect h owner repo pr files acc
    = ([], Ok (acc ++ flat_map
                 (fun filename =>
                    match Parsers.parseDependencyChanges (JSON_parse h) filename
                            (content_at (getContent h owner repo pr) filename baseSha)
                            (content_at (getContent h owner repo pr) filename headSha)
                    with
                    | Ok changes => changes
                    | Throw _ => []
                    end) files)).
Proof.
  induction files as [|f files IH]; intros acc; cbn [collect flat_map].
  - unfold wret. now rewrite app_nil_r.
  - unfold collect_file, wcatch, wbind, wlift, wret.
    destruct (parseDependencyChanges_returns (JSON_parse h) f
                (content_at (getContent h owner repo pr) f baseSha)
                (content_at (getContent h owner repo pr) f headSha)) as (changes & E).
    rewrite E. cbn [app]. rewrite IH. cbn [app]. now rewrite app_assoc.
Qed.

Lemma collect_allChanges h owner repo pr files :
  collect h owner repo pr (depFiles files) []
  = ([], Ok (allChanges (JSON_parse h) (getContent h owner repo pr) files)).
Proof. rewrite collect_flat. reflexivity. Qed.

Lemma getBreakingChanges_returns table enc fetch key changes n :
  exists results,
    fst (getBreakingChanges table enc fetch key changes n) = Ok results.
Proof.
  destruct (for_each_returns table enc fetch key changes [] n) as (rs & n' & H & _).
  exists rs. unfold getBreakingChanges. now rewrite H.
Qed.

Lemma find_none (A : Type) (f : A -> bool) l :
  find f l = None -> forall x, In x l -> f x = false.
Proof.
  induction l as [|y l IH]; cbn [find]; intros H x [].
  - subst. now destruct (f x).
  - destruct (f y); [discriminate | auto].
Qed.

Lemma startsWith_includes s p : startsWith s p = true -> includes s p = true.
Proof. intros H. destruct s; cbn [includes]; now rewrite H. Qed.

Lemma generated_is_marked results text :
  generateComment results = Some text -> includes text marker = true.
Proof.
  rewrite generateComment_shape.
  destruct (filter has_breaking results); [discriminate|].
  intros H. apply Some_inj in H. subst text.
  apply startsWith_includes, startsWith_iff.
  unfold header. rewrite <- !app_assoc. eauto.
Qed.

Lemma generated_has_breaking results text :
  generateComment results = Some text ->
  existsb (fun r => 0 <? length (breakingChanges r)) results = true.
Proof.
  rewrite generateComment_shape.
  destruct (filter has_breaking results) as [|r rs] eqn:E; [discriminate|].
  intros _. apply existsb_exists. exists r.
  assert (H : In r (filter has_breaking results)) by (rewrite E; now left).
  apply filter_In in H. exact H.
Qed.

(** Case analysis on everything a run asks of its host. *)
Ltac run_step :=
  cbn [wbind wcatch wlift wret tell fst snd app] in *;
  match goal with
  | |- context [match ?X with _ => _ end] => destruct X eqn:?
  | |- context [if ?X then _ else _] => destruct X eqn:?
  end.

Ltac run_cases h :=
  unfold run, run_body, upsert;
  destruct (input_github_token h) as [token|?] eqn:Etoken;
    [|cbn [wbind wcatch wlift wret tell fst snd app]];
  [destruct (payload_pull_request h) as [pr|] eqn:Epr;
    [destruct (context_repo h) as [[owner repo]|?] eqn:Erepo;
      [cbn [wbind wcatch wlift wret tell fst snd app];
       destruct (pulls_listFiles h owner repo (number pr)) as [files|?] eqn:Efiles;
        [cbn [wbind wcatch wlift wret tell fst snd app];
         destruct (length (depFiles files) =? 0) eqn:Edep;
          [|rewrite collect_allChanges;
            cbn [wbind wcatch wlift wret tell fst snd app];
            destruct (length (allChanges (JSON_parse h)
                                (getContent h owner repo pr) files) =? 0) eqn:Echanges;
             [|destruct (fst (getBreakingChanges (unicode h) (encodeURIComponent h)
                               (fetch h) None
                               (allChanges (JSON_parse h)
                                  (getContent h owner repo pr) files) 0))
                 as [results|?] eqn:Eresults;
               [destruct (generateComment results) as [[|c text]|] eqn:Egen;
                 [| destruct (issues_listComments h owner repo (number pr))
                      as [comments|?] eqn:Ecomments;
                    [destruct (find is_marked comments) as [existing|] eqn:Efind;
                      [destruct (issues_updateComment h owner repo (id existing) (c :: text))
                         as [[]|?] eqn:Ewrite
                      |destruct (issues_createComment h owner repo (number pr) (c :: text))
                         as [[]|?] eqn:Ewrite];
                     [destruct (eqb (input_fail_on_breaking h) (lit "true")) eqn:Eflag| |
                      destruct (eqb (input_fail_on_breaking h) (lit "true")) eqn:Eflag| ]
                    |]
                 |]
               |]]]
        |]
      |]
    |]
  |];
  try match goal with
      | E : generateComment _ = Some _ |- _ =>
          rewrite (@generated_has_breaking _ _ E)
      end;
  cbn [wbind wcatch wlift wret tell fst snd app andb].

End RunFacts.

Section FormatterExtras.

Import Api Index FormatterSpec ExtraSpec IndexFacts.

Lemma truncated_length n s : length (truncated n s) <= n + 3.
Proof.
  unfold truncated, substring0. rewrite length_app, length_firstn.
  destruct (n <? length s);
    [change (length (lit "...")) with 3 | cbn [length]]; lia.
Qed.

Lemma truncated_short n s : length s <= n -> truncated n s = s.
Proof.
  intros H. unfold truncated, substring0. rewrite firstn_all2 by exact H.
  destruct (Nat.ltb_spec n (length s)); [lia|]. apply app_nil_r.
Qed.

(** X16. A row of the table is never longer than 154 code units: the change
    text takes at most 83 of them and the fix at most 63. A change of at
    most 80 code units and a fix of at most 60 are printed whole. *)
Theorem table_row_bounded bc :
  length (table_row bc) <= 154
  /\ (forall f, fix_ bc = Some f -> f <> [] ->
                length (change bc) <= 80 -> length f <= 60 ->
                table_row bc
                = lit "| " ++ change bc ++ lit " | " ++ f ++ lit " |" ++ LF).
Proof.
  split.
  - unfold table_row. rewrite !length_app.
    pose proof (truncated_length 80 (change bc)).
    assert (Hf : length (match fix_ bc with
                         | Some (c :: f) => truncated 60 (c :: f)
                         | _ => lit "-"
                         end) <= 63).
    { destruct (fix_ bc) as [[|c f]|];
        try (change (length (lit "-")) with 1; lia).
      apply (truncated_length 60 (c :: f)). }
    set (a := length (truncated 80 (change bc))) in *.
    set (b := length _) in Hf |- *.
    change (2 + (a + (3 + (b + (2 + 1)))) <= 154). lia.
  - intros f Hfix Hne Hc Hf. unfold table_row. rewrite Hfix.
    destruct f as [|c f']; [congruence|].
    now rewrite !truncated_short by assumption.
Qed.

(** X16, witness: the row of the end-to-end example. *)
Lemma table_row_bounded_witness :
  table_row {| change := lit "ChatOpenAI moved"; fix_ := Some (lit "Update import") |}
  = lit "| " ++ lit "ChatOpenAI moved" ++ lit " | " ++ lit "Update import"
      ++ lit " |" ++ LF.
Proof.
  apply (proj2 (table_row_bounded
                  {| change := lit "ChatOpenAI moved";
                     fix_ := Some (lit "Update import") |}) (lit "Update import"));
    try reflexivity; try discriminate; vm_compute; lia.
Defined.

Lemma filter_idem (A : Type) (f : A -> bool) l : filter f (filter f l) = filter f l.
Proof.
  induction l as [|x l IH]; cbn [filter]; [reflexivity|].
  destruct (f x) eqn:E; cbn [filter]; [rewrite E, IH|]; auto.
Qed.

(** X17. Results without breaking changes have no effect on the comment:
    removing them, or adding some anywhere, leaves it as it is. *)
Theorem quiet_results_ignored results :
  generateComment results = generateComment (filter has_breaking results)
  /\ forall before quiet after,
       results = before ++ after -> breakingChanges quiet = [] ->
       generateComment (before ++ quiet :: after) = generateComment results.
Proof.
  split.
  - rewrite !generateComment_shape. now rewrite filter_idem.
  - intros before quiet after -> Hq. rewrite !generateComment_shape.
    rewrite !filter_app. cbn [filter]. unfold has_breaking at 2. now rewrite Hq.
Qed.

(** X17, witness: a quiet result put before the result of the example. *)
Lemma quiet_results_ignored_witness :
  generateComment ([] ++ quiet_result :: [langchain_result])
  = generateComment [langchain_result].
Proof.
  apply (proj2 (quiet_results_ignored [langchain_result]) [] quiet_result
               [langchain_result]); reflexivity.
Defined.

End FormatterExtras.

Section RunExtras.

Import Api Index Run ResolverSpec FormatterSpec ExtraSpec ParsersFacts ApiFacts
       IndexFacts RunFacts.

(** X18. [run] never calls [core.warning]: the handler around the parsing of
    a file is never entered, because [parseDependencyChanges] does not
    throw and a failed [getContent] is taken for empty content. *)
Theorem run_never_warns h :
  Forall (fun a => is_warning a = false) (run h).
Proof. run_cases h; repeat constructor. Qed.

(** X19. [run] writes at most one comment, and what it writes is the output
    of the formatter on the resolver's results for the changes of the
    recognised files of the pull request. *)
Theorem written_comment_is_pipeline_output h :
  length (filter is_write (run h)) <= 1
  /\ forall a posted,
       In a (run h) -> written a = Some posted ->
       exists owner repo pr results,
         context_repo h = Ok (owner, repo)
         /\ payload_pull_request h = Some pr
         /\ pipeline h owner repo pr = Ok results
         /\ generateComment results = Some posted.
Proof.
  split.
  - run_cases h; cbn; lia.
  - intros a posted. run_cases h; cbn [In]; intros Hin Hw;
      repeat (destruct Hin as [<-|Hin]; [try discriminate|]); try contradiction;
      injection Hw as <-; exists owner, repo, pr, results; unfold pipeline;
      rewrite Efiles; auto.
Qed.

(** X19, witness: the run of the example creates the example's comment. *)
Lemma written_comment_is_pipeline_output_witness :
  exists owner repo pr results,
    context_repo (example_host (lit "false") []) = Ok (owner, repo)
    /\ payload_pull_request (example_host (lit "false") []) = Some pr
    /\ pipeline (example_host (lit "false") []) owner repo pr = Ok results
    /\ generateComment results = Some example_comment.
Proof.
  apply (proj2 (written_comment_is_pipeline_output (example_host (lit "false") []))
               (CreateComment 7 example_comment)).
  - vm_compute. do 3 right. left. reflexivity.
  - reflexivity.
Defined.

(** X20. [run] updates a comment only when the pull request has a comment
    that contains the marker, and then the first such comment; it creates a
    comment, on the pull request, only when no comment contains the marker. *)
Theorem upsert_rule h :
  (forall target posted,
      In (UpdateComment target posted) (run h) ->
      exists owner repo pr comments existing,
        context_repo h = Ok (owner, repo)
        /\ payload_pull_request h = Some pr
        /\ issues_listComments h owner repo (number pr) = Ok comments
        /\ find is_marked comments = Some existing
        /\ target = id existing)
  /\ (forall target posted,
         In (CreateComment target posted) (run h) ->
         exists owner repo pr comments,
           context_repo h = Ok (owner, repo)
           /\ payload_pull_request h = Some pr
           /\ issues_listComments h owner repo (number pr) = Ok comments
           /\ (forall earlier, In earlier comments -> is_marked earlier = false)
           /\ target = number pr).
Proof.
  split; intros target posted.
  - run_cases h; cbn [In]; intros Hin;
      repeat (destruct Hin as [Hin|Hin]; [try discriminate|]); try contradiction;
      injection Hin as <- <-; exists owner, repo, pr, comments, existing; auto.
  - run_cases h; cbn [In]; intros Hin;
      repeat (destruct Hin as [Hin|Hin]; [try discriminate|]); try contradiction;
      injection Hin as <- <-; exists owner, repo, pr, comments;
      repeat split; auto; now apply find_none.
Qed.

(** X20, witness: with an earlier comment of a run, comment 42 is updated. *)
Lemma upsert_rule_witness :
  exists owner repo pr comments existing,
    context_repo (example_host (lit "false") earlier_comments) = Ok (owner, repo)
    /\ payload_pull_request (example_host (lit "false") earlier_comments) = Some pr
    /\ issues_listComments (example_host (lit "false") earlier_comments)
         owner repo (number pr) = Ok comments
    /\ find is_marked comments = Some existing
    /\ 42 = id existing.
Proof.
  apply (proj1 (upsert_rule (example_host (lit "false") earlier_comments))
               42 example_comment).
  vm_compute. do 3 right. left. reflexivity.
Defined.

(** X21. A run does not duplicate the comment of an earlier run: when the
    comments of the pull request include a text that the formatter produced,
    for any results, no comment is created. *)
Theorem rerun_creates_nothing h o r p listed_comments earlier results0 text0 :
  context_repo h = Ok (o, r) ->
  payload_pull_request h = Some p ->
  issues_listComments h o r (number p) = Ok listed_comments ->
  In earlier listed_comments ->
  body earlier = Some text0 ->
  generateComment results0 = Some text0 ->
  forall target posted, ~ In (CreateComment target posted) (run h).
Proof.
  intros Hrepo Hpr Hlist Hin Hbody Hgen target posted.
  assert (Hm : is_marked earlier = true).
  { unfold is_marked. rewrite Hbody. now apply generated_is_marked with results0. }
  run_cases h; cbn [In]; intros Hc;
    repeat (destruct Hc as [Hc|Hc]; [try discriminate|]); try contradiction.
  all: injection Hrepo as <- <-; injection Hpr as <-;
    rewrite Hlist in Ecomments; injection Ecomments as <-;
    rewrite (@find_none _ is_marked _ Efind earlier Hin) in Hm; discriminate.
Qed.

(** X21, witness: the run of the example after an earlier run. *)
Lemma rerun_creates_nothing_witness :
  ~ In (CreateComment 7 example_comment)
       (run (example_host (lit "true") earlier_comments)).
Proof.
  apply (@rerun_creates_nothing (example_host (lit "true") earlier_comments)
           (lit "acme") (lit "shop") example_pr earlier_comments
           {| id := 42; body := Some example_comment |}
           [ result_of torch_1_2 torch_diff (VString (lit "pytorch")) ]
           example_comment); try reflexivity.
  right. left. reflexivity.
Defined.

Lemma last_failure (trace : list action) :
  Forall (fun a => is_failure a = false) (removelast trace) ->
  forall before message after,
    trace = before ++ SetFailed message :: after -> after = [].
Proof.
  intros H before message after ->.
  destruct after as [|a after]; [reflexivity|]. exfalso.
  rewrite removelast_app in H by discriminate.
  apply Forall_app in H as [_ H]. cbn [removelast] in H.
  inversion H as [|? ? Hf _]. discriminate.
Qed.

(** Two information messages that begin differently are different. *)
Ltac distinct_messages H :=
  repeat (destruct H as [H|H];
          [first [ discriminate H
                 | exfalso; clear - H; apply (f_equal first_unit) in H;
                   lazy in H; discriminate H
                 | idtac ]|]);
  try contradiction.

(** X22. [core.setFailed] is only ever the last thing a run does. After a
    comment has been written successfully, the run is failed for breaking
    changes exactly when the input [fail-on-breaking] is [true]. *)
Theorem failure_signal h :
  (forall before message after,
      run h = before ++ SetFailed message :: after -> after = [])
  /\ (In (Info (lit "Updated existing comment")) (run h)
      \/ In (Info (lit "Posted new comment")) (run h) ->
      (In (SetFailed (lit "Breaking changes detected in dependencies")) (run h)
       <-> input_fail_on_breaking h = lit "true")).
Proof.
  split.
  - apply last_failure. run_cases h; cbn [removelast]; repeat constructor.
  - run_cases h; cbn [In]; intros [Hw|Hw]; distinct_messages Hw;
      (split;
       [ intros Hs; first [ now apply eqb_eq | distinct_messages Hs ]
       | intros Hi; first [ now (do 5 right; left)
                          | rewrite Hi in Eflag; vm_compute in Eflag; discriminate ] ]).
Qed.

(** X22, witness: the example with [fail-on-breaking] set. *)
Lemma failure_signal_witness :
  In (SetFailed (lit "Breaking changes detected in dependencies"))
     (run (example_host (lit "true") []))
  <-> input_fail_on_breaking (example_host (lit "true") []) = lit "true".
Proof.
  apply (proj2 (failure_signal (example_host (lit "true") []))).
  right. vm_compute. do 4 right. left. reflexivity.
Defined.

Example example_run :
  run (example_host (lit "true") earlier_comments)
  = [ Info (lit "Analyzing PR #7 for dependency changes...");
      Info (lit "Found 1 dependency file(s) changed");
      Info (lit "Found 1 dependency change(s), checking for breaking changes...");
      UpdateComment 42 example_comment;
      Info (lit "Updated existing comment");
      SetFailed (lit "Breaking changes detected in dependencies") ].
Proof. vm_compute. reflexivity. Qed.

End RunExtras.
